(** * Sonar generic test report converter

    A shallow embedding of [converter_p3.py] (a Python 3 script that turns
    JUnit and Google Test XML reports into one Sonar "generic test execution"
    document) together with the properties of its conversion pipeline.

    Layout: the interpreter and library primitives the script relies on
    ([Py], [Re], [Etree], [OsPath]), then the script's classes in source
    order, then the theorems. *)

From Stdlib Require Import ZArith QArith Qround List String Ascii Bool Lia.
From Stdlib Require Import SpecFloat DecimalString.
Import ListNotations.

Close Scope Q_scope.

Local Open Scope string_scope.
Local Open Scope list_scope.

(* ===================================================================== *)
(** * Python values and builtins *)
(* ===================================================================== *)

Module Py.

(** [str(int)] *)
Definition str_of_int (z : Z) : string := NilZero.string_of_int (Z.to_int z).

(** The exception classes the builtins and libraries used by the script
    raise.  All of them derive from [Exception], so an [except Exception]
    clause catches each one. *)
Inductive exn : Type :=
| AttributeError (msg : string)
| TypeError (msg : string)
| ValueError (msg : string)
| OverflowError (msg : string)
| OSError (msg : string)
| XMLSyntaxError (msg : string)
| ReError (msg : string).

(** [str(e)] *)
Definition exn_str (e : exn) : string :=
  match e with
  | AttributeError m | TypeError m | ValueError m | OverflowError m
  | OSError m | XMLSyntaxError m | ReError m => m
  end.

(** What a call to a builtin or a library gives: a value or an exception. *)
Inductive result (A : Type) : Type :=
| Ok (a : A)
| Raise (e : exn).
Arguments Ok {A} a.
Arguments Raise {A} e.

(** A value that is either a [str] or [None], such as what [Element.get]
    returns. *)
Definition optstr := option string.

(** [str(v)] as [str.format] applies it to a positional argument. *)
Definition str_of (v : optstr) : string :=
  match v with
  | Some s => s
  | None => "None"
  end.

(** ['{0}.{1}'.format(a, b)] *)
Definition format_dotted (a b : optstr) : string :=
  str_of a ++ "." ++ str_of b.

(** ** [str.strip]

    Characters are 8-bit code points.  Below 256 Python's whitespace is
    TAB..CR, FS..US, space, NEL (0x85) and NBSP (0xA0). *)
Definition isspace (c : ascii) : bool :=
  let n := nat_of_ascii c in
  ((9 <=? n) && (n <=? 13) || (28 <=? n) && (n <=? 32)
   || (n =? 133) || (n =? 160))%nat.

Fixpoint lstrip (s : string) : string :=
  match s with
  | String c s' => if isspace c then lstrip s' else s
  | EmptyString => EmptyString
  end.

Fixpoint rstrip (s : string) : string :=
  match s with
  | EmptyString => EmptyString
  | String c s' =>
      match rstrip s' with
      | EmptyString => if isspace c then EmptyString else String c EmptyString
      | r => String c r
      end
  end.

Definition strip (s : string) : string := rstrip (lstrip s).

(** ** [float]: IEEE 754 binary64, as [spec_float] with 53 bits of precision *)
Definition prec : Z := 53.
Definition emax : Z := 1024.

Definition float_of_int (z : Z) : spec_float := binary_normalize prec emax z 0 false.

(** The correctly rounded binary64 value of [(-1)^neg * m * 10^e10], for
    [0 <= m].  A negative exponent divides with enough extra bits and a
    sticky bit, so that rounding to nearest even sees the exact quotient. *)
Definition float_of_decimal (neg : bool) (m e10 : Z) : spec_float :=
  let sgn (z : Z) := if neg then Z.opp z else z in
  if (m =? 0)%Z then S754_zero neg
  else if (0 <=? e10)%Z then binary_normalize prec emax (sgn (m * 10 ^ e10)%Z) 0 neg
  else
    let d := (10 ^ (- e10))%Z in
    let s := Z.max 0 (Z.log2 d - Z.log2 m + 66)%Z in
    let n := (m * 2 ^ s)%Z in
    let sticky := if (n mod d =? 0)%Z then 0%Z else 1%Z in
    binary_normalize prec emax (sgn (2 * (n / d) + sticky)%Z) (- s - 1)%Z neg.

Definition digit_val (c : ascii) : option Z :=
  let n := Z.of_nat (nat_of_ascii c) in
  if ((48 <=? n) && (n <=? 57))%Z then Some (n - 48)%Z else None.

Definition is_digit (c : ascii) : bool :=
  match digit_val c with Some _ => true | None => false end.

(** Underscores in a numeric literal: allowed only between two digits. *)
Fixpoint drop_underscores (prev : ascii) (s : string) : option string :=
  match s with
  | EmptyString => if Ascii.eqb prev "_" then None else Some EmptyString
  | String c s' =>
      if Ascii.eqb c "_" then
        if is_digit prev then drop_underscores c s' else None
      else if Ascii.eqb prev "_" && negb (is_digit c) then None
      else option_map (String c) (drop_underscores c s')
  end.

(** Reads a run of decimal digits: accumulated value, number of digits
    read, rest of the input. *)
Fixpoint read_digits (acc cnt : Z) (s : string) : Z * Z * string :=
  match s with
  | String c s' =>
      match digit_val c with
      | Some d => read_digits (10 * acc + d)%Z (cnt + 1)%Z s'
      | None => (acc, cnt, s)
      end
  | EmptyString => (acc, cnt, s)
  end.

Definition read_sign (s : string) : bool * string :=
  match s with
  | String "-" s' => (true, s')
  | String "+" s' => (false, s')
  | _ => (false, s)
  end.

Definition lower (c : ascii) : ascii :=
  let n := nat_of_ascii c in
  if ((65 <=? n) && (n <=? 90))%nat then ascii_of_nat (n + 32) else c.

Fixpoint lower_str (s : string) : string :=
  match s with
  | EmptyString => EmptyString
  | String c s' => String (lower c) (lower_str s')
  end.

(** [digits [. digits] [(e|E) [sign] digits]] with at least one digit in the
    mantissa; the whole input must be consumed.  Returns mantissa and
    decimal exponent. *)
Definition parse_number (s : string) : option (Z * Z) :=
  let '(m1, n1, r1) := read_digits 0 0 s in
  let '(m2, n2, r2) :=
    match r1 with
    | String "." r => read_digits m1 0 r
    | _ => (m1, 0%Z, r1)
    end in
  if (n1 + n2 =? 0)%Z then None
  else
    match r2 with
    | EmptyString => Some (m2, (- n2)%Z)
    | String c r3 =>
        if Ascii.eqb (lower c) "e" then
          let '(eneg, r4) := read_sign r3 in
          let '(ex, nx, r5) := read_digits 0 0 r4 in
          if (nx =? 0)%Z then None
          else
            match r5 with
            | EmptyString => Some (m2, ((if eneg then - ex else ex) - n2)%Z)
            | _ => None
            end
        else None
    end.

(** ** [repr] of a [str]

    The quote is the apostrophe, or the double quote when the string holds
    an apostrophe and no double quote.  The quote and the backslash are
    escaped, TAB, LF and CR are written with their letter, and any other
    character that is not printable is written as [\xNN]; below 256 the
    printable characters are 0x20..0x7E and 0xA1..0xFF without 0xAD. *)
Definition double_quote : ascii := ascii_of_nat 34.

Definition isprintable (c : ascii) : bool :=
  let n := nat_of_ascii c in
  ((32 <=? n) && (n <=? 126) || (161 <=? n) && negb (n =? 173))%nat.

Definition hex_digit (n : nat) : ascii :=
  if (n <? 10)%nat then ascii_of_nat (48 + n) else ascii_of_nat (87 + n).

Definition repr_char (quote c : ascii) : string :=
  let n := nat_of_ascii c in
  if Ascii.eqb c quote || Ascii.eqb c "\" then String "\" (String c EmptyString)
  else if (n =? 9)%nat then "\t"
  else if (n =? 10)%nat then "\n"
  else if (n =? 13)%nat then "\r"
  else if isprintable c then String c EmptyString
  else String "\" (String "x" (String (hex_digit (n / 16))
                                 (String (hex_digit (n mod 16)) EmptyString))).

Fixpoint holds (c : ascii) (s : string) : bool :=
  match s with
  | EmptyString => false
  | String c' s' => Ascii.eqb c' c || holds c s'
  end.

Fixpoint repr_chars (quote : ascii) (s : string) : string :=
  match s with
  | EmptyString => String quote EmptyString
  | String c s' => repr_char quote c ++ repr_chars quote s'
  end.

Definition repr (s : string) : string :=
  let quote := if holds "'" s && negb (holds double_quote s) then double_quote else "'"%char in
  String quote (repr_chars quote s).

(** The whitespace [float] skips around a number: TAB..CR and the space,
    and the two other spaces below 256, NEL and NBSP.  FS..US, which
    [str.strip] removes, are not skipped. *)
Definition float_isspace (c : ascii) : bool :=
  let n := nat_of_ascii c in
  ((9 <=? n) && (n <=? 13) || (n =? 32) || (n =? 133) || (n =? 160))%nat.

Fixpoint float_lstrip (s : string) : string :=
  match s with
  | String c s' => if float_isspace c then float_lstrip s' else s
  | EmptyString => EmptyString
  end.

Fixpoint float_rstrip (s : string) : string :=
  match s with
  | EmptyString => EmptyString
  | String c s' =>
      match float_rstrip s' with
      | EmptyString => if float_isspace c then EmptyString else String c EmptyString
      | r => String c r
      end
  end.

(** [float(s)] for a [str] argument: surrounding whitespace is skipped,
    underscores are checked and removed, then an optional sign is followed
    by [inf], [infinity], [nan] (any letter case) or a decimal number.  The
    text of the [ValueError] ends with [repr(s)]. *)
Definition float_of_str (s : string) : result spec_float :=
  let bad := Raise (ValueError ("could not convert string to float: " ++ repr s)) in
  match drop_underscores zero (float_rstrip (float_lstrip s)) with
  | None => bad
  | Some t =>
      let '(neg, body) := read_sign t in
      let l := lower_str body in
      if String.eqb l "inf" || String.eqb l "infinity" then Ok (S754_infinity neg)
      else if String.eqb l "nan" then Ok S754_nan
      else
        match parse_number body with
        | Some (m, e10) => Ok (float_of_decimal neg m e10)
        | None => bad
        end
  end.

(** [float(v)] where [v] is a [str] or [None]. *)
Definition float (v : optstr) : result spec_float :=
  match v with
  | Some s => float_of_str s
  | None =>
      Raise (TypeError "float() argument must be a string or a real number, not 'NoneType'")
  end.

(** [x * 1000] for a float [x]: the integer operand is converted exactly,
    the product is rounded to nearest even. *)
Definition float_mul_int (x : spec_float) (k : Z) : spec_float :=
  SFmul prec emax x (float_of_int k).

(** [int(x)] for a float [x]: truncation toward zero. *)
Definition int_of_float (x : spec_float) : result Z :=
  match x with
  | S754_zero _ => Ok 0%Z
  | S754_finite s m e =>
      let v := if (0 <=? e)%Z then (Zpos m * 2 ^ e)%Z else (Zpos m / 2 ^ (- e))%Z in
      Ok (if s then (- v)%Z else v)
  | S754_infinity _ => Raise (OverflowError "cannot convert float infinity to integer")
  | S754_nan => Raise (ValueError "cannot convert float NaN to integer")
  end.

End Py.


(* ===================================================================== *)
(** * [dict]: insertion-ordered maps *)
(* ===================================================================== *)

Module Dict.

Class EqDec (K : Type) : Type := eq_dec : forall a b : K, {a = b} + {a <> b}.

#[export] Instance string_EqDec : EqDec string := string_dec.

Definition optstr_eq_dec (a b : option string) : {a = b} + {a <> b}.
Proof. decide equality. apply string_dec. Defined.

#[export] Instance optstr_EqDec : EqDec (option string) := optstr_eq_dec.

(** Entries in insertion order, keys pairwise distinct. *)
Definition dict (K V : Type) : Type := list (K * V).

Section Ops.
Context {K V : Type} `{EqDec K}.

(** [d.get(k)]; [d[k]] when the key is present *)
Fixpoint get (d : dict K V) (k : K) : option V :=
  match d with
  | [] => None
  | (k', v) :: d' => if eq_dec k' k then Some v else get d' k
  end.

(** [k in d] *)
Definition contains (d : dict K V) (k : K) : bool :=
  match get d k with Some _ => true | None => false end.

(** [d[k] = v]: an existing key keeps its position, a new one goes last. *)
Fixpoint set (d : dict K V) (k : K) (v : V) : dict K V :=
  match d with
  | [] => [(k, v)]
  | (k', v') :: d' =>
      if eq_dec k' k then (k', v) :: d' else (k', v') :: set d' k v
  end.

(** Applies [f] to the object stored under [k] (a method call that mutates
    [d[k]] in place). *)
Fixpoint update (d : dict K V) (k : K) (f : V -> V) : dict K V :=
  match d with
  | [] => []
  | (k', v) :: d' =>
      if eq_dec k' k then (k', f v) :: d' else (k', v) :: update d' k f
  end.

Definition keys (d : dict K V) : list K := map fst d.
Definition values (d : dict K V) : list V := map snd d.
Definition items (d : dict K V) : list (K * V) := d.

End Ops.
End Dict.

(* ===================================================================== *)
(** * [re]: the fragment of regular expressions that [GTEST_RE] uses *)
(* ===================================================================== *)

Module Re.

Inductive atom : Type :=
| Lit (c : ascii)   (** an ordinary or escaped character *)
| Dot.              (** [.]: any character but a newline *)

(** A pattern is a sequence of items.  Quantifiers are greedy and apply to
    one atom; groups are capturing and do not nest. *)
Inductive item : Type :=
| One (a : atom)
| Star (a : atom)
| Plus (a : atom)
| GroupOpen
| GroupClose.

Definition regex : Type := list item.

Definition newline : ascii := ascii_of_nat 10.

Definition atom_matches (a : atom) (c : ascii) : bool :=
  match a with
  | Lit x => Ascii.eqb x c
  | Dot => negb (Ascii.eqb c newline)
  end.

(** Length of the longest prefix of [s] made of characters matching [a]. *)
Fixpoint run_length (a : atom) (s : string) : nat :=
  match s with
  | String c s' => if atom_matches a c then S (run_length a s') else 0
  | EmptyString => 0
  end.

Fixpoint skip (n : nat) (s : string) : string :=
  match n, s with
  | S n', String _ s' => skip n' s'
  | _, _ => s
  end.

(** Backtracking match of [re] against a prefix of [s].  [pos] is the
    number of characters consumed so far, [opened] the start of the group
    being read, [caps] the spans of the groups closed so far (latest
    first).  A quantified atom first takes the longest run and gives
    characters back one at a time. *)
Fixpoint match_here (re : regex) (s : string) (pos : nat)
    (opened : list nat) (caps : list (nat * nat)) : option (list (nat * nat)) :=
  match re with
  | [] => Some (rev caps)
  | One a :: re' =>
      match s with
      | String c s' =>
          if atom_matches a c then match_here re' s' (S pos) opened caps else None
      | EmptyString => None
      end
  | Star a :: re' =>
      (fix give_back (k : nat) : option (list (nat * nat)) :=
         match match_here re' (skip k s) (pos + k) opened caps with
         | Some r => Some r
         | None => match k with 0 => None | S k' => give_back k' end
         end) (run_length a s)
  | Plus a :: re' =>
      (fix give_back (k : nat) : option (list (nat * nat)) :=
         match k with
         | 0 => None
         | S k' =>
             match match_here re' (skip k s) (pos + k) opened caps with
             | Some r => Some r
             | None => give_back k'
             end
         end) (run_length a s)
  | GroupOpen :: re' => match_here re' s pos (pos :: opened) caps
  | GroupClose :: re' =>
      match opened with
      | start :: opened' => match_here re' s pos opened' ((start, pos) :: caps)
      | [] => None
      end
  end.

(** [re.search(s)]: the match at the leftmost position where one exists,
    as the list of its groups' texts ([group(1)], [group(2)], ...). *)
Fixpoint search (re : regex) (s : string) : option (list string) :=
  match match_here re s 0 [] [] with
  | Some caps => Some (map (fun '(b, e) => substring b (e - b) s) caps)
  | None =>
      match s with
      | String _ s' => search re s'
      | EmptyString => None
      end
  end.

End Re.

(** [re.compile(r'TEST.*\((.+),(.+)\)')] *)
Definition GTEST_RE : Re.regex :=
  [ Re.One (Re.Lit "T"); Re.One (Re.Lit "E"); Re.One (Re.Lit "S"); Re.One (Re.Lit "T");
    Re.Star Re.Dot;
    Re.One (Re.Lit "(");
    Re.GroupOpen; Re.Plus Re.Dot; Re.GroupClose;
    Re.One (Re.Lit ",");
    Re.GroupOpen; Re.Plus Re.Dot; Re.GroupClose;
    Re.One (Re.Lit ")") ].

(* ===================================================================== *)
(** * [lxml.etree] trees and [os.path] *)
(* ===================================================================== *)

Module Etree.

(** A node of a parsed or built document.  [text] is the text before the
    first child ([None] when there is none); the children of an element are
    its child elements, comments and processing instructions in document
    order. *)
#[warnings="-register-all"]
Inductive node : Type :=
| Element (tag : string) (attrib : list (string * string))
    (text : option string) (children : list node)
| Comment (text : option string)
| ProcessingInstruction (target : string) (text : option string).

(** [node.tag] when it is a string: comments and processing instructions
    carry a function object there, which equals no string. *)
Definition tag (n : node) : option string :=
  match n with
  | Element t _ _ _ => Some t
  | _ => None
  end.

Definition text (n : node) : option string :=
  match n with
  | Element _ _ t _ => t
  | Comment t => t
  | ProcessingInstruction _ t => t
  end.

(** The children [n[0]], [n[1]], ...; [len(n)] is the length of the list. *)
Definition children (n : node) : list node :=
  match n with
  | Element _ _ _ cs => cs
  | _ => []
  end.

Fixpoint assoc (l : list (string * string)) (k : string) : option string :=
  match l with
  | [] => None
  | (k', v) :: l' => if String.eqb k' k then Some v else assoc l' k
  end.

(** [n.get(key)] *)
Definition get (n : node) (key : string) : option string :=
  match n with
  | Element _ a _ _ => assoc a key
  | _ => None
  end.

Definition has_tag (name : string) (n : node) : bool :=
  match tag n with
  | Some t => String.eqb t name
  | None => false
  end.

(** [n.xpath('name')]: the child elements called [name]. *)
Definition xpath_children (name : string) (n : node) : list node :=
  filter (has_tag name) (children n).

(** [tree.xpath('/a/b')]: the [b] children of the root element, provided
    the root is called [a]. *)
Definition xpath_root (a b : string) (root : node) : list node :=
  if has_tag a root then xpath_children b root else [].

(** The characters lxml lets through, among 8-bit code points: TAB, LF, CR
    and everything from the space on.  The parser refuses a document that
    holds another one, also as a character reference, and the functions
    that build a tree refuse a string that holds one. *)
Definition xml_char (c : ascii) : bool :=
  let n := nat_of_ascii c in
  ((n =? 9) || (n =? 10) || (n =? 13) || (32 <=? n))%nat.

Fixpoint xml_compatible (s : string) : bool :=
  match s with
  | EmptyString => true
  | String c s' => xml_char c && xml_compatible s'
  end.

Definition xml_compatible_opt (t : option string) : bool :=
  match t with
  | Some s => xml_compatible s
  | None => true
  end.

(** Every string of the tree is made of such characters. *)
Fixpoint well_formed (n : node) : bool :=
  match n with
  | Element t a x cs =>
      xml_compatible t
      && forallb (fun kv : string * string =>
                    xml_compatible (fst kv) && xml_compatible (snd kv)) a
      && xml_compatible_opt x
      && forallb well_formed cs
  | Comment x => xml_compatible_opt x
  | ProcessingInstruction t x => xml_compatible t && xml_compatible_opt x
  end.

End Etree.

Module OsPath.

Fixpoint ends_with_slash (s : string) : bool :=
  match s with
  | EmptyString => false
  | String c EmptyString => Ascii.eqb c "/"
  | String _ s' => ends_with_slash s'
  end.

(** [os.path.join(a, b)] on a POSIX system *)
Definition join (a b : string) : string :=
  match b with
  | String "/" _ => b
  | _ =>
      match a with
      | EmptyString => b
      | _ => if ends_with_slash a then a ++ b else a ++ "/" ++ b
      end
  end.

End OsPath.

(* ===================================================================== *)
(** * Effects *)
(* ===================================================================== *)

Import Py.

(** What a run does that can be seen from outside, in order. *)
Inductive event : Type :=
| Print (line : string)                        (** [print(line)] *)
| Walk (root : string)                         (** [os.walk(root)] is started *)
| ParseXml (path : string)                     (** [etree.parse(path)] *)
| OpenRead (path : string)                     (** [open(path, 'r')] *)
| OpenWrite (path : string)                    (** [open(path, 'wb')] *)
| WriteDoc (path : string) (doc : Etree.node). (** [file.write(etree.tostring(doc, ...))] *)

(** The file system and the library calls whose results the script only
    consumes.  [os_walk] lists [(dirName, subdirList, fileList)] in the
    order of the walk (nothing for a root that does not exist);
    [re_compile p] is the test [re.compile(p).search(name) is not None] on
    file names, or the error of a pattern that does not compile.
    [etree_parse] is lxml's parser, which gives a tree only for a document
    whose characters XML allows ([parse_well_formed]). *)
Record world : Type := {
  os_walk : string -> list (string * list string * list string);
  etree_parse : string -> result Etree.node;
  read_lines : string -> result (list string);
  open_write : string -> result unit;
  re_compile : string -> result (string -> bool);
  parse_well_formed :
    forall path root, etree_parse path = Ok root -> Etree.well_formed root = true
}.

(** How a statement sequence ends: normally with a value, with an
    exception deriving from [Exception], or with [sys.exit(code)], whose
    [SystemExit] no [except Exception] clause catches. *)
Inductive completion (A : Type) : Type :=
| Done (a : A)
| Raised (e : exn)
| Exited (code : Z).
Arguments Done {A} a.
Arguments Raised {A} e.
Arguments Exited {A} code.

Definition completion_of {A : Type} (r : result A) : completion A :=
  match r with
  | Ok a => Done a
  | Raise e => Raised e
  end.

(** A statement sequence over a local state [S]: the events it produces,
    the state it leaves (also when it does not end normally) and how it
    ends. *)
Definition prog (S A : Type) : Type := S -> list event * S * completion A.

Definition ret {S A : Type} (a : A) : prog S A :=
  fun s => ([], s, Done a).

Definition bind {S A B : Type} (m : prog S A) (k : A -> prog S B) : prog S B :=
  fun s =>
    match m s with
    | (ev, s', Done a) => let '(ev', s'', c) := k a s' in (ev ++ ev', s'', c)
    | (ev, s', Raised e) => (ev, s', Raised e)
    | (ev, s', Exited code) => (ev, s', Exited code)
    end.

Declare Scope prog_scope.
Delimit Scope prog_scope with prog.
Notation "x <- m ;; k" := (bind m (fun x => k))
  (at level 61, m at next level, right associativity) : prog_scope.
Notation "m ;; k" := (bind m (fun _ => k))
  (at level 61, right associativity) : prog_scope.
Local Open Scope prog_scope.

Definition emit {S : Type} (e : event) : prog S unit :=
  fun s => ([e], s, Done tt).

(** A library call: logs [e], then yields the call's value or raises. *)
Definition call {S A : Type} (e : event) (r : result A) : prog S A :=
  fun s => ([e], s, completion_of r).

Definition lift {S A : Type} (r : result A) : prog S A :=
  fun s => ([], s, completion_of r).

(** [sys.exit(code)] *)
Definition sys_exit {S A : Type} (code : Z) : prog S A :=
  fun s => ([], s, Exited code).

Definition get_state {S : Type} : prog S S :=
  fun s => ([], s, Done s).

Definition modify {S : Type} (f : S -> S) : prog S unit :=
  fun s => ([], f s, Done tt).

(** [for x in xs: body(x)] *)
Fixpoint for_each {S X : Type} (xs : list X) (body : X -> prog S unit) : prog S unit :=
  match xs with
  | [] => ret tt
  | x :: xs' => body x ;; for_each xs' body
  end.

(** [try: m  except Exception as e: handler(e)]; the state changes made
    before the exception stay. *)
Definition try_except {S A : Type} (m : prog S A) (handler : exn -> prog S A) : prog S A :=
  fun s =>
    match m s with
    | (ev, s', Raised e) => let '(ev', s'', c) := handler e s' in (ev ++ ev', s'', c)
    | ended => ended
    end.

(** A function body with a local variable initialised to [init] that ends
    in [return <that variable>]. *)
Definition returning {S T A : Type} (init : S) (m : prog S A) : prog T S :=
  fun t =>
    match m init with
    | (ev, s, Done _) => (ev, t, Done s)
    | (ev, _, Raised e) => (ev, t, Raised e)
    | (ev, _, Exited code) => (ev, t, Exited code)
    end.

(** Statements at a level with no local state of interest. *)
Definition io (A : Type) : Type := prog unit A.

Definition run {A : Type} (m : io A) : list event * completion A :=
  let '(ev, _, c) := m tt in (ev, c).

(* ===================================================================== *)
(** * The script *)
(* ===================================================================== *)

Import Dict.

(** ** [TestMsgType] and the two tag tables *)

Inductive TestMsgType : Type := failure | error | skipped.

(** [str(t)] for a member of an [enum.Enum] class *)
Definition TestMsgType_str (t : TestMsgType) : string :=
  match t with
  | failure => "TestMsgType.failure"
  | error => "TestMsgType.error"
  | skipped => "TestMsgType.skipped"
  end.

Definition test_msg_type_map (t : TestMsgType) : string :=
  match t with
  | skipped => "skipped"
  | failure => "failure"
  | error => "error"
  end.

Definition test_msg_tag_map (tag : string) : option TestMsgType :=
  if String.eqb tag "skipped" then Some skipped
  else if String.eqb tag "failure" then Some failure
  else if String.eqb tag "error" then Some error
  else None.

(** ** [class TestMsg] *)
Module TestMsg.

Record t : Type := {
  _msg_type : TestMsgType;
  _short_msg : string;
  _long_msg : string
}.

Definition init (type : TestMsgType) (short long : optstr) : t :=
  {| _msg_type := type;
     _short_msg := match short with Some s => s | None => "" end;
     _long_msg := match long with Some s => s | None => "" end |}.

Definition msg_type (self : t) : TestMsgType := _msg_type self.

(** The property returns [self._msg_type]. *)
Definition short_msg (self : t) : TestMsgType := _msg_type self.

Definition long_msg (self : t) : string := _long_msg self.

End TestMsg.

(** ** [class TestCase] *)
Module TestCase.

Record t : Type := {
  _name : string;
  _duration : string;
  _msg : option TestMsg.t
}.

Definition init (name duration : string) (msg : option TestMsg.t) : t :=
  {| _name := name; _duration := duration; _msg := msg |}.

Definition name (self : t) : string := _name self.
Definition duration (self : t) : string := _duration self.
Definition msg (self : t) : option TestMsg.t := _msg self.

End TestCase.

(** ** [class SonarTestExcution] *)
Module SonarTestExcution.

Record t : Type := {
  _file_path : optstr;
  _test_cases : list TestCase.t
}.

Definition init (file_path : optstr) : t :=
  {| _file_path := file_path; _test_cases := [] |}.

Definition add_test_case (test_case : TestCase.t) (self : t) : t :=
  {| _file_path := _file_path self; _test_cases := _test_cases self ++ [test_case] |}.

Definition add_test_cases (test_cases : list TestCase.t) (self : t) : t :=
  {| _file_path := _file_path self; _test_cases := _test_cases self ++ test_cases |}.

Definition test_cases (self : t) : list TestCase.t := _test_cases self.
Definition file_path (self : t) : optstr := _file_path self.

End SonarTestExcution.

(** The dictionaries of groups, keyed by a file path that is a [str] or
    [None]. *)
Definition executions : Type := dict optstr SonarTestExcution.t.

(** ** [class SonarTestExcutionsXmlSerializer] *)
Module SonarTestExcutionsXmlSerializer.

(** The message element of a test case:
    [SubElement(test_case_tag, tag_name, message=str(msg.short_msg))] with
    [text = msg.long_msg]. *)
Definition msg_tag (m : TestMsg.t) : Etree.node :=
  Etree.Element (test_msg_type_map (TestMsg.msg_type m))
    [("message", TestMsgType_str (TestMsg.short_msg m))]
    (Some (TestMsg.long_msg m)) [].

Definition test_case_tag (test_case : TestCase.t) : Etree.node :=
  Etree.Element "testCase"
    [("name", TestCase.name test_case); ("duration", TestCase.duration test_case)]
    None
    match TestCase.msg test_case with
    | Some m => [msg_tag m]
    | None => []
    end.

(** What lxml raises for a string with a character that XML does not
    allow. *)
Definition xml_refused : exn :=
  ValueError ("All strings must be XML compatible: Unicode or ASCII, "
              ++ "no NULL bytes or control characters").

(** [SubElement(root, 'file', path=execution.file_path)] and what the inner
    loop puts under it.  lxml refuses an attribute value that is [None]
    with [TypeError], and an attribute value or a text with a character
    that XML does not allow with [ValueError].  The path is checked first;
    every refused string of a group gives the same [ValueError]. *)
Definition file_tag (execution : SonarTestExcution.t) : result Etree.node :=
  match SonarTestExcution.file_path execution with
  | Some path =>
      let file :=
        Etree.Element "file" [("path", path)] None
          (map test_case_tag (SonarTestExcution.test_cases execution)) in
      if Etree.well_formed file then Ok file else Raise xml_refused
  | None => Raise (TypeError "Argument must be bytes or unicode, got 'NoneType'")
  end.

Fixpoint file_tags (test_executions : list SonarTestExcution.t) : result (list Etree.node) :=
  match test_executions with
  | [] => Ok []
  | execution :: rest =>
      match file_tag execution with
      | Ok f =>
          match file_tags rest with
          | Ok fs => Ok (f :: fs)
          | Raise e => Raise e
          end
      | Raise e => Raise e
      end
  end.

(** The document handed to [etree.tostring]; the first group that lxml
    refuses ends the call. *)
Definition serialize (test_executions : list SonarTestExcution.t) : result Etree.node :=
  match file_tags test_executions with
  | Ok fs => Ok (Etree.Element "testExecutions" [("version", "1")] None fs)
  | Raise e => Raise e
  end.

End SonarTestExcutionsXmlSerializer.

(** ** Statements shared by the two parsers *)

(** [str(int(float(testCase.get('time')) * 1000))] *)
Definition duration_of (testCase : Etree.node) : result string :=
  match Py.float (Etree.get testCase "time") with
  | Ok seconds =>
      match int_of_float (float_mul_int seconds 1000) with
      | Ok ms => Ok (str_of_int ms)
      | Raise e => Raise e
      end
  | Raise e => Raise e
  end.

(** [if key not in d: d[key] = SonarTestExcution(key)] *)
Definition ensure_group (key : optstr) : prog executions unit :=
  d <- get_state ;;
  if Dict.contains d key then ret tt
  else modify (fun d => Dict.set d key (SonarTestExcution.init key)).

Definition cant_parse (path : string) (e : exn) : string :=
  "Can't parse report file of " ++ path ++ ". Skip it. due to " ++ exn_str e.

(** The body of the loop over [executionDict]'s items in both [parse]
    functions. *)
Definition merge_item (item : optstr * SonarTestExcution.t) : prog executions unit :=
  let '(key, value) := item in
  ensure_group key ;;
  modify (fun d =>
    Dict.update d key (SonarTestExcution.add_test_cases (SonarTestExcution.test_cases value))).

(** ** [class JUnitTestReportParser] *)
Module JUnitTestReportParser.

(** Only the first child of the test case is looked at. *)
Definition doParseMsg (test_case_node : Etree.node) : option TestMsg.t :=
  match Etree.children test_case_node with
  | first :: _ =>
      match Etree.tag first with
      | Some tag =>
          match test_msg_tag_map tag with
          | Some type =>
              Some (TestMsg.init type (Etree.get first "message") (Etree.text first))
          | None => None
          end
      | None => None
      end
  | [] => None
  end.

(** The test case object built for one [testcase] element, given its
    duration text. *)
Definition test_case (testCase : Etree.node) (duration : string) : TestCase.t :=
  TestCase.init
    (format_dotted (Etree.get testCase "classname") (Etree.get testCase "name"))
    duration (doParseMsg testCase).

(** One turn of the loop over the test cases.  The group is looked up (and
    created) before the arguments of [TestCase(...)] are evaluated. *)
Definition doParse_step (testCase : Etree.node) : prog executions unit :=
  let file := Etree.get testCase "file" in
  ensure_group file ;;
  duration <- lift (duration_of testCase) ;;
  modify (fun d =>
    Dict.update d file (SonarTestExcution.add_test_case (test_case testCase duration))).

Definition doParse {T : Type} (w : world) (report_file_path : string) : prog T executions :=
  returning []
    (try_except
       (tree <- call (ParseXml report_file_path) (etree_parse w report_file_path) ;;
        for_each (Etree.xpath_root "testsuite" "testcase" tree) doParse_step)
       (fun e => emit (Print (cant_parse report_file_path e)))).

(** [executionDict.iteritems()]: a Python 3 [dict] has no such attribute. *)
Definition no_iteritems : exn :=
  AttributeError "'dict' object has no attribute 'iteritems'".

Definition iteritems (executionDict : executions)
  : result (list (optstr * SonarTestExcution.t)) :=
  Raise no_iteritems.

(** One turn of [for fileName in fileList]. *)
Definition parse_file (w : world) (regexp : string -> bool) (dirName fileName : string)
  : prog executions unit :=
  if regexp fileName then
    executionDict <- doParse w (OsPath.join dirName fileName) ;;
    its <- lift (iteritems executionDict) ;;
    for_each its merge_item
  else ret tt.

(** One turn of [for dirName, subdirList, fileList in os.walk(...)]. *)
Definition parse_dir (w : world) (regexp : string -> bool)
    (entry : string * list string * list string) : prog executions unit :=
  let '(dirName, _, fileList) := entry in
  for_each fileList (parse_file w regexp dirName).

Definition parse (w : world) (searching_folder_path searching_report_file_pattern : string)
  : io (list SonarTestExcution.t) :=
  sonarTestExcutions <-
    returning []
      (regexp <- lift (re_compile w searching_report_file_pattern) ;;
       emit (Walk searching_folder_path) ;;
       for_each (os_walk w searching_folder_path) (parse_dir w regexp)) ;;
  ret (Dict.values sonarTestExcutions).

End JUnitTestReportParser.

(** ** [class GoogleTestReportParser] *)
Module GoogleTestReportParser.

(** The key a source line contributes to the index, when [GTEST_RE] finds a
    match in it: ['{0}.{1}'.format(group(1).strip(), group(2).strip())]. *)
Definition line_key (line : string) : option string :=
  match Re.search GTEST_RE line with
  | Some groups =>
      Some (format_dotted (Some (strip (nth 0 groups ""))) (Some (strip (nth 1 groups ""))))
  | None => None
  end.

(** One turn of [for line in src_file]. *)
Definition scan_line (file_path line : string) : prog (dict string string) unit :=
  match line_key line with
  | Some key => modify (fun d => Dict.set d key file_path)
  | None => ret tt
  end.

(** One turn of [for fileName in fileList]. *)
Definition scan_file (w : world) (regexp : string -> bool) (dirName fileName : string)
  : prog (dict string string) unit :=
  if regexp fileName then
    let file_path := OsPath.join dirName fileName in
    lines <- call (OpenRead file_path) (read_lines w file_path) ;;
    for_each lines (scan_line file_path)
  else ret tt.

(** One turn of [for dirName, subdirList, fileList in os.walk(...)]. *)
Definition scan_dir (w : world) (regexp : string -> bool)
    (entry : string * list string * list string) : prog (dict string string) unit :=
  let '(dirName, _, fileList) := entry in
  for_each fileList (scan_file w regexp dirName).

Definition doParseSrcFolder {T : Type} (w : world) (gtest_src_folder gtest_file_pattern : string)
  : prog T (dict string string) :=
  returning []
    (regexp <- lift (re_compile w gtest_file_pattern) ;;
     emit (Walk gtest_src_folder) ;;
     for_each (os_walk w gtest_src_folder) (scan_dir w regexp)).

Definition not_in_source (testName : string) : string :=
  "Couldn't find test case named " ++ testName ++ " in source code. Skip it.".

Definition test_name (test_suite_name : optstr) (testCase : Etree.node) : string :=
  format_dotted test_suite_name (Etree.get testCase "name").

(** One turn of the inner loop over the test cases of a suite. *)
Definition doParse_step (test_name_to_source_name : dict string string)
    (test_suite_name : optstr) (testCase : Etree.node) : prog executions unit :=
  let testName := test_name test_suite_name testCase in
  match Dict.get test_name_to_source_name testName with
  | Some test_file_name =>
      ensure_group (Some test_file_name) ;;
      duration <- lift (duration_of testCase) ;;
      modify (fun d =>
        Dict.update d (Some test_file_name)
          (SonarTestExcution.add_test_case
             (TestCase.init testName duration (JUnitTestReportParser.doParseMsg testCase))))
  | None => emit (Print (not_in_source testName))
  end.

(** One turn of the outer loop over the suites. *)
Definition doParse_suite (test_name_to_source_name : dict string string)
    (testSuite : Etree.node) : prog executions unit :=
  let test_suite_name := Etree.get testSuite "name" in
  for_each (Etree.xpath_children "testcase" testSuite)
    (doParse_step test_name_to_source_name test_suite_name).

Definition doParse {T : Type} (w : world) (gtest_report_path : string)
    (test_name_to_source_name : dict string string) : prog T executions :=
  returning []
    (try_except
       (tree <- call (ParseXml gtest_report_path) (etree_parse w gtest_report_path) ;;
        for_each (Etree.xpath_root "testsuites" "testsuite" tree)
          (doParse_suite test_name_to_source_name))
       (fun e => emit (Print (cant_parse gtest_report_path e)))).

(** One turn of [for fileName in fileList]. *)
Definition parse_file (w : world) (test_name_to_source_name : dict string string)
    (regexp : string -> bool) (dirName fileName : string) : prog executions unit :=
  if regexp fileName then
    executionDict <- doParse w (OsPath.join dirName fileName) test_name_to_source_name ;;
    for_each (Dict.items executionDict) merge_item
  else ret tt.

(** One turn of [for dirName, subdirList, fileList in os.walk(...)]. *)
Definition parse_dir (w : world) (test_name_to_source_name : dict string string)
    (regexp : string -> bool) (entry : string * list string * list string)
  : prog executions unit :=
  let '(dirName, _, fileList) := entry in
  for_each fileList (parse_file w test_name_to_source_name regexp dirName).

Definition parse (w : world)
    (searching_folder_path searching_report_file_pattern gtest_src_path gtest_file_pattern : string)
  : io (list SonarTestExcution.t) :=
  test_name_to_source_name <- doParseSrcFolder w gtest_src_path gtest_file_pattern ;;
  sonarTestExcutions <-
    returning []
      (regexp <- lift (re_compile w searching_report_file_pattern) ;;
       emit (Walk searching_folder_path) ;;
       for_each (os_walk w searching_folder_path)
         (parse_dir w test_name_to_source_name regexp)) ;;
  ret (Dict.values sonarTestExcutions).

End GoogleTestReportParser.

(** ** The [__main__] block *)

Inductive ReportType : Type := junit | gtest.

(** The namespace [parser.parse_args()] returns: the four required options
    and the two optional ones, which default to [None]. *)
Record Namespace : Type := {
  report_type : ReportType;
  search_folder : string;
  report_pattern : string;
  output : string;
  gtest_src_folder : optstr;
  gtest_src_pattern : optstr
}.

Definition gtest_options_required : string :=
  "for gtest report, the gtest source folder and gtest src file name pattern are required.".

Definition main (w : world) (args : Namespace) : io unit :=
  test_cases <-
    match report_type args with
    | junit => JUnitTestReportParser.parse w (search_folder args) (report_pattern args)
    | gtest =>
        match gtest_src_folder args, gtest_src_pattern args with
        | Some src_folder, Some src_pattern =>
            GoogleTestReportParser.parse w (search_folder args) (report_pattern args)
              src_folder src_pattern
        | _, _ =>
            emit (Print gtest_options_required) ;;
            sys_exit 1
        end
    end ;;
  call (OpenWrite (output args)) (open_write w (output args)) ;;
  doc <- lift (SonarTestExcutionsXmlSerializer.serialize test_cases) ;;
  emit (WriteDoc (output args) doc).

(** The status the interpreter exits with: 0 at the end of the script, 1
    after an exception nobody caught, the code given to [sys.exit]. *)
Definition exit_status (c : completion unit) : Z :=
  match c with
  | Done _ => 0%Z
  | Raised _ => 1%Z
  | Exited code => code
  end.

(* ===================================================================== *)
(** * A small world to run examples in *)
(* ===================================================================== *)

Module Example.

Fixpoint is_prefix (p s : string) : bool :=
  match p, s with
  | EmptyString, _ => true
  | String a p', String b s' => Ascii.eqb a b && is_prefix p' s'
  | _, _ => false
  end.

Fixpoint contains_str (p s : string) : bool :=
  is_prefix p s ||
  match s with
  | String _ s' => contains_str p s'
  | EmptyString => false
  end.

(** For a pattern made of letters and digits only, [re.search] is
    substring search. *)
Definition literal_re (pattern : string) : result (string -> bool) :=
  Ok (contains_str pattern).

Definition lookup {A : Type} (table : list (string * A)) (missing : A) (k : string) : A :=
  match Dict.get table k with
  | Some a => a
  | None => missing
  end.

(** The parser on a file that holds [r]: a tree with a character that XML
    does not allow is a syntax error (the text of the error is cut short
    here: lxml adds the character, the line and the column). *)
Definition parsed (r : result Etree.node) : result Etree.node :=
  match r with
  | Ok root =>
      if Etree.well_formed root then Ok root
      else Raise (XMLSyntaxError "PCDATA invalid Char value")
  | Raise e => Raise e
  end.

Definition parsed_well_formed (r : result Etree.node) (root : Etree.node) :
  parsed r = Ok root -> Etree.well_formed root = true.
Proof.
  unfold parsed. destruct r as [x|e]; [|discriminate].
  destruct (Etree.well_formed x) eqn:E; [|discriminate].
  intros H. inversion H; subst. exact E.
Defined.

(** A world of flat directories: [dirs] gives the file names of each root
    that exists, [docs] what the files parsed as XML hold, [texts] the
    lines of the text files. *)
Definition flat_world (dirs : list (string * list string))
    (docs : list (string * result Etree.node))
    (texts : list (string * list string)) : world :=
  {| os_walk := fun root =>
       match Dict.get dirs root with
       | Some files => [(root, [], files)]
       | None => []
       end;
     etree_parse := fun p =>
       parsed (lookup docs
                 (Raise (OSError "Error reading file: failed to load external entity")) p);
     read_lines := fun p =>
       match Dict.get texts p with
       | Some ls => Ok ls
       | None => Raise (OSError "No such file or directory")
       end;
     open_write := fun _ => Ok tt;
     re_compile := literal_re;
     parse_well_formed := fun p =>
       parsed_well_formed
         (lookup docs
            (Raise (OSError "Error reading file: failed to load external entity")) p) |}.

End Example.

(* ===================================================================== *)
(** * Views of a run used in the statements *)
(* ===================================================================== *)

(** The test cases a dictionary of groups holds under [key]. *)
Definition cases_at (d : executions) (key : optstr) : list TestCase.t :=
  match Dict.get d key with
  | Some g => SonarTestExcution.test_cases g
  | None => []
  end.

(** The dictionary after [ensure_group key], and after appending [tcs] to
    the group of [key] as well: the net effect of [ensure_group] followed by
    [add_test_case] or [add_test_cases]. *)
Definition ensure (key : optstr) (d : executions) : executions :=
  if Dict.contains d key then d else Dict.set d key (SonarTestExcution.init key).

Definition extend (key : optstr) (tcs : list TestCase.t) (d : executions) : executions :=
  Dict.update (ensure key d) key (SonarTestExcution.add_test_cases tcs).

(** [extend] for each [x] of [xs] in turn, with key [key x] and test cases
    [ents x]. *)
Definition fold_extend {X : Type} (key : X -> optstr) (ents : X -> list TestCase.t)
    (xs : list X) (d : executions) : executions :=
  fold_left (fun acc x => extend (key x) (ents x) acc) xs d.

(** Every group sits under its own file path. *)
Definition keyed (d : executions) : Prop :=
  forall key g, In (key, g) d -> SonarTestExcution.file_path g = key.

(** ** The message of a test case, in the words of the specification *)

Definition is_status (n : Etree.node) : bool :=
  match Etree.tag n with
  | Some tag =>
      match test_msg_tag_map tag with
      | Some _ => true
      | None => false
      end
  | None => false
  end.

(** The message a [failure], [error] or [skipped] child stands for: its
    kind, its [message] attribute and its text. *)
Definition status_message (child : Etree.node) : option TestMsg.t :=
  match Etree.tag child with
  | Some tag =>
      match test_msg_tag_map tag with
      | Some type =>
          Some (TestMsg.init type (Etree.get child "message") (Etree.text child))
      | None => None
      end
  | None => None
  end.

(** Follows the specification's wording, "up to one child element
    representing failure/error/skipped status (first such child only)":
    the message of the first child that is such an element. *)
Definition first_status_message (test_case_node : Etree.node) : option TestMsg.t :=
  match find is_status (Etree.children test_case_node) with
  | Some child => status_message child
  | None => None
  end.

(** ** Sample reports and runs *)

Module Sample.

Definition junit_case (classname name file time : string) (children : list Etree.node)
  : Etree.node :=
  Etree.Element "testcase"
    [("classname", classname); ("name", name); ("file", file); ("time", time)]
    None children.

Definition gtest_case (name time : string) (children : list Etree.node) : Etree.node :=
  Etree.Element "testcase" [("name", name); ("time", time)] None children.

Definition junit_args : Namespace :=
  {| report_type := junit; search_folder := "reports"; report_pattern := "xml";
     output := "out.xml"; gtest_src_folder := None; gtest_src_pattern := None |}.

Definition gtest_args : Namespace :=
  {| report_type := gtest; search_folder := "reports"; report_pattern := "xml";
     output := "out.xml"; gtest_src_folder := Some "src"; gtest_src_pattern := Some "cpp" |}.

Definition not_xml : result Etree.node :=
  Raise (XMLSyntaxError "Document is empty, line 1, column 1").

(** One valid JUnit report next to a file that is not XML. *)
Definition valid_junit : Etree.node :=
  Etree.Element "testsuite" [("name", "suite")] None
    [junit_case "Foo" "t1" "foo.cpp" "0.125" []].

Definition malformed_and_valid_junit : world :=
  Example.flat_world [("reports", ["bad.xml"; "good.xml"])]
    [("reports/bad.xml", not_xml); ("reports/good.xml", Ok valid_junit)] [].

(** The same for Google Test, with the source file that declares the test. *)
Definition valid_gtest : Etree.node :=
  Etree.Element "testsuites" [] None
    [Etree.Element "testsuite" [("name", "Foo")] None [gtest_case "t1" "0.002" []]].

Definition foo_test_lines : list string :=
  [String.append "#include <gtest/gtest.h>" (String Re.newline "");
   String.append "TEST(Foo, t1) {" (String Re.newline "");
   String.append "}" (String Re.newline "");
   String.append "TEST(Foo, t2) {" (String Re.newline "");
   String.append "}" (String Re.newline "")].

Definition malformed_and_valid_gtest : world :=
  Example.flat_world [("reports", ["bad.xml"; "good.xml"]); ("src", ["foo_test.cpp"])]
    [("reports/bad.xml", not_xml); ("reports/good.xml", Ok valid_gtest)]
    [("src/foo_test.cpp", foo_test_lines)].

(** A Google Test report with a failed test case. *)
Definition gtest_with_failure : Etree.node :=
  Etree.Element "testsuites" [] None
    [Etree.Element "testsuite" [("name", "Foo")] None
       [gtest_case "t1" "0.002"
          [Etree.Element "failure" [("message", "boom")] (Some "trace") []]]].

Definition failed_test_case : world :=
  Example.flat_world [("reports", ["r.xml"]); ("src", ["foo_test.cpp"])]
    [("reports/r.xml", Ok gtest_with_failure)]
    [("src/foo_test.cpp", foo_test_lines)].

(** A Google Test report whose second test case has a [time] that is not a
    number, and a JUnit report whose second test case has no [time]. *)
Definition gtest_bad_second_time : Etree.node :=
  Etree.Element "testsuites" [] None
    [Etree.Element "testsuite" [("name", "Foo")] None
       [gtest_case "t1" "0.002" []; gtest_case "t2" "abc" []]].

Definition gtest_failing_midway : world :=
  Example.flat_world [("reports", ["r.xml"]); ("src", ["foo_test.cpp"])]
    [("reports/r.xml", Ok gtest_bad_second_time)]
    [("src/foo_test.cpp", foo_test_lines)].

Definition junit_no_second_time : Etree.node :=
  Etree.Element "testsuite" [("name", "suite")] None
    [junit_case "Foo" "t1" "foo.cpp" "0.125" [];
     Etree.Element "testcase" [("classname", "Bar"); ("name", "t2"); ("file", "bar.cpp")]
       None []].

Definition junit_failing_midway : world :=
  Example.flat_world [("reports", ["r.xml"])]
    [("reports/r.xml", Ok junit_no_second_time)] [].

Definition junit_1_001 : world :=
  Example.flat_world [("reports", ["r.xml"])]
    [("reports/r.xml",
      Ok (Etree.Element "testsuite" [("name", "suite")] None
            [junit_case "Foo" "t1" "foo.cpp" "1.001" []]))] [].

(** Two Google Test reports whose test cases come from one source file,
    with [Foo.t1] in both; and a report with a test case, [Foo.t9], that
    no source file declares. *)
Definition a_cpp_lines : list string :=
  [String.append "TEST(Foo, t1) {}" (String Re.newline "");
   String.append "TEST(Foo, t2) {}" (String Re.newline "")].

Definition a_cpp_index : dict string string :=
  [("Foo.t1", "src/a.cpp"); ("Foo.t2", "src/a.cpp")].

Definition first_report : Etree.node :=
  Etree.Element "testsuites" [] None
    [Etree.Element "testsuite" [("name", "Foo")] None
       [gtest_case "t1" "0.002" []; gtest_case "t2" "0.004" []]].

Definition second_report : Etree.node :=
  Etree.Element "testsuites" [] None
    [Etree.Element "testsuite" [("name", "Foo")] None [gtest_case "t1" "0.003" []]].

Definition two_reports_one_source : world :=
  Example.flat_world [("reports", ["r1.xml"; "r2.xml"]); ("src", ["a.cpp"])]
    [("reports/r1.xml", Ok first_report); ("reports/r2.xml", Ok second_report)]
    [("src/a.cpp", a_cpp_lines)].

Definition report_with_unknown : Etree.node :=
  Etree.Element "testsuites" [] None
    [Etree.Element "testsuite" [("name", "Foo")] None
       [gtest_case "t1" "0.002" []; gtest_case "t9" "0.005" []; gtest_case "t2" "0.004" []]].

Definition unknown_test_case : world :=
  Example.flat_world [("reports", ["r.xml"]); ("src", ["a.cpp"])]
    [("reports/r.xml", Ok report_with_unknown)]
    [("src/a.cpp", a_cpp_lines)].

(** Two source files that both declare [Foo.t1], with blanks around the
    names; the walk lists [a.cpp] before [b.cpp]. *)
Definition spaced_a_lines : list string :=
  [String.append "TEST( Foo ,  t1 ) {}" (String Re.newline "");
   String.append "int helper();" (String Re.newline "");
   String.append "TEST(Foo, only_a) {}" (String Re.newline "")].

Definition spaced_b_lines : list string :=
  [String.append "TEST(Foo,t1) {}" (String Re.newline "")].

Definition same_key_twice : world :=
  Example.flat_world [("src", ["a.cpp"; "notes.txt"; "b.cpp"])] []
    [("src/a.cpp", spaced_a_lines); ("src/b.cpp", spaced_b_lines)].

(** A JUnit report whose test cases name [b.cpp], [a.cpp], [b.cpp] and no
    file, in that order. *)
Definition cases_in_turn : list Etree.node :=
  [junit_case "B" "t1" "b.cpp" "0.001" [];
   junit_case "A" "t2" "a.cpp" "0.002" [];
   junit_case "B" "t3" "b.cpp" "0.003" [];
   Etree.Element "testcase" [("classname", "C"); ("name", "t4"); ("time", "0.004")] None []].

Definition junit_files_in_turn : world :=
  Example.flat_world [("reports", ["r.xml"])]
    [("reports/r.xml", Ok (Etree.Element "testsuite" [("name", "suite")] None cases_in_turn))]
    [].

(** A source tree in which [b.cpp] cannot be read. *)
Definition unreadable_source : world :=
  Example.flat_world [("reports", ["r.xml"]); ("src", ["a.cpp"; "b.cpp"; "c.cpp"])]
    [("reports/r.xml", Ok first_report)]
    [("src/a.cpp", a_cpp_lines); ("src/c.cpp", a_cpp_lines)].

(** A file name with the control character BEL (code 7) in it. *)
Definition bell_cpp : string := String "a" (String (ascii_of_nat 7) ".cpp").

(** A source tree in which [Foo.t2] is declared in the file of that name. *)
Definition source_with_bell : world :=
  Example.flat_world [("reports", ["r.xml"]); ("src", ["a.cpp"; bell_cpp])]
    [("reports/r.xml", Ok first_report)]
    [("src/a.cpp", [String.append "TEST(Foo, t1) {}" (String Re.newline "")]);
     (String.append "src/" bell_cpp,
      [String.append "TEST(Foo, t2) {}" (String Re.newline "")])].

(** The tree of [two_reports_one_source] with a pattern compiler that
    refuses every pattern. *)
Definition pattern_refused : world :=
  {| os_walk := os_walk two_reports_one_source;
     etree_parse := etree_parse two_reports_one_source;
     read_lines := read_lines two_reports_one_source;
     open_write := open_write two_reports_one_source;
     re_compile := fun _ => Raise (ReError "missing ), unterminated subpattern");
     parse_well_formed := parse_well_formed two_reports_one_source |}.

End Sample.

(** ** Kinds of events *)

(** Parsing a report and printing, as opposed to walking a directory or
    opening, reading and writing files. *)
Definition quiet (e : event) : Prop :=
  match e with
  | ParseXml _ | Print _ => True
  | _ => False
  end.

(** ** Durations *)

(** The rational number a float stands for (0 for the infinities and NaN,
    which [int] rejects). *)
Definition float_value (x : spec_float) : Q :=
  match x with
  | S754_finite s m e =>
      let n := if s then Zneg m else Zpos m in
      match e with
      | Zneg k => Qmake n (2 ^ k)%positive
      | _ => inject_Z (n * 2 ^ e)%Z
      end
  | _ => 0%Q
  end.

Definition is_finite (x : spec_float) : bool :=
  match x with
  | S754_finite _ _ _ | S754_zero _ => true
  | _ => false
  end.

(** Rounding toward zero: the floor of a number that is not negative, the
    ceiling of a negative one. *)
Definition Qtrunc (q : Q) : Z :=
  if (Qnum q <? 0)%Z then Qceiling q else Qfloor q.

(** [text] is the duration computed from the attribute value [time]: the
    binary64 product of [float(time)] and 1000, rounded toward zero and
    written in decimal. *)
Definition millis_text (time : optstr) (text : string) : Prop :=
  exists x,
    Py.float time = Ok x /\
    is_finite (float_mul_int x 1000) = true /\
    text = str_of_int (Qtrunc (float_value (float_mul_int x 1000))).

(** The test case object [doParse] builds for a [testcase] element whose
    [time] converts. *)
Definition junit_entry (testCase : Etree.node) : TestCase.t :=
  JUnitTestReportParser.test_case testCase
    match duration_of testCase with
    | Ok duration => duration
    | Raise _ => ""
    end.

Definition has_file (file : optstr) (testCase : Etree.node) : bool :=
  if eq_dec (Etree.get testCase "file") file then true else false.

(** How an entry [e] of the result relates to the [testcase] element it
    comes from. *)
Definition entry_of (testCase : Etree.node) (e : TestCase.t) : Prop :=
  TestCase.name e
  = format_dotted (Etree.get testCase "classname") (Etree.get testCase "name") /\
  millis_text (Etree.get testCase "time") (TestCase.duration e) /\
  TestCase.msg e = JUnitTestReportParser.doParseMsg testCase /\
  ((forall child, In child (Etree.children testCase) -> is_status child = false) ->
   SonarTestExcutionsXmlSerializer.test_case_tag e
   = Etree.Element "testCase"
       [("name", TestCase.name e); ("duration", TestCase.duration e)] None []).

(** ** Google Test reports against the source index *)

Definition indexed (index : dict string string) (test_suite_name : optstr)
    (testCase : Etree.node) : bool :=
  Dict.contains index (GoogleTestReportParser.test_name test_suite_name testCase).

(** A suite without the test cases whose qualified name the index lacks,
    and a report without them in any suite. *)
Definition drop_unindexed (index : dict string string) (testSuite : Etree.node) : Etree.node :=
  match testSuite with
  | Etree.Element tag attrs txt cs =>
      Etree.Element tag attrs txt
        (filter (fun c => negb (Etree.has_tag "testcase" c)
                          || indexed index (Etree.assoc attrs "name") c) cs)
  | other => other
  end.

Definition prune (index : dict string string) (root : Etree.node) : Etree.node :=
  match root with
  | Etree.Element tag attrs txt cs => Etree.Element tag attrs txt (map (drop_unindexed index) cs)
  | other => other
  end.

(** The suites of a report, and the qualified names of its test cases that
    the index lacks, in document order. *)
Definition suites (root : Etree.node) : list Etree.node :=
  Etree.xpath_root "testsuites" "testsuite" root.

Definition unindexed_names (index : dict string string) (root : Etree.node) : list string :=
  flat_map (fun testSuite =>
              map (GoogleTestReportParser.test_name (Etree.get testSuite "name"))
                (filter (fun tc => negb (indexed index (Etree.get testSuite "name") tc))
                   (Etree.xpath_children "testcase" testSuite)))
    (suites root).

(** Every test case of the report that the index knows has a [time] that
    converts. *)
Definition times_convert (index : dict string string) (root : Etree.node) : Prop :=
  forall testSuite testCase,
    In testSuite (suites root) ->
    In testCase (Etree.xpath_children "testcase" testSuite) ->
    indexed index (Etree.get testSuite "name") testCase = true ->
    exists duration, duration_of testCase = Ok duration.

(** Every test case of every group is one the index maps to the group's
    key. *)
Definition from_index (index : dict string string) (d : executions) : Prop :=
  forall key g e,
    In (key, g) d -> In e (SonarTestExcution.test_cases g) ->
    exists file, Dict.get index (TestCase.name e) = Some file /\ key = Some file.

(** Two outcomes of a statement sequence that differ at most in events. *)
Definition same_end {S A : Type} (o1 o2 : list event * S * completion A) : Prop :=
  snd (fst o1) = snd (fst o2) /\ snd o1 = snd o2.

(** ** Merging the reports of a run *)

(** The dictionary [doParse] returns for the Google Test report at [path]. *)
Definition gtest_parsed (w : world) (index : dict string string) (path : string) : executions :=
  match run (GoogleTestReportParser.doParse w path index) with
  | (_, Done d) => d
  | _ => []
  end.

(** The files under [folder] whose name matches, in the order the walk
    meets them. *)
Definition matching_paths (w : world) (regexp : string -> bool) (folder : string) : list string :=
  flat_map (fun entry : string * list string * list string =>
              let '(dirName, _, fileList) := entry in
              map (OsPath.join dirName) (filter regexp fileList))
    (os_walk w folder).

(** The test cases of a group as an item of [executionDict.items()]. *)
Definition item_cases (item : optstr * SonarTestExcution.t) : list TestCase.t :=
  SonarTestExcution.test_cases (snd item).

(** [acc] after the reports at [paths] have been parsed and merged in. *)
Definition merge_reports (w : world) (index : dict string string) (paths : list string)
    (acc : executions) : executions :=
  fold_left (fun acc path => fold_extend fst item_cases (gtest_parsed w index path) acc)
    paths acc.

(** All test cases that the output holds under the file path [key]. *)
Definition cases_under (groups : list SonarTestExcution.t) (key : optstr) : list TestCase.t :=
  flat_map SonarTestExcution.test_cases
    (filter (fun g => if eq_dec (SonarTestExcution.file_path g) key then true else false)
       groups).

(** ** The source index *)

(** What a source line adds to the index when it belongs to [file_path]. *)
Definition line_hits (file_path : string) (lines : list string) : list (string * string) :=
  flat_map (fun line =>
              match GoogleTestReportParser.line_key line with
              | Some key => [(key, file_path)]
              | None => []
              end) lines.

Definition file_lines (w : world) (path : string) : list string :=
  match read_lines w path with
  | Ok lines => lines
  | Raise _ => []
  end.

(** The pairs of key and file path that the scan meets, in scanning order:
    file after file as the walk lists them, line after line. *)
Definition source_hits (w : world) (regexp : string -> bool) (folder : string)
  : list (string * string) :=
  flat_map (fun path => line_hits path (file_lines w path)) (matching_paths w regexp folder).

(** The path of the last pair with [key], if there is one. *)
Definition last_hit (key : string) (hits : list (string * string)) : option string :=
  option_map snd (find (fun h => String.eqb (fst h) key) (rev hits)).

(** The index after the pairs [hits] have been assigned in order. *)
Definition record_hits (hits : list (string * string)) (d : dict string string)
  : dict string string :=
  fold_left (fun acc h => Dict.set acc (fst h) (snd h)) hits d.

(** [t] is [g] without its leading and trailing whitespace. *)
Definition all_space (s : string) : Prop :=
  forall c, In c (list_ascii_of_string s) -> isspace c = true.

Definition first_char (s : string) : option ascii :=
  match s with
  | String c _ => Some c
  | EmptyString => None
  end.

Fixpoint last_char (s : string) : option ascii :=
  match s with
  | EmptyString => None
  | String c EmptyString => Some c
  | String _ s' => last_char s'
  end.

Definition stripped_of (g t : string) : Prop :=
  (exists l r : string, g = (l ++ t ++ r)%string /\ all_space l /\ all_space r) /\
  (forall c, first_char t = Some c -> isspace c = false) /\
  (forall c, last_char t = Some c -> isspace c = false).

(** The number of groups a pattern closes. *)
Fixpoint closes (re : Re.regex) : nat :=
  match re with
  | [] => 0
  | Re.GroupClose :: re' => S (closes re')
  | _ :: re' => closes re'
  end.

(** ** The output document *)

(** The [file] element of a group whose path is a string, and the document
    of a list of such groups. *)
Definition file_element (g : SonarTestExcution.t) : Etree.node :=
  Etree.Element "file"
    [("path", match SonarTestExcution.file_path g with Some path => path | None => "" end)]
    None
    (map SonarTestExcutionsXmlSerializer.test_case_tag (SonarTestExcution.test_cases g)).

Definition document (groups : list SonarTestExcution.t) : Etree.node :=
  Etree.Element "testExecutions" [("version", "1")] None (map file_element groups).

Definition none_refused : exn :=
  TypeError "Argument must be bytes or unicode, got 'NoneType'".

Definition xml_refused : exn := SonarTestExcutionsXmlSerializer.xml_refused.

(** A test case whose [testCase] element lxml builds, a group whose [file]
    element it builds, and dictionaries of such test cases and of keys
    that it takes as a path ([None] apart). *)
Definition accepted_case (e : TestCase.t) : bool :=
  Etree.well_formed (SonarTestExcutionsXmlSerializer.test_case_tag e).

Definition accepted (g : SonarTestExcution.t) : bool :=
  match SonarTestExcution.file_path g with
  | Some _ => Etree.well_formed (file_element g)
  | None => false
  end.

Definition accepted_cases (d : executions) : Prop :=
  forall key g e,
    In (key, g) d -> In e (SonarTestExcution.test_cases g) -> accepted_case e = true.

Definition accepted_keys (d : executions) : Prop :=
  forall key, In key (Dict.keys d) -> Etree.xml_compatible_opt key = true.

(** The distinct members of a list of keys, each where it occurs first. *)
Fixpoint distinct (l : list optstr) : list optstr :=
  match l with
  | [] => []
  | k :: l' => k :: filter (fun k' => if eq_dec k' k then false else true) (distinct l')
  end.

Definition absent (keys : list optstr) (k : optstr) : bool :=
  if in_dec eq_dec k keys then false else true.


(** ** Test cases of a Google Test report *)

(** Every key is a path that the index gives for some test name. *)
Definition indexed_paths (index : dict string string) (d : executions) : Prop :=
  forall key, In key (Dict.keys d) ->
    exists name file, key = Some file /\ Dict.get index name = Some file.

(** The test cases of a report, each with the name of its suite, in
    document order. *)
Definition gtest_cases (root : Etree.node) : list (optstr * Etree.node) :=
  flat_map (fun testSuite =>
              map (pair (Etree.get testSuite "name"))
                (Etree.xpath_children "testcase" testSuite))
    (suites root).

(** The path the index gives for a test case: [None] when it has none. *)
Definition gtest_file (index : dict string string) (c : optstr * Etree.node) : optstr :=
  Dict.get index (GoogleTestReportParser.test_name (fst c) (snd c)).

Definition gtest_known (index : dict string string) (c : optstr * Etree.node) : bool :=
  indexed index (fst c) (snd c).

(** The test case object built for a test case whose [time] converts. *)
Definition gtest_entry (c : optstr * Etree.node) : TestCase.t :=
  TestCase.init (GoogleTestReportParser.test_name (fst c) (snd c))
    match duration_of (snd c) with
    | Ok duration => duration
    | Raise _ => ""
    end
    (JUnitTestReportParser.doParseMsg (snd c)).

(** How an entry of the result relates to the test case it comes from. *)
Definition gtest_entry_of (c : optstr * Etree.node) (e : TestCase.t) : Prop :=
  TestCase.name e = format_dotted (fst c) (Etree.get (snd c) "name") /\
  millis_text (Etree.get (snd c) "time") (TestCase.duration e) /\
  TestCase.msg e = JUnitTestReportParser.doParseMsg (snd c).

Definition has_path (index : dict string string) (file : string)
    (c : optstr * Etree.node) : bool :=
  if eq_dec (gtest_file index c) (Some file) then true else false.

(** ** Reading one source file *)

(** What the scan does with a source file whose name matched: the body of
    the [with open(file_path, 'r')] statement. *)
Definition scan_path (w : world) (file_path : string) : prog (dict string string) unit :=
  lines <- call (OpenRead file_path) (read_lines w file_path) ;;
  for_each lines (GoogleTestReportParser.scan_line file_path).

(** ** The shape of a line that declares a test *)

(** No newline in [s]. *)
Fixpoint one_line (s : string) : bool :=
  match s with
  | EmptyString => true
  | String c s' => negb (Ascii.eqb c Re.newline) && one_line s'
  end.

(** [line] holds [TEST], later an opening parenthesis, a first argument, a
    comma, a second argument and a closing parenthesis, without a newline
    from [TEST] to the closing parenthesis and with both arguments
    non-empty. *)
Definition declares (line pre mid g1 g2 post : string) : Prop :=
  line = (pre ++ "TEST" ++ mid ++ "(" ++ g1 ++ "," ++ g2 ++ ")" ++ post)%string /\
  one_line mid = true /\ one_line g1 = true /\ one_line g2 = true /\
  g1 <> EmptyString /\ g2 <> EmptyString.

(** No closing parenthesis in [s] before its first newline. *)
Fixpoint no_close_on_line (s : string) : bool :=
  match s with
  | EmptyString => true
  | String c s' =>
      if Ascii.eqb c Re.newline then true
      else if Ascii.eqb c ")" then false
      else no_close_on_line s'
  end.

(** The file at [path] has a line in which [GTEST_RE] finds the two
    arguments that make [key]. *)
Definition declares_key (w : world) (path key : string) : Prop :=
  exists line g1 g2,
    In line (file_lines w path) /\
    Re.search GTEST_RE line = Some [g1; g2] /\
    key = (strip g1 ++ "." ++ strip g2)%string.

(** Whether a pattern matches a prefix of [s], captures left aside. *)
Fixpoint accepts (re : Re.regex) (s : string) : Prop :=
  match re with
  | [] => True
  | Re.One a :: re' =>
      exists c s', s = String c s' /\ Re.atom_matches a c = true /\ accepts re' s'
  | Re.Star a :: re' =>
      exists k, k <= Re.run_length a s /\ accepts re' (Re.skip k s)
  | Re.Plus a :: re' =>
      exists k, 1 <= k /\ k <= Re.run_length a s /\ accepts re' (Re.skip k s)
  | Re.GroupOpen :: re' => accepts re' s
  | Re.GroupClose :: re' => accepts re' s
  end.

(** Every group that a pattern closes has been opened, given [depth]
    groups open at the start. *)
Fixpoint nested (re : Re.regex) (depth : nat) : bool :=
  match re with
  | [] => true
  | Re.GroupOpen :: re' => nested re' (S depth)
  | Re.GroupClose :: re' =>
      match depth with
      | 0 => false
      | S depth' => nested re' depth'
      end
  | _ :: re' => nested re' depth
  end.

(* ===================================================================== *)
(** * Properties *)
(* ===================================================================== *)

(** ** Dictionaries *)

Section DictFacts.
Context {K V : Type} `{EqDec K}.

Lemma get_set (d : dict K V) k v k' :
  Dict.get (Dict.set d k v) k' = if eq_dec k k' then Some v else Dict.get d k'.
Proof.
  induction d as [|[k0 v0] d IH]; simpl.
  - destruct (eq_dec k k'); reflexivity.
  - destruct (eq_dec k0 k) as [->|Hne]; simpl.
    + destruct (eq_dec k k'); reflexivity.
    + destruct (eq_dec k0 k') as [->|Hne'].
      * destruct (eq_dec k k'); [congruence|reflexivity].
      * exact IH.
Qed.

Lemma get_update (d : dict K V) k f k' :
  Dict.get (Dict.update d k f) k' =
  if eq_dec k k' then option_map f (Dict.get d k) else Dict.get d k'.
Proof.
  induction d as [|[k0 v0] d IH]; simpl.
  - destruct (eq_dec k k'); reflexivity.
  - destruct (eq_dec k0 k) as [->|Hne]; simpl.
    + destruct (eq_dec k k'); reflexivity.
    + destruct (eq_dec k0 k') as [->|Hne'].
      * destruct (eq_dec k k'); [congruence|reflexivity].
      * exact IH.
Qed.

Lemma get_In (d : dict K V) k v : Dict.get d k = Some v -> In (k, v) d.
Proof.
  induction d as [|[k0 v0] d IH]; simpl; [discriminate|].
  destruct (eq_dec k0 k) as [->|Hne]; intros E.
  - left. congruence.
  - right. auto.
Qed.

Lemma get_None_keys (d : dict K V) k : Dict.get d k = None <-> ~ In k (Dict.keys d).
Proof.
  induction d as [|[k0 v0] d IH]; simpl.
  - tauto.
  - destruct (eq_dec k0 k) as [->|Hne].
    + split; [discriminate|tauto].
    + rewrite IH. tauto.
Qed.

Lemma keys_update (d : dict K V) k f : Dict.keys (Dict.update d k f) = Dict.keys d.
Proof.
  induction d as [|[k0 v0] d IH]; simpl; [reflexivity|].
  destruct (eq_dec k0 k); simpl; [reflexivity|]. f_equal. exact IH.
Qed.

Lemma keys_set (d : dict K V) k v :
  Dict.keys (Dict.set d k v) =
  if Dict.contains d k then Dict.keys d else Dict.keys d ++ [k].
Proof.
  unfold Dict.contains.
  induction d as [|[k0 v0] d IH]; simpl; [reflexivity|].
  destruct (eq_dec k0 k) as [->|Hne]; simpl; [reflexivity|].
  rewrite IH. destruct (Dict.get d k); reflexivity.
Qed.

Lemma NoDup_keys_set (d : dict K V) k v :
  NoDup (Dict.keys d) -> NoDup (Dict.keys (Dict.set d k v)).
Proof.
  intros Hnd. rewrite keys_set. unfold Dict.contains.
  destruct (Dict.get d k) eqn:E; [exact Hnd|].
  apply get_None_keys in E.
  apply NoDup_rev in Hnd. rewrite <- (rev_involutive (_ ++ _)).
  apply NoDup_rev. rewrite rev_app_distr. simpl. constructor; [|exact Hnd].
  rewrite <- in_rev. exact E.
Qed.

End DictFacts.

(** ** Groups *)

Lemma In_update {K V : Type} `{EqDec K} (d : dict K V) key f k v :
  In (k, v) (Dict.update d key f) ->
  exists v0, In (k, v0) d /\ (v = v0 \/ (k = key /\ v = f v0)).
Proof.
  induction d as [|[k0 v0] d IH]; simpl; [tauto|].
  destruct (eq_dec k0 key) as [->|Hne]; simpl.
  - intros [E|Hin].
    + inversion E; subst. exists v0. auto.
    + exists v. auto.
  - intros [E|Hin].
    + inversion E; subst. exists v. auto.
    + destruct (IH Hin) as [v1 [Hin1 Hv]]. exists v1. auto.
Qed.

Lemma In_set {K V : Type} `{EqDec K} (d : dict K V) key v0 k v :
  In (k, v) (Dict.set d key v0) -> In (k, v) d \/ (k = key /\ v = v0).
Proof.
  induction d as [|[k1 v1] d IH]; simpl.
  - intros [E|[]]. inversion E. auto.
  - destruct (eq_dec k1 key) as [->|Hne]; simpl.
    + intros [E|Hin]; [inversion E; auto|auto].
    + intros [E|Hin]; [auto|]. destruct (IH Hin); auto.
Qed.

Lemma get_ensure key d k :
  Dict.get (ensure key d) k =
  match Dict.get d k with
  | Some g => Some g
  | None => if eq_dec key k then Some (SonarTestExcution.init key) else None
  end.
Proof.
  unfold ensure, Dict.contains.
  destruct (Dict.get d key) eqn:E.
  - destruct (Dict.get d k) eqn:E'; [reflexivity|].
    destruct (eq_dec key k); [congruence|reflexivity].
  - rewrite get_set.
    destruct (eq_dec key k) as [->|Hne].
    + rewrite E. reflexivity.
    + destruct (Dict.get d k); reflexivity.
Qed.

Lemma cases_at_ensure key d k : cases_at (ensure key d) k = cases_at d k.
Proof.
  unfold cases_at. rewrite get_ensure.
  destruct (Dict.get d k); [reflexivity|].
  destruct (eq_dec key k); reflexivity.
Qed.

Lemma cases_at_extend key tcs d k :
  cases_at (extend key tcs d) k =
  cases_at d k ++ (if eq_dec key k then tcs else []).
Proof.
  unfold extend, cases_at at 1. rewrite get_update.
 
  destruct (eq_dec key k) as [->|Hne].
  - rewrite get_ensure. unfold cases_at.
    destruct (Dict.get d k); simpl; [reflexivity|].
    destruct (eq_dec k k); [reflexivity|congruence].
  - fold (cases_at (ensure key d) k). rewrite cases_at_ensure, app_nil_r. reflexivity.
Qed.

Lemma keys_ensure key d :
  Dict.keys (ensure key d) =
  if Dict.contains d key then Dict.keys d else Dict.keys d ++ [key].
Proof.
  unfold ensure. destruct (Dict.contains d key) eqn:E; [reflexivity|].
  rewrite keys_set, E. reflexivity.
Qed.

Lemma NoDup_keys_ensure key d : NoDup (Dict.keys d) -> NoDup (Dict.keys (ensure key d)).
Proof.
  intros Hnd. unfold ensure. destruct (Dict.contains d key); [exact Hnd|].
  apply NoDup_keys_set. exact Hnd.
Qed.

Lemma NoDup_keys_extend key tcs d :
  NoDup (Dict.keys d) -> NoDup (Dict.keys (extend key tcs d)).
Proof.
  intros Hnd. unfold extend. rewrite keys_update. apply NoDup_keys_ensure. exact Hnd.
Qed.

Lemma keyed_ensure key d : keyed d -> keyed (ensure key d).
Proof.
  intros Hk k g Hin. unfold ensure in Hin.
  destruct (Dict.contains d key); [exact (Hk k g Hin)|].
  apply In_set in Hin. destruct Hin as [Hin|[-> ->]]; [exact (Hk k g Hin)|reflexivity].
Qed.

Lemma keyed_extend key tcs d : keyed d -> keyed (extend key tcs d).
Proof.
  intros Hk k g Hin. unfold extend in Hin.
  apply In_update in Hin. destruct Hin as [g0 [Hin Hg]].
  pose proof (keyed_ensure key d Hk k g0 Hin) as Hp.
  destruct Hg as [->|[-> ->]]; exact Hp.
Qed.

Lemma keyed_nil : keyed [].
Proof. intros k g []. Qed.

Lemma In_ensure key d k g :
  In (k, g) (ensure key d) -> In (k, g) d \/ (k = key /\ g = SonarTestExcution.init key).
Proof.
  unfold ensure. destruct (Dict.contains d key); [auto|]. apply In_set.
Qed.

Lemma In_extend key tcs d k g e :
  In (k, g) (extend key tcs d) -> In e (SonarTestExcution.test_cases g) ->
  (exists g0, In (k, g0) d /\ In e (SonarTestExcution.test_cases g0)) \/
  (k = key /\ In e tcs).
Proof.
  unfold extend. intros Hin He. apply In_update in Hin.
  destruct Hin as [g0 [Hin Hg]]. apply In_ensure in Hin.
  destruct Hg as [->|[-> ->]].
  - destruct Hin as [Hin|[-> ->]]; [left; eauto|]. simpl in He. contradiction.
  - simpl in He. apply in_app_or in He. destruct He as [He|He]; [|right; auto].
    destruct Hin as [Hin|[_ ->]]; [left; eauto|]. simpl in He. contradiction.
Qed.

(** ** Statement sequences *)

Lemma ensure_group_run key d : ensure_group key d = ([], ensure key d, Done tt).
Proof.
  unfold ensure_group, ensure, bind, get_state, modify, ret.
  destruct (Dict.contains d key); reflexivity.
Qed.

Lemma merge_item_run key value d :
  merge_item (key, value) d =
  ([], extend key (SonarTestExcution.test_cases value) d, Done tt).
Proof.
  unfold merge_item, bind. rewrite ensure_group_run. reflexivity.
Qed.

Lemma for_each_app {S X : Type} (xs ys : list X) (body : X -> prog S unit) s :
  for_each (xs ++ ys) body s =
  match for_each xs body s with
  | (ev, s', Done _) => let '(ev', s'', c) := for_each ys body s' in (ev ++ ev', s'', c)
  | ended => ended
  end.
Proof.
  revert s. induction xs as [|x xs IH]; intros s; simpl.
  - unfold ret. destruct (for_each ys body s) as [[ev s'] c]. reflexivity.
  - unfold bind. destruct (body x s) as [[ev s'] [[]|e|code]]; try reflexivity.
    rewrite IH. destruct (for_each xs body s') as [[ev1 s1] [[]|e1|code1]]; try reflexivity.
    destruct (for_each ys body s1) as [[ev2 s2] c2]. rewrite app_assoc. reflexivity.
Qed.

(** A loop whose turns all end normally without events folds its state. *)
Lemma for_each_pure {S X : Type} (xs : list X) (body : X -> prog S unit) (f : X -> S -> S) :
  (forall x s, In x xs -> body x s = ([], f x s, Done tt)) ->
  forall s, for_each xs body s = ([], fold_left (fun acc x => f x acc) xs s, Done tt).
Proof.
  induction xs as [|x xs IH]; intros Hb s; simpl; [reflexivity|].
  unfold bind. rewrite Hb by (left; reflexivity).
  rewrite IH by (intros; apply Hb; right; assumption). reflexivity.
Qed.

(** An invariant of the state that every turn keeps, however it ends, holds
    when the loop is left. *)
Lemma for_each_invariant {S X : Type} (P : S -> Prop) (xs : list X) (body : X -> prog S unit) :
  (forall x s, In x xs -> P s -> P (snd (fst (body x s)))) ->
  forall s, P s -> P (snd (fst (for_each xs body s))).
Proof.
  induction xs as [|x xs IH]; intros Hb s Hs; simpl; [exact Hs|].
  unfold bind. pose proof (Hb x s (or_introl eq_refl) Hs) as Hx.
  destruct (body x s) as [[ev s'] [[]|e|code]]; simpl in *; try exact Hx.
  assert (IH' := IH (fun y t Hy => Hb y t (or_intror Hy)) s' Hx).
  destruct (for_each xs body s') as [[ev' s''] c]. exact IH'.
Qed.

(** ** The command line *)

(** C9. A [gtest] run that lacks [--gtest_src_folder] or
    [--gtest_src_pattern] prints one message and stops with exit status 1.
    The message is the only event of the run: no directory is walked, no
    file is read or parsed, and the output file is neither opened nor
    written. *)
Theorem gtest_without_source_options_exits (w : world) (args : Namespace) :
  report_type args = gtest ->
  gtest_src_folder args = None \/ gtest_src_pattern args = None ->
  run (main w args) = ([Print gtest_options_required], Exited 1) /\
  exit_status (snd (run (main w args))) <> 0%Z.
Proof.
  intros Ht Hmiss.
  assert (E : run (main w args) = ([Print gtest_options_required], Exited 1)).
  { unfold run, main. rewrite Ht.
    destruct Hmiss as [Hf|Hp].
    - rewrite Hf. reflexivity.
    - rewrite Hp. destruct (gtest_src_folder args); reflexivity. }
  split; [exact E|]. rewrite E. simpl. discriminate.
Qed.

Lemma gtest_without_source_options_exits_witness :
  run (main (Example.flat_world [("reports", ["r.xml"])] [] [])
         {| report_type := gtest; search_folder := "reports"; report_pattern := "xml";
            output := "out.xml"; gtest_src_folder := None;
            gtest_src_pattern := Some "cpp" |})
  = ([Print gtest_options_required], Exited 1).
Proof.
  apply (gtest_without_source_options_exits
           (Example.flat_world [("reports", ["r.xml"])] [] [])
           {| report_type := gtest; search_folder := "reports"; report_pattern := "xml";
              output := "out.xml"; gtest_src_folder := None;
              gtest_src_pattern := Some "cpp" |}).
  - reflexivity.
  - left. reflexivity.
Defined.

(** ** Messages *)

(** C1 (the code departs from it). A test case whose first child is
    [<failure message="X">Y</failure>] is serialized with a [failure]
    element whose text is [Y] but whose [message] attribute is the name of
    the outcome kind, ["TestMsgType.failure"], whatever [X] is: the
    [short_msg] property returns the kind instead of the stored short
    message. *)
Theorem failure_message_attribute_is_kind_name
    (X Y : string) (more attrs : list (string * string)) (txt : option string)
    (rest : list Etree.node) :
  let testCase :=
    Etree.Element "testcase" attrs txt
      (Etree.Element "failure" (("message", X) :: more) (Some Y) [] :: rest) in
  (exists m, JUnitTestReportParser.doParseMsg testCase = Some m /\
             TestMsg._short_msg m = X /\ TestMsg._long_msg m = Y) /\
  option_map SonarTestExcutionsXmlSerializer.msg_tag
    (JUnitTestReportParser.doParseMsg testCase)
  = Some (Etree.Element "failure" [("message", "TestMsgType.failure")] (Some Y) []).
Proof.
  simpl. split; [|reflexivity].
  eexists. split; [reflexivity|]. split; reflexivity.
Qed.

Lemma status_message_is_status child :
  is_status child = true <-> exists m, status_message child = Some m.
Proof.
  unfold is_status, status_message.
  destruct (Etree.tag child) as [t|]; [destruct (test_msg_tag_map t)|].
  - split; eauto.
  - split; [discriminate|intros [m Hm]; discriminate].
  - split; [discriminate|intros [m Hm]; discriminate].
Qed.

(** A whole run over a report with [<failure message="boom">trace</failure>]. *)
Example gtest_run_with_failure :
  run (main Sample.failed_test_case Sample.gtest_args)
  = ([Walk "src"; OpenRead "src/foo_test.cpp"; Walk "reports"; ParseXml "reports/r.xml";
      OpenWrite "out.xml";
      WriteDoc "out.xml"
        (Etree.Element "testExecutions" [("version", "1")] None
           [Etree.Element "file" [("path", "src/foo_test.cpp")] None
              [Etree.Element "testCase" [("name", "Foo.t1"); ("duration", "2")] None
                 [Etree.Element "failure" [("message", "TestMsgType.failure")]
                    (Some "trace") []]]])],
     Done tt).
Proof. vm_compute. reflexivity. Qed.

Lemma doParseMsg_head test_case_node first rest :
  Etree.children test_case_node = first :: rest ->
  JUnitTestReportParser.doParseMsg test_case_node = status_message first.
Proof.
  intros Hc. unfold JUnitTestReportParser.doParseMsg. rewrite Hc. reflexivity.
Qed.

Lemma status_message_none child : is_status child = false -> status_message child = None.
Proof.
  intros Hs. destruct (status_message child) eqn:E; [|reflexivity].
  assert (is_status child = true) by (apply status_message_is_status; eauto). congruence.
Qed.

Lemma doParseMsg_no_status test_case_node :
  (forall child, In child (Etree.children test_case_node) -> is_status child = false) ->
  JUnitTestReportParser.doParseMsg test_case_node = None.
Proof.
  intros Hall. destruct (Etree.children test_case_node) as [|first rest] eqn:Hc.
  - unfold JUnitTestReportParser.doParseMsg. rewrite Hc. reflexivity.
  - rewrite (doParseMsg_head _ first rest Hc). apply status_message_none.
    apply Hall. left. reflexivity.
Qed.

(** C7 as worded does not hold: with [<system-out/>] before [<failure>],
    the first failure/error/skipped child carries a message, yet none is
    extracted. *)
Lemma message_after_other_child_is_missed :
  let testCase :=
    Etree.Element "testcase" [("name", "t1"); ("time", "0.1")] None
      [Etree.Element "system-out" [] (Some "log") [];
       Etree.Element "failure" [("message", "boom")] (Some "trace") []] in
  first_status_message testCase = Some (TestMsg.init failure (Some "boom") (Some "trace")) /\
  JUnitTestReportParser.doParseMsg testCase = None /\
  JUnitTestReportParser.doParseMsg testCase <> first_status_message testCase.
Proof.
  simpl. split; [reflexivity|]. split; [reflexivity|]. discriminate.
Qed.

(** C7, amended. Only the first child of a test case is examined.  When it
    is a failure, error or skipped element, the one message extracted is
    that child's (the first such child; later children are ignored).  When
    it is anything else, or there is no child, no message is extracted;
    in particular none is when no child is such an element. *)
Theorem doParseMsg_first_child_only (test_case_node : Etree.node) :
  (forall first rest,
      Etree.children test_case_node = first :: rest ->
      is_status first = true ->
      JUnitTestReportParser.doParseMsg test_case_node = status_message first /\
      JUnitTestReportParser.doParseMsg test_case_node = first_status_message test_case_node /\
      exists m, JUnitTestReportParser.doParseMsg test_case_node = Some m) /\
  (forall first rest,
      Etree.children test_case_node = first :: rest ->
      is_status first = false ->
      JUnitTestReportParser.doParseMsg test_case_node = None) /\
  (Etree.children test_case_node = [] ->
      JUnitTestReportParser.doParseMsg test_case_node = None) /\
  ((forall child, In child (Etree.children test_case_node) -> is_status child = false) ->
      JUnitTestReportParser.doParseMsg test_case_node = None).
Proof.
  split; [|split; [|split]].
  - intros first rest Hc Hs. split; [|split].
    + apply (doParseMsg_head _ first rest Hc).
    + rewrite (doParseMsg_head _ first rest Hc). unfold first_status_message.
      rewrite Hc. simpl. rewrite Hs. reflexivity.
    + rewrite (doParseMsg_head _ first rest Hc). apply status_message_is_status. exact Hs.
  - intros first rest Hc Hs. rewrite (doParseMsg_head _ first rest Hc).
    apply status_message_none. exact Hs.
  - intros Hc. unfold JUnitTestReportParser.doParseMsg. rewrite Hc. reflexivity.
  - apply doParseMsg_no_status.
Qed.

Lemma doParseMsg_first_child_only_witness :
  JUnitTestReportParser.doParseMsg
    (Etree.Element "testcase" [] None
       [Etree.Element "error" [("message", "e1")] (Some "first") [];
        Etree.Element "failure" [("message", "f2")] (Some "second") []])
  = Some (TestMsg.init error (Some "e1") (Some "first")) /\
  JUnitTestReportParser.doParseMsg
    (Etree.Element "testcase" [] None
       [Etree.Comment (Some "note");
        Etree.Element "failure" [("message", "f2")] (Some "second") []])
  = None.
Proof.
  split.
  - apply (proj1 (doParseMsg_first_child_only
             (Etree.Element "testcase" [] None
                [Etree.Element "error" [("message", "e1")] (Some "first") [];
                 Etree.Element "failure" [("message", "f2")] (Some "second") []]))
             (Etree.Element "error" [("message", "e1")] (Some "first") [])
             [Etree.Element "failure" [("message", "f2")] (Some "second") []]
             eq_refl eq_refl).
  - apply (proj1 (proj2 (doParseMsg_first_child_only
             (Etree.Element "testcase" [] None
                [Etree.Comment (Some "note");
                 Etree.Element "failure" [("message", "f2")] (Some "second") []])))
             (Etree.Comment (Some "note"))
             [Etree.Element "failure" [("message", "f2")] (Some "second") []]
             eq_refl eq_refl).
Defined.

(** ** Reports with another root *)

Lemma filter_idem {A : Type} (p : A -> bool) (l : list A) :
  filter p (filter p l) = filter p l.
Proof.
  induction l as [|a l IH]; simpl; [reflexivity|].
  destruct (p a) eqn:E; simpl; [rewrite E, IH|]; auto.
Qed.

(** C10. The JUnit parser takes its test cases from the [testcase] children
    of a root element called [testsuite] and from nowhere else.  A report
    with any other root (a [testsuites] wrapper, say) parses to an empty
    dictionary, and the only event is the parse itself: no diagnostic is
    printed.  Under a [testsuite] root, whatever is not a [testcase] child
    of the root changes nothing. *)
Theorem junit_selects_testsuite_testcase_only (w : world) (report_file_path : string) :
  (forall root,
      etree_parse w report_file_path = Ok root ->
      Etree.has_tag "testsuite" root = false ->
      run (JUnitTestReportParser.doParse w report_file_path)
      = ([ParseXml report_file_path], Done [])) /\
  (forall w' attrs txt cs,
      etree_parse w report_file_path = Ok (Etree.Element "testsuite" attrs txt cs) ->
      etree_parse w' report_file_path
      = Ok (Etree.Element "testsuite" attrs txt (filter (Etree.has_tag "testcase") cs)) ->
      run (JUnitTestReportParser.doParse w report_file_path)
      = run (JUnitTestReportParser.doParse w' report_file_path)).
Proof.
  split.
  - intros root Hp Ht.
    unfold run, JUnitTestReportParser.doParse, returning, try_except, bind, call.
    rewrite Hp. simpl. unfold Etree.xpath_root. rewrite Ht. reflexivity.
  - intros w' attrs txt cs Hp Hp'.
    unfold run, JUnitTestReportParser.doParse, returning, try_except, bind, call.
    rewrite Hp, Hp'. unfold Etree.xpath_root, Etree.xpath_children. simpl.
    rewrite filter_idem. reflexivity.
Qed.

Lemma junit_selects_testsuite_testcase_only_witness :
  let wrapped :=
    Etree.Element "testsuites" [] None
      [Etree.Element "testsuite" [("name", "s")] None
         [Etree.Element "testcase"
            [("classname", "Foo"); ("name", "t1"); ("file", "foo.cpp"); ("time", "0.125")]
            None []]] in
  run (JUnitTestReportParser.doParse
         (Example.flat_world [("reports", ["r.xml"])] [("reports/r.xml", Ok wrapped)] [])
         "reports/r.xml")
  = ([ParseXml "reports/r.xml"], Done []).
Proof.
  intros wrapped.
  apply (proj1 (junit_selects_testsuite_testcase_only
                  (Example.flat_world [("reports", ["r.xml"])] [("reports/r.xml", Ok wrapped)] [])
                  "reports/r.xml") wrapped); reflexivity.
Defined.

(** ** Reports that fail to parse *)

(** C3 (the code departs from it). A report that raises while its test
    cases are read is announced as skipped, yet what was read before the
    exception stays.  In the Google Test run below the second test case has
    [time="abc"]: the diagnostic is printed and the first test case is
    written to the output all the same.  In the JUnit report the second
    test case has no [time]: [doParse] returns the first test case and an
    empty group for the file of the second. *)
Theorem failing_report_keeps_earlier_cases :
  run (main Sample.gtest_failing_midway Sample.gtest_args)
  = ([Walk "src"; OpenRead "src/foo_test.cpp"; Walk "reports"; ParseXml "reports/r.xml";
      Print (cant_parse "reports/r.xml"
               (ValueError "could not convert string to float: 'abc'"));
      OpenWrite "out.xml";
      WriteDoc "out.xml"
        (Etree.Element "testExecutions" [("version", "1")] None
           [Etree.Element "file" [("path", "src/foo_test.cpp")] None
              [Etree.Element "testCase" [("name", "Foo.t1"); ("duration", "2")] None []]])],
     Done tt) /\
  run (JUnitTestReportParser.doParse Sample.junit_failing_midway "reports/r.xml")
  = ([ParseXml "reports/r.xml";
      Print (cant_parse "reports/r.xml"
               (TypeError "float() argument must be a string or a real number, not 'NoneType'"))],
     Done [(Some "foo.cpp",
            {| SonarTestExcution._file_path := Some "foo.cpp";
               SonarTestExcution._test_cases := [TestCase.init "Foo.t1" "125" None] |});
           (Some "bar.cpp", SonarTestExcution.init (Some "bar.cpp"))]).
Proof. split; vm_compute; reflexivity. Qed.

(** A file that is not XML does contribute nothing: the parse fails before
    any test case is read. *)
Lemma unparsable_report_contributes_nothing {T : Type}
    (w : world) (path : string) (e : exn) (t : T) :
  etree_parse w path = Raise e ->
  JUnitTestReportParser.doParse w path t
  = ([ParseXml path; Print (cant_parse path e)], t, Done []) /\
  forall index, GoogleTestReportParser.doParse w path index t
  = ([ParseXml path; Print (cant_parse path e)], t, Done []).
Proof.
  intros Hp. split; [|intros index].
  - unfold JUnitTestReportParser.doParse, returning, try_except, bind, call.
    rewrite Hp. reflexivity.
  - unfold GoogleTestReportParser.doParse, returning, try_except, bind, call.
    rewrite Hp. reflexivity.
Qed.

(** ** The JUnit run *)

Lemma junit_step_run testCase d :
  JUnitTestReportParser.doParse_step testCase d =
  match duration_of testCase with
  | Ok duration =>
      ([], extend (Etree.get testCase "file")
             [JUnitTestReportParser.test_case testCase duration] d, Done tt)
  | Raise e => ([], ensure (Etree.get testCase "file") d, Raised e)
  end.
Proof.
  unfold JUnitTestReportParser.doParse_step, bind. rewrite ensure_group_run.
  unfold lift. destruct (duration_of testCase); reflexivity.
Qed.

Lemma junit_loop_shape testCases d :
  exists d' c,
    for_each testCases JUnitTestReportParser.doParse_step d = ([], d', c) /\
    (c = Done tt \/ exists e, c = Raised e).
Proof.
  revert d. induction testCases as [|tc tcs IH]; intros d; simpl.
  - exists d, (Done tt). split; [reflexivity|left; reflexivity].
  - unfold bind. rewrite junit_step_run. destruct (duration_of tc) as [dur|e].
    + destruct (IH (extend (Etree.get tc "file") [JUnitTestReportParser.test_case tc dur] d))
        as [d' [c [E Hc]]].
      rewrite E. exists d', c. split; [reflexivity|exact Hc].
    + eexists _, _. split; [reflexivity|right; eauto].
Qed.

(** [doParse] always returns a dictionary; it only parses and prints. *)
Lemma junit_doParse_total {T : Type} (w : world) (path : string) (t : T) :
  exists ev d,
    JUnitTestReportParser.doParse w path t = (ev, t, Done d) /\ Forall quiet ev.
Proof.
  unfold JUnitTestReportParser.doParse, returning, try_except, bind, call.
  destruct (etree_parse w path) as [tree|e]; simpl.
  - destruct (junit_loop_shape (Etree.xpath_root "testsuite" "testcase" tree) [])
      as [d' [c [E Hc]]].
    rewrite E. destruct Hc as [->|[e ->]]; simpl.
    + eexists _, _. split; [reflexivity|]. repeat constructor.
    + eexists _, _. split; [reflexivity|]. repeat constructor.
  - eexists _, _. split; [reflexivity|]. repeat constructor.
Qed.

(** A loop in which some turn raises [e] (after events that satisfy [Q])
    and every other turn does nothing ends with [e] at the first such turn. *)
Lemma for_each_first_raise {S X : Type} (Q : event -> Prop) (e : exn)
    (hit : X -> bool) (body : X -> prog S unit) (xs : list X) :
  (forall x s, In x xs -> hit x = false -> body x s = ([], s, Done tt)) ->
  (forall x s, In x xs -> hit x = true ->
     exists ev s', body x s = (ev, s', Raised e) /\ Forall Q ev) ->
  forall s,
    if existsb hit xs
    then exists ev s', for_each xs body s = (ev, s', Raised e) /\ Forall Q ev
    else for_each xs body s = ([], s, Done tt).
Proof.
  induction xs as [|x xs IH]; intros Hmiss Hhit s; simpl; [reflexivity|].
  unfold bind. destruct (hit x) eqn:Hx; simpl.
  - destruct (Hhit x s (or_introl eq_refl) Hx) as [ev [s' [E HQ]]].
    rewrite E. eauto.
  - rewrite (Hmiss x s (or_introl eq_refl) Hx).
    specialize (IH (fun y t Hy => Hmiss y t (or_intror Hy))
                   (fun y t Hy => Hhit y t (or_intror Hy)) s).
    destruct (existsb hit xs).
    + destruct IH as [ev [s' [E HQ]]]. rewrite E. eauto.
    + rewrite IH. reflexivity.
Qed.

(** C2 (the code departs from it). A JUnit run that finds at least one
    report file whose name matches the pattern does not complete: after the
    first such file has gone through [doParse], the call of [iteritems] on
    the returned dictionary raises [AttributeError], which nothing catches.
    Before that the run has only parsed and printed; the output file is
    never opened or written and the exit status is 1. *)
Theorem junit_run_stops_at_first_report
    (w : world) (args : Namespace) (regexp : string -> bool) :
  report_type args = junit ->
  re_compile w (report_pattern args) = Ok regexp ->
  (exists dirName subdirList fileList fileName,
      In (dirName, subdirList, fileList) (os_walk w (search_folder args)) /\
      In fileName fileList /\ regexp fileName = true) ->
  exists ev,
    run (main w args)
    = (Walk (search_folder args) :: ev, Raised JUnitTestReportParser.no_iteritems) /\
    Forall quiet ev /\
    exit_status (snd (run (main w args))) = 1%Z.
Proof.
  intros Ht Hre [dirName [subdirList [fileList [fileName [Hdir [Hfile Hmatch]]]]]].
  assert (Hinner : forall dir files s,
            if existsb regexp files
            then exists ev s',
                for_each files (JUnitTestReportParser.parse_file w regexp dir) s
                = (ev, s', Raised JUnitTestReportParser.no_iteritems) /\ Forall quiet ev
            else for_each files (JUnitTestReportParser.parse_file w regexp dir) s
                 = ([], s, Done tt)).
  { intros dir files s.
    apply (for_each_first_raise quiet JUnitTestReportParser.no_iteritems regexp
             (JUnitTestReportParser.parse_file w regexp dir) files).
    - intros x s0 _ Hx. unfold JUnitTestReportParser.parse_file. rewrite Hx. reflexivity.
    - intros x s0 _ Hx. unfold JUnitTestReportParser.parse_file. rewrite Hx. unfold bind.
      destruct (junit_doParse_total w (OsPath.join dir x) s0) as [ev [d [E HQ]]].
      rewrite E. simpl. rewrite app_nil_r. eauto. }
  assert (Houter :
            exists ev s',
              for_each (os_walk w (search_folder args))
                (JUnitTestReportParser.parse_dir w regexp) []
              = (ev, s', Raised JUnitTestReportParser.no_iteritems) /\ Forall quiet ev).
  { pose proof (for_each_first_raise quiet JUnitTestReportParser.no_iteritems
                  (fun entry : string * list string * list string =>
                     existsb regexp (snd entry))
                  (JUnitTestReportParser.parse_dir w regexp)
                  (os_walk w (search_folder args))) as H.
    assert (Hex : existsb (fun entry : string * list string * list string =>
                             existsb regexp (snd entry))
                    (os_walk w (search_folder args)) = true).
    { apply existsb_exists. exists (dirName, subdirList, fileList). split; [exact Hdir|].
      simpl. apply existsb_exists. exists fileName. auto. }
    rewrite Hex in H. apply H.
    - intros [[dir subdirs] files] s _ Hx. simpl in Hx.
      unfold JUnitTestReportParser.parse_dir.
      pose proof (Hinner dir files s) as Hi. rewrite Hx in Hi. exact Hi.
    - intros [[dir subdirs] files] s _ Hx. simpl in Hx.
      unfold JUnitTestReportParser.parse_dir.
      pose proof (Hinner dir files s) as Hi. rewrite Hx in Hi. exact Hi. }
  destruct Houter as [ev [s' [E HQ]]].
  assert (Hrun : run (main w args)
                 = (Walk (search_folder args) :: ev, Raised JUnitTestReportParser.no_iteritems)).
  { unfold run, main. rewrite Ht.
    unfold JUnitTestReportParser.parse, bind, returning, lift, emit.
    rewrite Hre. simpl. rewrite E. reflexivity. }
  exists ev. split; [exact Hrun|]. split; [exact HQ|]. rewrite Hrun. reflexivity.
Qed.

Lemma junit_run_stops_at_first_report_witness :
  exists ev,
    run (main Sample.malformed_and_valid_junit Sample.junit_args)
    = (Walk "reports" :: ev, Raised JUnitTestReportParser.no_iteritems) /\
    Forall quiet ev /\
    exit_status (snd (run (main Sample.malformed_and_valid_junit Sample.junit_args))) = 1%Z.
Proof.
  apply (junit_run_stops_at_first_report
           Sample.malformed_and_valid_junit Sample.junit_args (Example.contains_str "xml")).
  - reflexivity.
  - reflexivity.
  - exists "reports", [], ["bad.xml"; "good.xml"], "good.xml".
    split; [left; reflexivity|]. split; [right; left; reflexivity|reflexivity].
Defined.

(** The Google Test run over the same kind of directory completes: the
    file that is not XML is announced and the valid report is written. *)
Example gtest_run_with_malformed_report :
  run (main Sample.malformed_and_valid_gtest Sample.gtest_args)
  = ([Walk "src"; OpenRead "src/foo_test.cpp"; Walk "reports";
      ParseXml "reports/bad.xml";
      Print (cant_parse "reports/bad.xml"
               (XMLSyntaxError "Document is empty, line 1, column 1"));
      ParseXml "reports/good.xml";
      OpenWrite "out.xml";
      WriteDoc "out.xml"
        (Etree.Element "testExecutions" [("version", "1")] None
           [Etree.Element "file" [("path", "src/foo_test.cpp")] None
              [Etree.Element "testCase" [("name", "Foo.t1"); ("duration", "2")] None []]])],
     Done tt).
Proof. vm_compute. reflexivity. Qed.

(** ** Durations *)

Lemma Qtrunc_nonneg (q : Q) : (0 <= Qnum q)%Z -> Qtrunc q = Qfloor q.
Proof.
  intros H. unfold Qtrunc. destruct (Z.ltb_spec (Qnum q) 0); [lia|reflexivity].
Qed.

Lemma Qtrunc_inject (n : Z) : Qtrunc (inject_Z n) = n.
Proof.
  unfold Qtrunc. destruct (Qnum (inject_Z n) <? 0)%Z.
  - apply Qceiling_Z.
  - apply Qfloor_Z.
Qed.

(** [int(x)] is the value of [x] rounded toward zero. *)
Lemma int_of_float_trunc (x : spec_float) :
  is_finite x = true -> int_of_float x = Ok (Qtrunc (float_value x)).
Proof.
  destruct x as [s|s| |s m e]; try discriminate; intros _.
  - reflexivity.
  - unfold int_of_float. f_equal. destruct e as [|k|k].
    + change (float_value (S754_finite s m 0))
        with (inject_Z ((if s then Z.neg m else Z.pos m) * 2 ^ 0)).
      rewrite Qtrunc_inject. change (0 <=? 0)%Z with true. cbv iota.
      destruct s; [change (Z.neg m) with (- Z.pos m)%Z; ring|reflexivity].
    + change (float_value (S754_finite s m (Z.pos k)))
        with (inject_Z ((if s then Z.neg m else Z.pos m) * 2 ^ Z.pos k)).
      rewrite Qtrunc_inject. change (0 <=? Z.pos k)%Z with true. cbv iota.
      destruct s; [change (Z.neg m) with (- Z.pos m)%Z; ring|reflexivity].
    + change (0 <=? Z.neg k)%Z with false. cbv iota.
      change (- Z.neg k)%Z with (Z.pos k).
      change (float_value (S754_finite s m (Z.neg k)))
        with (Qmake (if s then Z.neg m else Z.pos m) (2 ^ k)%positive).
      unfold Qtrunc, Qceiling, Qfloor.
      destruct s; cbn [Qnum Qden Qopp Z.ltb Z.compare Z.opp]; rewrite Pos2Z.inj_pow;
        reflexivity.
Qed.

Lemma duration_of_millis testCase duration :
  duration_of testCase = Ok duration ->
  millis_text (Etree.get testCase "time") duration.
Proof.
  unfold duration_of, millis_text.
  destruct (Py.float (Etree.get testCase "time")) as [x|e]; [|discriminate].
  destruct (int_of_float (float_mul_int x 1000)) as [ms|e] eqn:E; [|discriminate].
  intros D. inversion D; subst. exists x. split; [reflexivity|].
  assert (F : is_finite (float_mul_int x 1000) = true).
  { destruct (float_mul_int x 1000); simpl in *; congruence. }
  split; [exact F|]. rewrite (int_of_float_trunc _ F) in E. congruence.
Qed.

(** ** Folding test cases into groups *)

Section FoldExtend.
Context {X : Type} (key : X -> optstr) (ents : X -> list TestCase.t).

Lemma cases_at_fold_extend (xs : list X) (d : executions) (k : optstr) :
  cases_at (fold_extend key ents xs d) k =
  cases_at d k ++
  flat_map ents (filter (fun x => if eq_dec (key x) k then true else false) xs).
Proof.
  unfold fold_extend. revert d. induction xs as [|x xs IH]; intros d; simpl.
  - rewrite app_nil_r. reflexivity.
  - rewrite IH, cases_at_extend. rewrite <- app_assoc.
    destruct (eq_dec (key x) k); reflexivity.
Qed.

Lemma NoDup_keys_fold_extend (xs : list X) (d : executions) :
  NoDup (Dict.keys d) -> NoDup (Dict.keys (fold_extend key ents xs d)).
Proof.
  unfold fold_extend. revert d. induction xs as [|x xs IH]; intros d Hd; simpl; [exact Hd|].
  apply IH. apply NoDup_keys_extend. exact Hd.
Qed.

Lemma keyed_fold_extend (xs : list X) (d : executions) :
  keyed d -> keyed (fold_extend key ents xs d).
Proof.
  unfold fold_extend. revert d. induction xs as [|x xs IH]; intros d Hd; simpl; [exact Hd|].
  apply IH. apply keyed_extend. exact Hd.
Qed.

End FoldExtend.

Lemma flat_map_singleton {A B : Type} (f : A -> B) (l : list A) :
  flat_map (fun a => [f a]) l = map f l.
Proof. induction l as [|a l IH]; simpl; [reflexivity|]. rewrite IH. reflexivity. Qed.

Lemma Forall2_map_r {A B : Type} (R : A -> B -> Prop) (f : A -> B) (l : list A) :
  (forall a, In a l -> R a (f a)) -> Forall2 R l (map f l).
Proof.
  induction l as [|a l IH]; intros H; simpl; constructor.
  - apply H. left. reflexivity.
  - apply IH. intros b Hb. apply H. right. exact Hb.
Qed.

(** ** Strings that lxml accepts *)

Lemma xml_compatible_app (a b : string) :
  Etree.xml_compatible (a ++ b) = Etree.xml_compatible a && Etree.xml_compatible b.
Proof.
  induction a as [|c a IH]; simpl; [reflexivity|]. rewrite IH. apply andb_assoc.
Qed.

Lemma well_formed_child (n c : Etree.node) :
  Etree.well_formed n = true -> In c (Etree.children n) -> Etree.well_formed c = true.
Proof.
  destruct n as [t a x cs|x|t x]; simpl; [|intros _ []..].
  intros H Hin. apply andb_true_iff in H. destruct H as [_ H].
  rewrite forallb_forall in H. exact (H c Hin).
Qed.

Lemma xpath_children_child (name : string) (n c : Etree.node) :
  In c (Etree.xpath_children name n) -> In c (Etree.children n).
Proof. unfold Etree.xpath_children. intros H. apply filter_In in H. tauto. Qed.

Lemma xpath_root_child (a b : string) (root c : Etree.node) :
  In c (Etree.xpath_root a b root) -> In c (Etree.children root).
Proof.
  unfold Etree.xpath_root. destruct (Etree.has_tag a root); [|intros []].
  apply xpath_children_child.
Qed.

Lemma well_formed_get (n : Etree.node) (k : string) :
  Etree.well_formed n = true -> Etree.xml_compatible_opt (Etree.get n k) = true.
Proof.
  destruct n as [t a x cs|x|t x]; simpl; [|reflexivity..].
  intros H. apply andb_true_iff in H. destruct H as [H _].
  apply andb_true_iff in H. destruct H as [H _].
  apply andb_true_iff in H. destruct H as [_ H].
  induction a as [|[k' v] a IH]; simpl in *; [reflexivity|].
  apply andb_true_iff in H. destruct H as [Hkv H].
  destruct (String.eqb k' k); [|exact (IH H)].
  apply andb_true_iff in Hkv. exact (proj2 Hkv).
Qed.

Lemma well_formed_text (n : Etree.node) :
  Etree.well_formed n = true -> Etree.xml_compatible_opt (Etree.text n) = true.
Proof.
  destruct n as [t a x cs|x|t x]; simpl; intros H.
  - apply andb_true_iff in H. destruct H as [H _].
    apply andb_true_iff in H. exact (proj2 H).
  - exact H.
  - apply andb_true_iff in H. exact (proj2 H).
Qed.

Lemma str_of_compatible (v : optstr) :
  Etree.xml_compatible_opt v = true -> Etree.xml_compatible (str_of v) = true.
Proof. destruct v; [exact (fun H => H)|reflexivity]. Qed.

Lemma format_dotted_compatible (a b : optstr) :
  Etree.xml_compatible_opt a = true -> Etree.xml_compatible_opt b = true ->
  Etree.xml_compatible (format_dotted a b) = true.
Proof.
  intros Ha Hb. unfold format_dotted. rewrite !xml_compatible_app.
  rewrite (str_of_compatible a Ha), (str_of_compatible b Hb). reflexivity.
Qed.

Lemma str_of_int_compatible (z : Z) : Etree.xml_compatible (str_of_int z) = true.
Proof.
  assert (U : forall d, Etree.xml_compatible (NilEmpty.string_of_uint d) = true).
  { induction d; simpl; try exact IHd; reflexivity. }
  assert (U0 : forall d, Etree.xml_compatible (NilZero.string_of_uint d) = true).
  { intros d. destruct d; try exact (U _); reflexivity. }
  unfold str_of_int, NilZero.string_of_int.
  destruct (Z.to_int z) as [d|d]; [exact (U0 d)|]. simpl. exact (U0 d).
Qed.

Lemma duration_of_compatible (testCase : Etree.node) (duration : string) :
  duration_of testCase = Ok duration -> Etree.xml_compatible duration = true.
Proof.
  unfold duration_of. destruct (Py.float _) as [x|e]; [|discriminate].
  destruct (int_of_float _) as [ms|e]; [|discriminate].
  intros H. inversion H; subst. apply str_of_int_compatible.
Qed.

(** The test case object built from an element of a parsed document is
    one that lxml accepts. *)
Lemma built_case_accepted (name duration : string) (testCase : Etree.node) :
  Etree.xml_compatible name = true -> Etree.xml_compatible duration = true ->
  Etree.well_formed testCase = true ->
  accepted_case (TestCase.init name duration (JUnitTestReportParser.doParseMsg testCase)) = true.
Proof.
  intros Hn Hd Hw. unfold accepted_case, SonarTestExcutionsXmlSerializer.test_case_tag.
  cbn [TestCase.init TestCase.name TestCase.duration TestCase.msg
       TestCase._name TestCase._duration TestCase._msg].
  unfold JUnitTestReportParser.doParseMsg.
  destruct (Etree.children testCase) as [|first rest] eqn:Hc;
    [simpl; rewrite Hn, Hd; reflexivity|].
  assert (Hf : Etree.well_formed first = true).
  { apply (well_formed_child testCase); [exact Hw|]. rewrite Hc. left. reflexivity. }
  destruct (Etree.tag first) as [tag|]; [|simpl; rewrite Hn, Hd; reflexivity].
  destruct (test_msg_tag_map tag) as [type|]; [|simpl; rewrite Hn, Hd; reflexivity].
  pose proof (well_formed_text first Hf) as Ht.
  simpl. rewrite Hn, Hd. simpl.
  destruct (Etree.text first) as [y|]; simpl in *; [rewrite Ht|]; destruct type; reflexivity.
Qed.

Lemma junit_case_accepted (testCase : Etree.node) (duration : string) :
  Etree.well_formed testCase = true -> duration_of testCase = Ok duration ->
  accepted_case (JUnitTestReportParser.test_case testCase duration) = true.
Proof.
  intros Hw Hd. unfold JUnitTestReportParser.test_case. apply built_case_accepted.
  - apply format_dotted_compatible; apply well_formed_get; exact Hw.
  - exact (duration_of_compatible testCase duration Hd).
  - exact Hw.
Qed.

(** The group of a string that lxml takes, holding test cases that it
    accepts, gives its [file] element. *)
Lemma file_tag_accepted (g : SonarTestExcution.t) :
  accepted g = true -> SonarTestExcutionsXmlSerializer.file_tag g = Ok (file_element g).
Proof.
  unfold accepted, SonarTestExcutionsXmlSerializer.file_tag, file_element.
  destruct (SonarTestExcution.file_path g) as [path|]; [|discriminate].
  cbv zeta. intros H. rewrite H. reflexivity.
Qed.

Lemma accepted_group (g : SonarTestExcution.t) (path : string) :
  SonarTestExcution.file_path g = Some path ->
  Etree.xml_compatible path = true ->
  (forall e, In e (SonarTestExcution.test_cases g) -> accepted_case e = true) ->
  accepted g = true.
Proof.
  intros Hp Hc He. unfold accepted, file_element. rewrite Hp. simpl. rewrite Hc. simpl.
  apply forallb_forall. intros n Hn. apply in_map_iff in Hn.
  destruct Hn as [e [<- Hin]]. exact (He e Hin).
Qed.

Lemma accepted_cases_ensure key d : accepted_cases d -> accepted_cases (ensure key d).
Proof.
  intros Hd k g e Hin He. apply In_ensure in Hin.
  destruct Hin as [Hin|[-> ->]]; [exact (Hd k g e Hin He)|]. simpl in He. contradiction.
Qed.

Lemma accepted_cases_extend key tcs d :
  (forall e, In e tcs -> accepted_case e = true) ->
  accepted_cases d -> accepted_cases (extend key tcs d).
Proof.
  intros Ht Hd k g e Hin He.
  destruct (In_extend _ _ _ _ _ _ Hin He) as [[g0 [Hin0 He0]]|[_ He']].
  - exact (Hd k g0 e Hin0 He0).
  - exact (Ht e He').
Qed.

Lemma accepted_keys_ensure key d :
  Etree.xml_compatible_opt key = true -> accepted_keys d -> accepted_keys (ensure key d).
Proof.
  intros Hk Hd k Hin. rewrite keys_ensure in Hin.
  destruct (Dict.contains d key); [exact (Hd k Hin)|].
  apply in_app_or in Hin. destruct Hin as [Hin|[<-|[]]]; [exact (Hd k Hin)|exact Hk].
Qed.

Lemma accepted_keys_extend key tcs d :
  Etree.xml_compatible_opt key = true -> accepted_keys d -> accepted_keys (extend key tcs d).
Proof.
  intros Hk Hd k Hin. unfold extend in Hin. rewrite keys_update in Hin.
  exact (accepted_keys_ensure key d Hk Hd k Hin).
Qed.

Lemma junit_step_accepted testCase d :
  Etree.well_formed testCase = true ->
  accepted_cases d /\ accepted_keys d ->
  let d' := snd (fst (JUnitTestReportParser.doParse_step testCase d)) in
  accepted_cases d' /\ accepted_keys d'.
Proof.
  intros Hw [Hc Hk]. rewrite junit_step_run.
  pose proof (well_formed_get testCase "file" Hw) as Hf.
  destruct (duration_of testCase) as [dur|e] eqn:Hd; simpl.
  - split; [apply accepted_cases_extend|apply accepted_keys_extend]; try assumption.
    intros e [<-|[]]. exact (junit_case_accepted testCase dur Hw Hd).
  - split; [apply accepted_cases_ensure|apply accepted_keys_ensure]; assumption.
Qed.

(** Whatever a JUnit report holds, the serializer takes every group that
    [doParse] returns for it, the one without a path apart. *)
Lemma junit_doParse_accepted (w : world) (path : string) ev d :
  run (JUnitTestReportParser.doParse w path) = (ev, Done d) ->
  accepted_cases d /\ accepted_keys d.
Proof.
  assert (H0 : accepted_cases [] /\ accepted_keys []).
  { split; [intros k g e []|intros k []]. }
  unfold run, JUnitTestReportParser.doParse, returning, try_except, bind, call.
  destruct (etree_parse w path) as [tree|e] eqn:Hp; simpl.
  - pose proof (parse_well_formed w path tree Hp) as Hw.
    pose proof (for_each_invariant
                  (fun d : executions => accepted_cases d /\ accepted_keys d)
                  (Etree.xpath_root "testsuite" "testcase" tree)
                  JUnitTestReportParser.doParse_step
                  (fun x s Hx Hs =>
                     junit_step_accepted x s
                       (well_formed_child tree x Hw (xpath_root_child _ _ _ _ Hx)) Hs)
                  [] H0) as Hinv.
    destruct (for_each (Etree.xpath_root "testsuite" "testcase" tree)
                JUnitTestReportParser.doParse_step [])
      as [[ev1 d1] [[]|e|code]]; simpl in *; intros E; inversion E; subst; exact Hinv.
  - intros E. inversion E; subst. exact H0.
Qed.

Lemma junit_group_accepted (w : world) (path : string) ev d file g :
  run (JUnitTestReportParser.doParse w path) = (ev, Done d) ->
  In (Some file, g) d -> SonarTestExcution.file_path g = Some file ->
  accepted g = true.
Proof.
  intros Hrun Hin Hp. destruct (junit_doParse_accepted w path ev d Hrun) as [Hc Hk].
  apply (accepted_group g file Hp).
  - apply (Hk (Some file)). apply (in_map fst) in Hin. exact Hin.
  - intros e He. exact (Hc (Some file) g e Hin He).
Qed.

(** ** Valid JUnit reports *)

Lemma junit_loop_valid testCases d :
  (forall tc, In tc testCases -> exists duration, duration_of tc = Ok duration) ->
  for_each testCases JUnitTestReportParser.doParse_step d =
  ([], fold_extend (fun tc => Etree.get tc "file") (fun tc => [junit_entry tc]) testCases d,
   Done tt).
Proof.
  intros Hv. unfold fold_extend.
  apply (for_each_pure testCases JUnitTestReportParser.doParse_step
           (fun tc acc => extend (Etree.get tc "file") [junit_entry tc] acc)).
  intros tc s Hin. rewrite junit_step_run. unfold junit_entry.
  destruct (Hv tc Hin) as [dur ->]. reflexivity.
Qed.

Lemma junit_entry_of testCase duration :
  duration_of testCase = Ok duration -> entry_of testCase (junit_entry testCase).
Proof.
  intros Hd. unfold entry_of, junit_entry. rewrite Hd.
  split; [reflexivity|]. split; [apply duration_of_millis; exact Hd|].
  split; [reflexivity|].
  intros Hno. unfold SonarTestExcutionsXmlSerializer.test_case_tag.
  replace (TestCase.msg (JUnitTestReportParser.test_case testCase duration))
    with (@None TestMsg.t); [reflexivity|].
  symmetry. apply doParseMsg_no_status. exact Hno.
Qed.

(** When the [time] of a test case does not convert, [doParse]
    returns the entries of the test cases before it, and a group (empty if
    new) for the file of the failing one. *)
Lemma junit_doParse_keeps_earlier_cases
    (w : world) (path : string) (attrs : list (string * string)) (txt : option string)
    (children before after : list Etree.node) (bad : Etree.node) (e : exn) :
  etree_parse w path = Ok (Etree.Element "testsuite" attrs txt children) ->
  filter (Etree.has_tag "testcase") children = before ++ bad :: after ->
  (forall tc, In tc before -> exists duration, duration_of tc = Ok duration) ->
  duration_of bad = Raise e ->
  run (JUnitTestReportParser.doParse w path)
  = ([ParseXml path; Print (cant_parse path e)],
     Done (ensure (Etree.get bad "file")
             (fold_extend (fun tc => Etree.get tc "file") (fun tc => [junit_entry tc])
                before []))).
Proof.
  intros Hp Hsel Hbefore Hbad.
  unfold run, JUnitTestReportParser.doParse, returning, try_except, bind, call.
  rewrite Hp. simpl completion_of. cbv iota.
  change (Etree.xpath_root "testsuite" "testcase"
            (Etree.Element "testsuite" attrs txt children))
    with (filter (Etree.has_tag "testcase") children).
  rewrite Hsel, for_each_app, (junit_loop_valid before [] Hbefore).
  simpl. unfold bind. rewrite junit_step_run, Hbad. reflexivity.
Qed.

(** C5 as worded does not hold: for [time="1.001"] the floor of
    1.001 * 1000 is 1001, while the entry gets the duration ["1000"],
    because the binary64 product of [float("1.001")] and 1000 lies just
    under 1001. *)
Lemma floor_of_exact_product_fails :
  Qfloor ((1001 # 1000) * 1000) = 1001%Z /\
  run (JUnitTestReportParser.doParse Sample.junit_1_001 "reports/r.xml")
  = ([ParseXml "reports/r.xml"],
     Done [(Some "foo.cpp",
            {| SonarTestExcution._file_path := Some "foo.cpp";
               SonarTestExcution._test_cases := [TestCase.init "Foo.t1" "1000" None] |})]) /\
  duration_of (Sample.junit_case "Foo" "t1" "foo.cpp" "1.001" [])
  <> Ok (str_of_int (Qfloor ((1001 # 1000) * 1000))).
Proof.
  split; [reflexivity|]. split; [vm_compute; reflexivity|]. vm_compute. discriminate.
Qed.

(** C5, amended. Take a JUnit report whose root is [testsuite] and whose
    [testcase] children all have a [time] that converts.  [doParse] prints
    nothing and returns one group per distinct [file] value; the group of a
    file holds, in document order, exactly one entry per [testcase] element
    with that [file].  The entry is named [classname.name]; its duration is
    the binary64 product of [float(time)] and 1000 rounded toward zero (the
    floor of that product when it is not negative), written in decimal;
    and when no child of the element is a failure, error or skipped element
    its [testCase] element in the output has no message element.  The group
    of a file that is a string is serialized as one [file] element with
    that path and those [testCase] elements. *)
Theorem junit_valid_report_entries
    (w : world) (report_file_path : string)
    (attrs : list (string * string)) (txt : option string) (children : list Etree.node) :
  etree_parse w report_file_path = Ok (Etree.Element "testsuite" attrs txt children) ->
  (forall testCase, In testCase children -> Etree.has_tag "testcase" testCase = true ->
     exists duration, duration_of testCase = Ok duration) ->
  exists d,
    run (JUnitTestReportParser.doParse w report_file_path)
    = ([ParseXml report_file_path], Done d) /\
    NoDup (Dict.keys d) /\
    (forall file,
        Forall2 entry_of
          (filter (has_file file) (filter (Etree.has_tag "testcase") children))
          (cases_at d file)) /\
    (forall file g,
        Dict.get d (Some file) = Some g ->
        SonarTestExcutionsXmlSerializer.file_tag g
        = Ok (Etree.Element "file" [("path", file)] None
                (map SonarTestExcutionsXmlSerializer.test_case_tag (cases_at d (Some file))))).
Proof.
  intros Hp Hv.
  set (testCases := filter (Etree.has_tag "testcase") children).
  assert (Hv' : forall tc, In tc testCases -> exists duration, duration_of tc = Ok duration).
  { intros tc Hin. apply filter_In in Hin. destruct Hin as [Hin Ht]. exact (Hv tc Hin Ht). }
  set (d := fold_extend (fun tc => Etree.get tc "file") (fun tc => [junit_entry tc])
              testCases []).
  assert (Hrun : run (JUnitTestReportParser.doParse w report_file_path)
                 = ([ParseXml report_file_path], Done d)).
  { unfold run, JUnitTestReportParser.doParse, returning, try_except, bind, call.
    rewrite Hp. simpl completion_of. cbv iota.
    change (Etree.xpath_root "testsuite" "testcase"
              (Etree.Element "testsuite" attrs txt children)) with testCases.
    rewrite (junit_loop_valid testCases [] Hv'). reflexivity. }
  exists d. split; [exact Hrun|split; [|split]].
  - apply NoDup_keys_fold_extend. constructor.
  - intros file. unfold d. rewrite cases_at_fold_extend.
    change (cases_at [] file) with (@nil TestCase.t). rewrite app_nil_l.
    rewrite flat_map_singleton. apply Forall2_map_r.
    intros tc Hin. apply filter_In in Hin. destruct Hin as [Hin _].
    destruct (Hv' tc Hin) as [dur Hd]. exact (junit_entry_of tc dur Hd).
  - intros file g Hg.
    assert (Hk : keyed d) by (apply keyed_fold_extend, keyed_nil).
    pose proof (Hk (Some file) g (get_In d (Some file) g Hg)) as Hpath.
    rewrite (file_tag_accepted g
               (junit_group_accepted w report_file_path _ d file g Hrun
                  (get_In d (Some file) g Hg) Hpath)).
    unfold file_element. rewrite Hpath. unfold cases_at. rewrite Hg. reflexivity.
Qed.

Lemma junit_valid_report_entries_witness :
  exists d,
    run (JUnitTestReportParser.doParse Sample.malformed_and_valid_junit "reports/good.xml")
    = ([ParseXml "reports/good.xml"], Done d) /\
    NoDup (Dict.keys d) /\
    (forall file,
        Forall2 entry_of
          (filter (has_file file)
             (filter (Etree.has_tag "testcase")
                [Sample.junit_case "Foo" "t1" "foo.cpp" "0.125" []]))
          (cases_at d file)) /\
    (forall file g,
        Dict.get d (Some file) = Some g ->
        SonarTestExcutionsXmlSerializer.file_tag g
        = Ok (Etree.Element "file" [("path", file)] None
                (map SonarTestExcutionsXmlSerializer.test_case_tag (cases_at d (Some file))))).
Proof.
  apply (junit_valid_report_entries Sample.malformed_and_valid_junit "reports/good.xml"
           [("name", "suite")] None [Sample.junit_case "Foo" "t1" "foo.cpp" "0.125" []]).
  - reflexivity.
  - intros testCase [<-|[]] _. exists "125". vm_compute. reflexivity.
Defined.

(** The scenario of the specification: [time="0.125"] under [foo.cpp]. *)
Example junit_scenario_foo_t1 :
  match run (JUnitTestReportParser.doParse Sample.malformed_and_valid_junit "reports/good.xml") with
  | (_, Done d) => SonarTestExcutionsXmlSerializer.serialize (Dict.values d)
  | _ => Raise (OSError "")
  end
  = Ok (Etree.Element "testExecutions" [("version", "1")] None
          [Etree.Element "file" [("path", "foo.cpp")] None
             [Etree.Element "testCase" [("name", "Foo.t1"); ("duration", "125")] None []]]).
Proof. vm_compute. reflexivity. Qed.

(** ** More on loops *)

(** No turn calls [sys.exit], so the loop does not either. *)
Lemma for_each_not_exited {S X : Type} (xs : list X) (body : X -> prog S unit) :
  (forall x s code, In x xs -> snd (body x s) <> Exited code) ->
  forall s code, snd (for_each xs body s) <> Exited code.
Proof.
  induction xs as [|x xs IH]; intros Hb s code; simpl; [discriminate|].
  unfold bind. pose proof (Hb x s code (or_introl eq_refl)) as Hx.
  destruct (body x s) as [[ev s'] [[]|e|code']]; simpl in *; try discriminate.
  - pose proof (IH (fun y t c Hy => Hb y t c (or_intror Hy)) s' code) as IH'.
    destruct (for_each xs body s') as [[ev' s''] c]. exact IH'.
  - exact Hx.
Qed.

(** Events of a kind that every turn keeps to. *)
Lemma for_each_events_Forall {S X : Type} (Q : event -> Prop) (xs : list X)
    (body : X -> prog S unit) :
  (forall x s, In x xs -> Forall Q (fst (fst (body x s)))) ->
  forall s, Forall Q (fst (fst (for_each xs body s))).
Proof.
  induction xs as [|x xs IH]; intros Hb s; simpl; [constructor|].
  unfold bind. pose proof (Hb x s (or_introl eq_refl)) as Hx.
  destruct (body x s) as [[ev s'] [[]|e|code]]; simpl in *; try exact Hx.
  pose proof (IH (fun y t Hy => Hb y t (or_intror Hy)) s') as IH'.
  destruct (for_each xs body s') as [[ev' s''] c]. simpl in *.
  apply Forall_app. split; assumption.
Qed.

Lemma same_end_refl {S A : Type} (o : list event * S * completion A) : same_end o o.
Proof. split; reflexivity. Qed.

(** Turns that only produce events can be left out. *)
Lemma for_each_filter_same_end {S X : Type} (p : X -> bool) (xs : list X)
    (body : X -> prog S unit) :
  (forall x s, In x xs -> p x = false -> same_end (body x s) ([], s, Done tt)) ->
  forall s, same_end (for_each xs body s) (for_each (filter p xs) body s).
Proof.
  induction xs as [|x xs IH]; intros Hb s; simpl; [apply same_end_refl|].
  specialize (IH (fun y t Hy => Hb y t (or_intror Hy))).
  destruct (p x) eqn:Hp; simpl; unfold bind.
  - destruct (body x s) as [[ev s'] [[]|e|code]]; try (split; reflexivity).
    specialize (IH s'). destruct IH as [H1 H2].
    destruct (for_each xs body s') as [[ev1 s1] c1].
    destruct (for_each (filter p xs) body s') as [[ev2 s2] c2].
    simpl in *. split; assumption.
  - destruct (Hb x s (or_introl eq_refl) Hp) as [H1 H2].
    destruct (body x s) as [[ev s'] c]. simpl in H1, H2. subst.
    specialize (IH s). destruct IH as [H1 H2].
    destruct (for_each xs body s) as [[ev1 s1] c1]. simpl in *. split; assumption.
Qed.

(** Items replaced by ones whose turns end the same way. *)
Lemma for_each_map_same_end {S X : Type} (f : X -> X) (xs : list X)
    (body : X -> prog S unit) :
  (forall x s, In x xs -> same_end (body (f x) s) (body x s)) ->
  forall s, same_end (for_each (map f xs) body s) (for_each xs body s).
Proof.
  induction xs as [|x xs IH]; intros Hb s; simpl; [apply same_end_refl|].
  specialize (IH (fun y t Hy => Hb y t (or_intror Hy))).
  unfold bind. destruct (Hb x s (or_introl eq_refl)) as [H1 H2].
  destruct (body (f x) s) as [[ev s'] c]. destruct (body x s) as [[ev0 s0] c0].
  simpl in H1, H2. subst.
  destruct c0 as [[]|e|code]; try (split; reflexivity).
  specialize (IH s0). destruct IH as [H1 H2].
  destruct (for_each (map f xs) body s0) as [[ev1 s1] c1].
  destruct (for_each xs body s0) as [[ev2 s2] c2]. simpl in *. split; assumption.
Qed.

(** ** Google Test reports *)

Lemma gtest_step_run index test_suite_name testCase d :
  GoogleTestReportParser.doParse_step index test_suite_name testCase d =
  let testName := GoogleTestReportParser.test_name test_suite_name testCase in
  match Dict.get index testName with
  | Some test_file_name =>
      match duration_of testCase with
      | Ok duration =>
          ([], extend (Some test_file_name)
                 [TestCase.init testName duration
                    (JUnitTestReportParser.doParseMsg testCase)] d, Done tt)
      | Raise e => ([], ensure (Some test_file_name) d, Raised e)
      end
  | None => ([Print (GoogleTestReportParser.not_in_source testName)], d, Done tt)
  end.
Proof.
  unfold GoogleTestReportParser.doParse_step. cbv zeta.
  destruct (Dict.get index _) as [f|]; [|reflexivity].
  unfold bind. rewrite ensure_group_run. unfold lift.
  destruct (duration_of testCase); reflexivity.
Qed.

Lemma from_index_ensure index key d : from_index index d -> from_index index (ensure key d).
Proof.
  intros Hd k g e Hin He. apply In_ensure in Hin.
  destruct Hin as [Hin|[-> ->]]; [exact (Hd k g e Hin He)|]. simpl in He. contradiction.
Qed.

Lemma from_index_step index test_suite_name testCase d :
  from_index index d ->
  from_index index
    (snd (fst (GoogleTestReportParser.doParse_step index test_suite_name testCase d))).
Proof.
  intros Hd. rewrite gtest_step_run. cbv zeta.
  destruct (Dict.get index _) as [f|] eqn:Hf; [|exact Hd].
  destruct (duration_of testCase) as [dur|e]; simpl.
  - intros k g e Hin He. destruct (In_extend _ _ _ _ _ _ Hin He) as [[g0 [Hin0 He0]]|[-> He']].
    + exact (Hd k g0 e Hin0 He0).
    + destruct He' as [<-|[]]. exists f. split; [exact Hf|reflexivity].
  - apply from_index_ensure. exact Hd.
Qed.

Lemma from_index_suite index testSuite d :
  from_index index d ->
  from_index index (snd (fst (GoogleTestReportParser.doParse_suite index testSuite d))).
Proof.
  intros Hd. unfold GoogleTestReportParser.doParse_suite.
  apply (for_each_invariant (from_index index)); [|exact Hd].
  intros tc s _ Hs. apply from_index_step. exact Hs.
Qed.

Lemma gtest_step_not_exited index test_suite_name testCase d code :
  snd (GoogleTestReportParser.doParse_step index test_suite_name testCase d) <> Exited code.
Proof.
  rewrite gtest_step_run. cbv zeta.
  destruct (Dict.get index _); [|discriminate].
  destruct (duration_of testCase); discriminate.
Qed.

Lemma gtest_suite_not_exited index testSuite d code :
  snd (GoogleTestReportParser.doParse_suite index testSuite d) <> Exited code.
Proof.
  unfold GoogleTestReportParser.doParse_suite. apply for_each_not_exited.
  intros tc s c _. apply gtest_step_not_exited.
Qed.

Lemma gtest_step_quiet index test_suite_name testCase d :
  Forall quiet (fst (fst (GoogleTestReportParser.doParse_step index test_suite_name testCase d))).
Proof.
  rewrite gtest_step_run. cbv zeta.
  destruct (Dict.get index _); [|repeat constructor].
  destruct (duration_of testCase); constructor.
Qed.

Lemma gtest_suite_quiet index testSuite d :
  Forall quiet (fst (fst (GoogleTestReportParser.doParse_suite index testSuite d))).
Proof.
  unfold GoogleTestReportParser.doParse_suite. apply for_each_events_Forall.
  intros tc s _. apply gtest_step_quiet.
Qed.

Lemma gtest_doParse_run {T : Type} (w : world) (path : string) index (t : T) :
  GoogleTestReportParser.doParse w path index t =
  match etree_parse w path with
  | Raise e => ([ParseXml path; Print (cant_parse path e)], t, Done [])
  | Ok tree =>
      match for_each (suites tree) (GoogleTestReportParser.doParse_suite index) [] with
      | (ev, d, Done _) => (ParseXml path :: ev, t, Done d)
      | (ev, d, Raised e) => (ParseXml path :: ev ++ [Print (cant_parse path e)], t, Done d)
      | (ev, d, Exited code) => (ParseXml path :: ev, t, Exited code)
      end
  end.
Proof.
  unfold GoogleTestReportParser.doParse, returning, try_except, bind, call, emit, suites.
  destruct (etree_parse w path) as [tree|e]; simpl; [|reflexivity].
  destruct (for_each _ _ _) as [[ev d] [[]|e|code]]; reflexivity.
Qed.

(** The state a turn of the inner loop leaves keeps the keys distinct and
    every group under its own path. *)
Lemma gtest_step_grouped index test_suite_name testCase d :
  NoDup (Dict.keys d) /\ keyed d ->
  let d' := snd (fst (GoogleTestReportParser.doParse_step index test_suite_name testCase d)) in
  NoDup (Dict.keys d') /\ keyed d'.
Proof.
  intros [Hn Hk]. rewrite gtest_step_run. cbv zeta.
  destruct (Dict.get index _) as [f|]; [|split; assumption].
  destruct (duration_of testCase); simpl.
  - split; [apply NoDup_keys_extend|apply keyed_extend]; assumption.
  - split; [apply NoDup_keys_ensure|apply keyed_ensure]; assumption.
Qed.

Lemma gtest_suite_grouped index testSuite d :
  NoDup (Dict.keys d) /\ keyed d ->
  let d' := snd (fst (GoogleTestReportParser.doParse_suite index testSuite d)) in
  NoDup (Dict.keys d') /\ keyed d'.
Proof.
  intros Hd. unfold GoogleTestReportParser.doParse_suite.
  apply (for_each_invariant (fun d : executions => NoDup (Dict.keys d) /\ keyed d));
    [|exact Hd].
  intros tc s _ Hs. apply gtest_step_grouped. exact Hs.
Qed.

(** [doParse] always returns a dictionary.  Its groups have distinct keys,
    sit under their own path and hold only test cases from the index. *)
Lemma gtest_doParse_total {T : Type} (w : world) (path : string) index (t : T) :
  exists ev d,
    GoogleTestReportParser.doParse w path index t = (ev, t, Done d) /\
    Forall quiet ev /\
    from_index index d /\ NoDup (Dict.keys d) /\ keyed d.
Proof.
  rewrite gtest_doParse_run.
  destruct (etree_parse w path) as [tree|e].
  - pose proof (for_each_invariant (from_index index) (suites tree)
                  (GoogleTestReportParser.doParse_suite index)
                  (fun x s _ Hs => from_index_suite index x s Hs) []) as Hfrom.
    pose proof (for_each_invariant (fun d : executions => NoDup (Dict.keys d) /\ keyed d)
                  (suites tree) (GoogleTestReportParser.doParse_suite index)
                  (fun x s _ Hs => gtest_suite_grouped index x s Hs) []) as Hgr.
    pose proof (for_each_not_exited (suites tree)
                  (GoogleTestReportParser.doParse_suite index)
                  (fun x s c _ => gtest_suite_not_exited index x s c) []) as Hex.
    pose proof (for_each_events_Forall quiet (suites tree)
                  (GoogleTestReportParser.doParse_suite index)
                  (fun x s _ => gtest_suite_quiet index x s) []) as Hq.
    specialize (Hfrom (fun k g e H => match H with end)).
    specialize (Hgr (conj (NoDup_nil _) keyed_nil)).
    destruct (for_each (suites tree) (GoogleTestReportParser.doParse_suite index) [])
      as [[ev d] [[]|e|code]]; simpl in *.
    + exists (ParseXml path :: ev), d. split; [reflexivity|].
      split; [constructor; [exact I|exact Hq]|].
      destruct Hgr as [Hn Hk]. split; [exact Hfrom|]. split; [exact Hn|exact Hk].
    + exists (ParseXml path :: ev ++ [Print (cant_parse path e)]), d. split; [reflexivity|].
      split; [constructor; [exact I|]; apply Forall_app; split; [exact Hq|];
              repeat constructor|].
      destruct Hgr as [Hn Hk]. split; [exact Hfrom|]. split; [exact Hn|exact Hk].
    + exfalso. exact (Hex code eq_refl).
  - exists [ParseXml path; Print (cant_parse path e)], []. split; [reflexivity|].
    split; [repeat constructor|]. split; [intros k g x []|].
    split; [constructor|exact keyed_nil].
Qed.

(** *** Leaving the unknown test cases out *)

Lemma drop_unindexed_name index testSuite :
  Etree.get (drop_unindexed index testSuite) "name" = Etree.get testSuite "name".
Proof. destruct testSuite; reflexivity. Qed.

Lemma drop_unindexed_tag index name testSuite :
  Etree.has_tag name (drop_unindexed index testSuite) = Etree.has_tag name testSuite.
Proof. destruct testSuite; reflexivity. Qed.

Lemma drop_unindexed_cases index testSuite :
  Etree.xpath_children "testcase" (drop_unindexed index testSuite) =
  filter (indexed index (Etree.get testSuite "name"))
    (Etree.xpath_children "testcase" testSuite).
Proof.
  destruct testSuite as [tag attrs txt cs| |]; try reflexivity.
  unfold Etree.xpath_children. simpl.
  induction cs as [|c cs IH]; simpl; [reflexivity|].
  destruct (Etree.has_tag "testcase" c) eqn:Hc; simpl.
  - destruct (indexed index (Etree.assoc attrs "name") c); simpl; [rewrite Hc, IH|]; auto.
  - rewrite Hc. exact IH.
Qed.

Lemma suites_prune index root :
  suites (prune index root) = map (drop_unindexed index) (suites root).
Proof.
  destruct root as [tag attrs txt cs| |]; try reflexivity.
  unfold suites, Etree.xpath_root.
  change (Etree.has_tag "testsuites" (prune index (Etree.Element tag attrs txt cs)))
    with (Etree.has_tag "testsuites" (Etree.Element tag attrs txt cs)).
  destruct (Etree.has_tag "testsuites" _); [|reflexivity].
  unfold Etree.xpath_children. simpl.
  induction cs as [|c cs IH]; simpl; [reflexivity|].
  rewrite drop_unindexed_tag. destruct (Etree.has_tag "testsuite" c); simpl; rewrite IH; auto.
Qed.

Lemma gtest_suite_drop_same_end index testSuite d :
  same_end (GoogleTestReportParser.doParse_suite index (drop_unindexed index testSuite) d)
           (GoogleTestReportParser.doParse_suite index testSuite d).
Proof.
  unfold GoogleTestReportParser.doParse_suite.
  rewrite drop_unindexed_name, drop_unindexed_cases.
  destruct (for_each_filter_same_end (indexed index (Etree.get testSuite "name"))
              (Etree.xpath_children "testcase" testSuite)
              (GoogleTestReportParser.doParse_step index (Etree.get testSuite "name")))
    with (s := d) as [H1 H2].
  - intros tc s _ Hi. rewrite gtest_step_run. cbv zeta.
    unfold indexed, Dict.contains in Hi.
    destruct (Dict.get index _); [discriminate|]. split; reflexivity.
  - split; congruence.
Qed.

Lemma gtest_loop_prune_same_end index root :
  same_end (for_each (suites (prune index root)) (GoogleTestReportParser.doParse_suite index) [])
           (for_each (suites root) (GoogleTestReportParser.doParse_suite index) []).
Proof.
  rewrite suites_prune. apply for_each_map_same_end.
  intros x s _. apply gtest_suite_drop_same_end.
Qed.

(** *** The notices *)

Lemma gtest_suite_valid index testSuite d :
  (forall tc, In tc (Etree.xpath_children "testcase" testSuite) ->
     indexed index (Etree.get testSuite "name") tc = true ->
     exists duration, duration_of tc = Ok duration) ->
  exists d',
    GoogleTestReportParser.doParse_suite index testSuite d =
    (map (fun n => Print (GoogleTestReportParser.not_in_source n))
       (map (GoogleTestReportParser.test_name (Etree.get testSuite "name"))
          (filter (fun tc => negb (indexed index (Etree.get testSuite "name") tc))
             (Etree.xpath_children "testcase" testSuite))),
     d', Done tt).
Proof.
  unfold GoogleTestReportParser.doParse_suite.
  generalize (Etree.get testSuite "name"). intros nm. revert d.
  induction (Etree.xpath_children "testcase" testSuite) as [|tc tcs IH]; intros d Hv; simpl.
  - exists d. reflexivity.
  - unfold bind. rewrite gtest_step_run. cbv zeta.
    pose proof (Hv tc (or_introl eq_refl)) as Htc.
    unfold indexed, Dict.contains in *.
    destruct (Dict.get index (GoogleTestReportParser.test_name nm tc)) as [f|] eqn:Hf.
    + destruct (Htc eq_refl) as [dur ->]. simpl.
      destruct (IH (extend (Some f)
                      [TestCase.init (GoogleTestReportParser.test_name nm tc) dur
                         (JUnitTestReportParser.doParseMsg tc)] d)
                   (fun y Hy => Hv y (or_intror Hy))) as [d' E].
      rewrite E. exists d'. reflexivity.
    + simpl. destruct (IH d (fun y Hy => Hv y (or_intror Hy))) as [d' E].
      rewrite E. exists d'. reflexivity.
Qed.

Lemma gtest_loop_valid index root :
  times_convert index root ->
  exists d,
    for_each (suites root) (GoogleTestReportParser.doParse_suite index) [] =
    (map (fun n => Print (GoogleTestReportParser.not_in_source n)) (unindexed_names index root),
     d, Done tt).
Proof.
  unfold times_convert, unindexed_names.
  generalize (@nil (optstr * SonarTestExcution.t)).
  induction (suites root) as [|x xs IH]; intros s Hv; simpl.
  - exists s. reflexivity.
  - unfold bind.
    destruct (gtest_suite_valid index x s (fun tc Htc => Hv x tc (or_introl eq_refl) Htc))
      as [s' E].
    rewrite E.
    destruct (IH s' (fun y tc Hy => Hv y tc (or_intror Hy))) as [d E'].
    rewrite E'. exists d. rewrite map_app. reflexivity.
Qed.

(** ** Merging the reports of a Google Test run *)

Lemma gtest_doParse_parsed (w : world) (path : string) index :
  exists ev,
    Forall quiet ev /\
    forall (T : Type) (t : T),
      GoogleTestReportParser.doParse w path index t = (ev, t, Done (gtest_parsed w index path)).
Proof.
  destruct (gtest_doParse_total w path index tt) as [ev [d [E [Hq _]]]].
  exists ev. split; [exact Hq|]. intros T t.
  unfold gtest_parsed, run. rewrite E.
  rewrite gtest_doParse_run in E. rewrite gtest_doParse_run.
  destruct (etree_parse w path) as [tree|e].
  - destruct (for_each (suites tree) (GoogleTestReportParser.doParse_suite index) [])
      as [[ev1 d1] [[]|e1|code]]; inversion E; subst; reflexivity.
  - inversion E; subst. reflexivity.
Qed.

Lemma merge_items_run (d acc : executions) :
  for_each (Dict.items d) merge_item acc = ([], fold_extend fst item_cases d acc, Done tt).
Proof.
  unfold fold_extend, Dict.items.
  apply (for_each_pure d merge_item (fun it a => extend (fst it) (item_cases it) a)).
  intros [key value] s _. apply merge_item_run.
Qed.

Lemma gtest_parse_file_run (w : world) index (regexp : string -> bool) dirName fileName acc :
  exists ev,
    Forall quiet ev /\
    GoogleTestReportParser.parse_file w index regexp dirName fileName acc =
    (ev,
     (if regexp fileName
      then fold_extend fst item_cases (gtest_parsed w index (OsPath.join dirName fileName)) acc
      else acc),
     Done tt).
Proof.
  unfold GoogleTestReportParser.parse_file.
  destruct (regexp fileName).
  - destruct (gtest_doParse_parsed w (OsPath.join dirName fileName) index) as [ev [Hq E]].
    exists ev. split; [exact Hq|]. unfold bind. rewrite E, merge_items_run.
    rewrite app_nil_r. reflexivity.
  - exists []. split; [constructor|reflexivity].
Qed.

Lemma gtest_parse_dir_run (w : world) index (regexp : string -> bool)
    (entry : string * list string * list string) acc :
  exists ev,
    Forall quiet ev /\
    GoogleTestReportParser.parse_dir w index regexp entry acc =
    (ev,
     merge_reports w index
       (let '(dirName, _, fileList) := entry in
        map (OsPath.join dirName) (filter regexp fileList)) acc,
     Done tt).
Proof.
  destruct entry as [[dirName subdirList] fileList].
  unfold GoogleTestReportParser.parse_dir, merge_reports. revert acc.
  induction fileList as [|f fs IH]; intros acc; simpl.
  - exists []. split; [constructor|reflexivity].
  - unfold bind.
    destruct (gtest_parse_file_run w index regexp dirName f acc) as [ev [Hq E]].
    rewrite E. destruct (regexp f); simpl.
    + destruct (IH (fold_extend fst item_cases
                      (gtest_parsed w index (OsPath.join dirName f)) acc)) as [ev' [Hq' E']].
      rewrite E'. exists (ev ++ ev'). split; [apply Forall_app; auto|reflexivity].
    + destruct (IH acc) as [ev' [Hq' E']].
      rewrite E'. exists (ev ++ ev'). split; [apply Forall_app; auto|reflexivity].
Qed.

Lemma merge_reports_app w index ps qs acc :
  merge_reports w index (ps ++ qs) acc = merge_reports w index qs (merge_reports w index ps acc).
Proof. unfold merge_reports. apply fold_left_app. Qed.

Lemma gtest_walk_run (w : world) index (regexp : string -> bool)
    (entries : list (string * list string * list string)) acc :
  exists ev,
    Forall quiet ev /\
    for_each entries (GoogleTestReportParser.parse_dir w index regexp) acc =
    (ev,
     merge_reports w index
       (flat_map (fun entry : string * list string * list string =>
                    let '(dirName, _, fileList) := entry in
                    map (OsPath.join dirName) (filter regexp fileList)) entries) acc,
     Done tt).
Proof.
  revert acc. induction entries as [|entry entries IH]; intros acc; simpl.
  - exists []. split; [constructor|reflexivity].
  - unfold bind. destruct (gtest_parse_dir_run w index regexp entry acc) as [ev [Hq E]].
    rewrite E. rewrite merge_reports_app.
    destruct (IH (merge_reports w index
                    (let '(dirName, _, fileList) := entry in
                     map (OsPath.join dirName) (filter regexp fileList)) acc))
      as [ev' [Hq' E']].
    rewrite E'. exists (ev ++ ev'). split; [apply Forall_app; auto|reflexivity].
Qed.

(** With distinct keys, the items under a key are the one group of the key. *)
Lemma items_under_key (d : executions) key :
  NoDup (Dict.keys d) ->
  flat_map item_cases (filter (fun it => if eq_dec (fst it) key then true else false) d)
  = cases_at d key.
Proof.
  unfold cases_at. induction d as [|[k g] d IH]; intros Hn; simpl; [reflexivity|].
  inversion Hn as [|? ? Hnot Hn']; subst.
  destruct (eq_dec k key) as [->|Hne]; simpl.
  - rewrite (IH Hn'). apply get_None_keys in Hnot. rewrite Hnot. apply app_nil_r.
  - exact (IH Hn').
Qed.

Lemma gtest_parsed_grouped w index path :
  from_index index (gtest_parsed w index path) /\
  NoDup (Dict.keys (gtest_parsed w index path)) /\ keyed (gtest_parsed w index path).
Proof.
  destruct (gtest_doParse_total w path index tt) as [ev [d [E [_ H]]]].
  unfold gtest_parsed, run. rewrite E. exact H.
Qed.

Lemma cases_at_merge_reports w index paths acc key :
  cases_at (merge_reports w index paths acc) key =
  cases_at acc key ++ flat_map (fun path => cases_at (gtest_parsed w index path) key) paths.
Proof.
  unfold merge_reports. revert acc. induction paths as [|p ps IH]; intros acc; simpl.
  - rewrite app_nil_r. reflexivity.
  - rewrite IH, cases_at_fold_extend, items_under_key, app_assoc; [reflexivity|].
    apply gtest_parsed_grouped.
Qed.

Lemma merge_reports_grouped w index paths acc :
  NoDup (Dict.keys acc) /\ keyed acc ->
  NoDup (Dict.keys (merge_reports w index paths acc)) /\
  keyed (merge_reports w index paths acc).
Proof.
  unfold merge_reports. revert acc. induction paths as [|p ps IH]; intros acc [Hn Hk]; simpl.
  - split; assumption.
  - apply IH. split; [apply NoDup_keys_fold_extend|apply keyed_fold_extend]; assumption.
Qed.

Lemma values_paths (d : executions) :
  keyed d -> map SonarTestExcution.file_path (Dict.values d) = Dict.keys d.
Proof.
  unfold Dict.values, Dict.keys. induction d as [|[k g] d IH]; intros Hk; simpl; [reflexivity|].
  rewrite (Hk k g (or_introl eq_refl)). f_equal. apply IH.
  intros k' g' Hin. apply Hk. right. exact Hin.
Qed.

Lemma cases_under_values (d : executions) key :
  keyed d -> NoDup (Dict.keys d) -> cases_under (Dict.values d) key = cases_at d key.
Proof.
  intros Hk Hn. rewrite <- (items_under_key d key Hn). unfold cases_under, Dict.values.
  clear Hn. induction d as [|[k g] d IH]; simpl; [reflexivity|].
  rewrite (Hk k g (or_introl eq_refl)).
  assert (IH' := IH (fun k' g' Hin => Hk k' g' (or_intror Hin))).
  destruct (eq_dec k key); simpl; [f_equal|]; exact IH'.
Qed.

(** What [parse] returns once the index is built and the pattern compiled. *)
Lemma gtest_parse_run (w : world) folder pattern src_folder src_pattern ev0 index regexp :
  run (GoogleTestReportParser.doParseSrcFolder w src_folder src_pattern) = (ev0, Done index) ->
  re_compile w pattern = Ok regexp ->
  exists ev,
    Forall quiet ev /\
    run (GoogleTestReportParser.parse w folder pattern src_folder src_pattern)
    = (ev0 ++ Walk folder :: ev,
       Done (Dict.values (merge_reports w index (matching_paths w regexp folder) []))).
Proof.
  intros Hidx Hre.
  destruct (gtest_walk_run w index regexp (os_walk w folder) []) as [ev [Hq E]].
  exists ev. split; [exact Hq|].
  unfold run in *. unfold GoogleTestReportParser.parse, bind.
  destruct (GoogleTestReportParser.doParseSrcFolder w src_folder src_pattern tt)
    as [[ev1 []] c1]. inversion Hidx; subst.
  unfold returning, bind, lift, emit. rewrite Hre. simpl completion_of. cbv iota.
  rewrite E. unfold matching_paths, ret. simpl. rewrite app_nil_r. reflexivity.
Qed.

Lemma merge_item_cases item d key :
  cases_at (snd (fst (merge_item item d))) key =
  cases_at d key ++ (if eq_dec (fst item) key then item_cases item else []).
Proof.
  destruct item as [k value]. rewrite merge_item_run. simpl. apply cases_at_extend.
Qed.

(** C6. Once the source index is built and the report pattern compiled, a
    Google Test run returns groups with pairwise distinct file paths, and
    the test cases it holds under a path are those that the report files,
    in the order of the walk, each hold under that path, one list after the
    other and nothing removed: with two report files, all those of the
    first followed by all those of the second, a test case present in both
    being kept twice.  Merging an item only appends to the group of the
    item's key; what a group held before stays there. *)
Theorem gtest_groups_merge_by_path
    (w : world) (folder pattern src_folder src_pattern : string)
    (ev0 : list event) (index : dict string string) (regexp : string -> bool) :
  run (GoogleTestReportParser.doParseSrcFolder w src_folder src_pattern) = (ev0, Done index) ->
  re_compile w pattern = Ok regexp ->
  exists ev groups,
    run (GoogleTestReportParser.parse w folder pattern src_folder src_pattern)
    = (ev, Done groups) /\
    NoDup (map SonarTestExcution.file_path groups) /\
    (forall key,
        cases_under groups key =
        flat_map (fun path => cases_at (gtest_parsed w index path) key)
          (matching_paths w regexp folder)) /\
    (forall item d key,
        cases_at (snd (fst (merge_item item d))) key =
        cases_at d key ++ (if eq_dec (fst item) key then item_cases item else [])).
Proof.
  intros Hidx Hre.
  destruct (gtest_parse_run w folder pattern src_folder src_pattern ev0 index regexp Hidx Hre)
    as [ev [_ E]].
  destruct (merge_reports_grouped w index (matching_paths w regexp folder) [])
    as [Hn Hk]; [split; [constructor|exact keyed_nil]|].
  eexists _, _. split; [exact E|]. split; [|split].
  - rewrite values_paths by exact Hk. exact Hn.
  - intros key. rewrite cases_under_values by assumption.
    rewrite cases_at_merge_reports. reflexivity.
  - apply merge_item_cases.
Qed.

Lemma gtest_groups_merge_by_path_witness :
  exists ev groups,
    run (GoogleTestReportParser.parse Sample.two_reports_one_source
           "reports" "xml" "src" "cpp")
    = (ev, Done groups) /\
    NoDup (map SonarTestExcution.file_path groups) /\
    (forall key,
        cases_under groups key =
        flat_map (fun path => cases_at (gtest_parsed Sample.two_reports_one_source
                                          Sample.a_cpp_index path) key)
          (matching_paths Sample.two_reports_one_source (Example.contains_str "xml") "reports")) /\
    (forall item d key,
        cases_at (snd (fst (merge_item item d))) key =
        cases_at d key ++ (if eq_dec (fst item) key then item_cases item else [])).
Proof.
  apply (gtest_groups_merge_by_path Sample.two_reports_one_source
           "reports" "xml" "src" "cpp"
           [Walk "src"; OpenRead "src/a.cpp"] Sample.a_cpp_index (Example.contains_str "xml")).
  - vm_compute. reflexivity.
  - reflexivity.
Defined.

(** Two reports, one source file: one [file] element, [Foo.t1] twice. *)
Example gtest_run_two_reports :
  run (main Sample.two_reports_one_source Sample.gtest_args)
  = ([Walk "src"; OpenRead "src/a.cpp"; Walk "reports";
      ParseXml "reports/r1.xml"; ParseXml "reports/r2.xml";
      OpenWrite "out.xml";
      WriteDoc "out.xml"
        (Etree.Element "testExecutions" [("version", "1")] None
           [Etree.Element "file" [("path", "src/a.cpp")] None
              [Etree.Element "testCase" [("name", "Foo.t1"); ("duration", "2")] None [];
               Etree.Element "testCase" [("name", "Foo.t2"); ("duration", "4")] None [];
               Etree.Element "testCase" [("name", "Foo.t1"); ("duration", "3")] None []]])],
     Done tt).
Proof. vm_compute. reflexivity. Qed.

(** ** Test cases the source index lacks *)

Lemma from_index_fold_extend index (d acc : executions) :
  from_index index d -> from_index index acc ->
  from_index index (fold_extend fst item_cases d acc).
Proof.
  unfold fold_extend. revert acc.
  induction d as [|[k g] d IH]; intros acc Hd Hacc; simpl; [exact Hacc|].
  apply IH.
  - intros k' g' e Hin He. exact (Hd k' g' e (or_intror Hin) He).
  - intros k' g' e Hin He.
    destruct (In_extend _ _ _ _ _ _ Hin He) as [[g0 [Hin0 He0]]|[-> He']].
    + exact (Hacc k' g0 e Hin0 He0).
    + exact (Hd k g e (or_introl eq_refl) He').
Qed.

Lemma from_index_merge_reports w index paths acc :
  from_index index acc -> from_index index (merge_reports w index paths acc).
Proof.
  unfold merge_reports. revert acc. induction paths as [|p ps IH]; intros acc Hacc; simpl.
  - exact Hacc.
  - apply IH. apply from_index_fold_extend; [apply gtest_parsed_grouped|exact Hacc].
Qed.

(** C4. Take a Google Test report that parses.  [doParse] returns a
    dictionary in which every test case is one the index knows, filed under
    the path the index gives for its name: a test case whose qualified name
    the index lacks is in no group, under no key.  The dictionary is the
    one returned for the same report without those test cases, so the
    others are untouched.  When the [time] of every known test case
    converts, the events after the parse are exactly one notice per unknown
    test case, in document order.  The same holds for the whole run: every
    test case of every group that [parse] returns is known to the index and
    filed under the path the index gives. *)
Theorem gtest_unindexed_cases_are_dropped (w : world) (index : dict string string) :
  (forall path root,
      etree_parse w path = Ok root ->
      exists ev d,
        run (GoogleTestReportParser.doParse w path index) = (ev, Done d) /\
        from_index index d /\
        (forall w', etree_parse w' path = Ok (prune index root) ->
                    gtest_parsed w' index path = d) /\
        (times_convert index root ->
         ev = ParseXml path ::
              map (fun n => Print (GoogleTestReportParser.not_in_source n))
                (unindexed_names index root))) /\
  (forall folder pattern src_folder src_pattern ev0 regexp,
      run (GoogleTestReportParser.doParseSrcFolder w src_folder src_pattern)
      = (ev0, Done index) ->
      re_compile w pattern = Ok regexp ->
      exists ev groups,
        run (GoogleTestReportParser.parse w folder pattern src_folder src_pattern)
        = (ev, Done groups) /\
        forall g e,
          In g groups -> In e (SonarTestExcution.test_cases g) ->
          exists file, Dict.get index (TestCase.name e) = Some file /\
                       SonarTestExcution.file_path g = Some file).
Proof.
  split.
  - intros path root Hp.
    destruct (gtest_doParse_total w path index tt) as [ev [d [E [_ [Hfrom _]]]]].
    exists ev, d. split; [unfold run; rewrite E; reflexivity|].
    split; [exact Hfrom|]. split.
    + intros w' Hp'. unfold gtest_parsed, run.
      rewrite gtest_doParse_run in E. rewrite Hp in E.
      rewrite gtest_doParse_run, Hp'.
      destruct (gtest_loop_prune_same_end index root) as [H1 H2].
      destruct (for_each (suites (prune index root))
                  (GoogleTestReportParser.doParse_suite index) []) as [[ev1 d1] c1].
      destruct (for_each (suites root)
                  (GoogleTestReportParser.doParse_suite index) []) as [[ev2 d2] c2].
      simpl in H1, H2. subst.
      destruct c2 as [[]|e|code]; inversion E; subst; reflexivity.
    + intros Hv. destruct (gtest_loop_valid index root Hv) as [d' E'].
      rewrite gtest_doParse_run in E. rewrite Hp, E' in E. inversion E; subst. reflexivity.
  - intros folder pattern src_folder src_pattern ev0 regexp Hidx Hre.
    destruct (gtest_parse_run w folder pattern src_folder src_pattern ev0 index regexp Hidx Hre)
      as [ev [_ E]].
    eexists _, _. split; [exact E|].
    intros g e Hg He.
    destruct (merge_reports_grouped w index (matching_paths w regexp folder) [])
      as [Hn Hk]; [split; [constructor|exact keyed_nil]|].
    unfold Dict.values in Hg. apply in_map_iff in Hg. destruct Hg as [[k g'] [Hs Hin]].
    simpl in Hs. subst g'.
    destruct (from_index_merge_reports w index (matching_paths w regexp folder) []
                (fun k0 g0 e0 H => match H with end) k g e Hin He) as [file [Hf ->]].
    exists file. split; [exact Hf|]. exact (Hk (Some file) g Hin).
Qed.

Lemma gtest_unindexed_cases_are_dropped_witness :
  (exists ev d,
      run (GoogleTestReportParser.doParse Sample.unknown_test_case "reports/r.xml"
             Sample.a_cpp_index) = (ev, Done d) /\
      from_index Sample.a_cpp_index d /\
      (forall w', etree_parse w' "reports/r.xml"
                  = Ok (prune Sample.a_cpp_index Sample.report_with_unknown) ->
                  gtest_parsed w' Sample.a_cpp_index "reports/r.xml" = d) /\
      (times_convert Sample.a_cpp_index Sample.report_with_unknown ->
       ev = ParseXml "reports/r.xml" ::
            map (fun n => Print (GoogleTestReportParser.not_in_source n))
              (unindexed_names Sample.a_cpp_index Sample.report_with_unknown))) /\
  (exists ev groups,
      run (GoogleTestReportParser.parse Sample.unknown_test_case "reports" "xml" "src" "cpp")
      = (ev, Done groups) /\
      forall g e,
        In g groups -> In e (SonarTestExcution.test_cases g) ->
        exists file, Dict.get Sample.a_cpp_index (TestCase.name e) = Some file /\
                     SonarTestExcution.file_path g = Some file).
Proof.
  split.
  - apply (proj1 (gtest_unindexed_cases_are_dropped Sample.unknown_test_case
                    Sample.a_cpp_index)
             "reports/r.xml" Sample.report_with_unknown).
    reflexivity.
  - apply (proj2 (gtest_unindexed_cases_are_dropped Sample.unknown_test_case
                    Sample.a_cpp_index)
             "reports" "xml" "src" "cpp" [Walk "src"; OpenRead "src/a.cpp"]
             (Example.contains_str "xml")).
    + vm_compute. reflexivity.
    + reflexivity.
Defined.

(** The run over that report: the notice for [Foo.t9], and an output with
    [Foo.t1] and [Foo.t2] only. *)
Example gtest_run_with_unknown_test_case :
  run (main Sample.unknown_test_case Sample.gtest_args)
  = ([Walk "src"; OpenRead "src/a.cpp"; Walk "reports"; ParseXml "reports/r.xml";
      Print "Couldn't find test case named Foo.t9 in source code. Skip it.";
      OpenWrite "out.xml";
      WriteDoc "out.xml"
        (Etree.Element "testExecutions" [("version", "1")] None
           [Etree.Element "file" [("path", "src/a.cpp")] None
              [Etree.Element "testCase" [("name", "Foo.t1"); ("duration", "2")] None [];
               Etree.Element "testCase" [("name", "Foo.t2"); ("duration", "4")] None []]])],
     Done tt).
Proof. vm_compute. reflexivity. Qed.

(** ** [strip] *)

Lemma lstrip_spec (s : string) :
  (exists l : string, s = (l ++ lstrip s)%string /\ all_space l) /\
  (forall c, first_char (lstrip s) = Some c -> isspace c = false).
Proof.
  induction s as [|a s [[l [E Hl]] Hf]]; simpl.
  - split; [exists ""; split; [reflexivity|intros c []]|discriminate].
  - destruct (isspace a) eqn:Ha.
    + split; [|exact Hf]. exists (String a l). split.
      * simpl. f_equal. exact E.
      * intros c [<-|Hc]; [exact Ha|exact (Hl c Hc)].
    + split; [exists ""; split; [reflexivity|intros c []]|].
      simpl. intros c Hc. inversion Hc; subst. exact Ha.
Qed.

Lemma rstrip_spec (s : string) :
  (exists r : string, s = (rstrip s ++ r)%string /\ all_space r) /\
  (forall c, last_char (rstrip s) = Some c -> isspace c = false) /\
  (forall c, first_char (rstrip s) = Some c -> first_char s = Some c).
Proof.
  induction s as [|a s [[r [E Hr]] [Hl Hf]]]; simpl.
  - split; [exists ""; split; [reflexivity|intros c []]|]. split; discriminate.
  - destruct (rstrip s) as [|b t] eqn:Hrs.
    + simpl in E. destruct (isspace a) eqn:Ha.
      * split; [|split; discriminate]. exists (String a r). split.
        -- simpl. f_equal. exact E.
        -- intros c [<-|Hc]; [exact Ha|exact (Hr c Hc)].
      * split; [exists r; split; [simpl; f_equal; exact E|exact Hr]|].
        split; simpl; intros c Hc; inversion Hc; subst; [exact Ha|reflexivity].
    + split; [exists r; split; [simpl; f_equal; exact E|exact Hr]|].
      split; [|simpl; auto].
      intros c Hc. apply Hl. exact Hc.
Qed.

Lemma strip_spec (g : string) : stripped_of g (strip g).
Proof.
  unfold strip, stripped_of.
  destruct (lstrip_spec g) as [[l [El Hl]] Hf].
  destruct (rstrip_spec (lstrip g)) as [[r [Er Hr]] [Hlast Hfirst]].
  split; [|split].
  - exists l, r. split; [|split; assumption]. rewrite <- Er. exact El.
  - intros c Hc. apply Hf. apply Hfirst. exact Hc.
  - exact Hlast.
Qed.

(** ** Groups of a match *)

Lemma match_here_groups (re : Re.regex) :
  forall s pos opened caps r,
    Re.match_here re s pos opened caps = Some r ->
    List.length r = List.length caps + closes re.
Proof.
  induction re as [|it re IH]; intros s pos opened caps r; simpl.
  - intros E. inversion E; subst. rewrite length_rev. lia.
  - destruct it as [a|a|a| |].
    + destruct s as [|c s]; [discriminate|].
      destruct (Re.atom_matches a c); [apply IH|discriminate].
    + generalize (Re.run_length a s). intros k. induction k as [|k IHk].
      * destruct (Re.match_here re (Re.skip 0 s) (pos + 0) opened caps) eqn:E;
          [|discriminate].
        intros E'. inversion E'; subst. exact (IH _ _ _ _ _ E).
      * destruct (Re.match_here re (Re.skip (S k) s) (pos + S k) opened caps) eqn:E.
        -- intros E'. inversion E'; subst. exact (IH _ _ _ _ _ E).
        -- exact IHk.
    + generalize (Re.run_length a s). intros k. induction k as [|k IHk]; [discriminate|].
      destruct (Re.match_here re (Re.skip (S k) s) (pos + S k) opened caps) eqn:E.
      * intros E'. inversion E'; subst. exact (IH _ _ _ _ _ E).
      * exact IHk.
    + apply IH.
    + destruct opened as [|start opened]; [discriminate|].
      intros E. rewrite (IH _ _ _ _ _ E). simpl. lia.
Qed.

Lemma search_groups (re : Re.regex) (s : string) (groups : list string) :
  Re.search re s = Some groups -> List.length groups = closes re.
Proof.
  induction s as [|c s IH]; simpl.
  - destruct (Re.match_here re "" 0 [] []) as [caps|] eqn:E; [|discriminate].
    intros E'. inversion E'; subst. rewrite length_map.
    exact (match_here_groups re _ _ _ _ _ E).
  - destruct (Re.match_here re (String c s) 0 [] []) as [caps|] eqn:E; [|exact IH].
    intros E'. inversion E'; subst. rewrite length_map.
    exact (match_here_groups re _ _ _ _ _ E).
Qed.

(** The key of a line: the two groups of the match, each stripped, joined
    by a dot. *)
Lemma line_key_groups (line key : string) :
  GoogleTestReportParser.line_key line = Some key ->
  exists g1 g2,
    Re.search GTEST_RE line = Some [g1; g2] /\
    key = (strip g1 ++ "." ++ strip g2)%string.
Proof.
  unfold GoogleTestReportParser.line_key.
  destruct (Re.search GTEST_RE line) as [groups|] eqn:E; [|discriminate].
  pose proof (search_groups GTEST_RE line groups E) as Hlen.
  destruct groups as [|g1 [|g2 [|g3 groups]]]; try discriminate.
  intros K. inversion K; subst. exists g1, g2. split; reflexivity.
Qed.

(** *** The matcher, item by item *)

Lemma match_one a re s pos opened caps r :
  Re.match_here (Re.One a :: re) s pos opened caps = Some r ->
  exists c s', s = String c s' /\ Re.atom_matches a c = true /\
               Re.match_here re s' (S pos) opened caps = Some r.
Proof.
  simpl. destruct s as [|c s']; [discriminate|].
  destruct (Re.atom_matches a c) eqn:E; [|discriminate]. eauto.
Qed.

(** A starred atom: the count used is the largest one for which the rest
    of the pattern matches. *)
Lemma match_star a re s pos opened caps r :
  Re.match_here (Re.Star a :: re) s pos opened caps = Some r ->
  exists k, k <= Re.run_length a s /\
            Re.match_here re (Re.skip k s) (pos + k) opened caps = Some r /\
            forall k', k < k' -> k' <= Re.run_length a s ->
                       Re.match_here re (Re.skip k' s) (pos + k') opened caps = None.
Proof.
  simpl. generalize (Re.run_length a s). intros n. induction n as [|n IH].
  - destruct (Re.match_here re (Re.skip 0 s) (pos + 0) opened caps) eqn:E; [|discriminate].
    intros R. inversion R; subst. exists 0. split; [lia|]. split; [exact E|]. intros; lia.
  - destruct (Re.match_here re (Re.skip (S n) s) (pos + S n) opened caps) eqn:E.
    + intros R. inversion R; subst. exists (S n). split; [lia|]. split; [exact E|].
      intros; lia.
    + intros R. destruct (IH R) as [k [Hk [Hm Hmax]]]. exists k. split; [lia|].
      split; [exact Hm|]. intros k' Hlt Hle.
      destruct (Nat.eq_dec k' (S n)) as [->|Hne]; [exact E|]. apply Hmax; lia.
Qed.

Lemma match_plus a re s pos opened caps r :
  Re.match_here (Re.Plus a :: re) s pos opened caps = Some r ->
  exists k, 1 <= k /\ k <= Re.run_length a s /\
            Re.match_here re (Re.skip k s) (pos + k) opened caps = Some r /\
            forall k', k < k' -> k' <= Re.run_length a s ->
                       Re.match_here re (Re.skip k' s) (pos + k') opened caps = None.
Proof.
  simpl. generalize (Re.run_length a s). intros n. induction n as [|n IH]; [discriminate|].
  destruct (Re.match_here re (Re.skip (S n) s) (pos + S n) opened caps) eqn:E.
  - intros R. inversion R; subst. exists (S n). split; [lia|]. split; [lia|].
    split; [exact E|]. intros; lia.
  - intros R. destruct (IH R) as [k [H1 [Hk [Hm Hmax]]]]. exists k. split; [lia|].
    split; [lia|]. split; [exact Hm|]. intros k' Hlt Hle.
    destruct (Nat.eq_dec k' (S n)) as [->|Hne]; [exact E|]. apply Hmax; lia.
Qed.

(** Backtracking misses no match. *)
Lemma match_here_complete (re : Re.regex) :
  forall s pos opened caps,
    nested re (List.length opened) = true ->
    accepts re s ->
    exists r, Re.match_here re s pos opened caps = Some r.
Proof.
  induction re as [|it re IH]; intros s pos opened caps Hn Ha.
  - simpl. eauto.
  - destruct it as [a|a|a| |]; simpl in Hn, Ha.
    + destruct Ha as [c [s' [-> [Hm Ha]]]]. simpl. rewrite Hm. apply IH; assumption.
    + destruct Ha as [k [Hk Ha]]. simpl.
      revert Hk. generalize (Re.run_length a s). intros n. induction n as [|n IHn]; intros Hk.
      * assert (k = 0) by lia. subst.
        destruct (IH (Re.skip 0 s) (pos + 0) opened caps Hn Ha) as [r E].
        rewrite E. eauto.
      * destruct (Re.match_here re (Re.skip (S n) s) (pos + S n) opened caps) eqn:E;
          [eauto|].
        destruct (Nat.eq_dec k (S n)) as [->|Hne].
        -- destruct (IH (Re.skip (S n) s) (pos + S n) opened caps Hn Ha) as [r E'].
           congruence.
        -- apply IHn. lia.
    + destruct Ha as [k [H1 [Hk Ha]]]. simpl.
      revert Hk. generalize (Re.run_length a s). intros n. induction n as [|n IHn]; intros Hk;
        [lia|].
      destruct (Re.match_here re (Re.skip (S n) s) (pos + S n) opened caps) eqn:E; [eauto|].
      destruct (Nat.eq_dec k (S n)) as [->|Hne].
      * destruct (IH (Re.skip (S n) s) (pos + S n) opened caps Hn Ha) as [r E']. congruence.
      * apply IHn. lia.
    + simpl. apply IH; assumption.
    + destruct opened as [|start opened]; [discriminate|]. simpl. apply IH; assumption.
Qed.

Lemma search_complete (re : Re.regex) (pre rest : string) :
  nested re 0 = true -> accepts re rest ->
  exists groups, Re.search re (pre ++ rest)%string = Some groups.
Proof.
  intros Hn Ha. induction pre as [|c pre IH]; simpl.
  - destruct (match_here_complete re rest 0 [] [] Hn Ha) as [r E].
    destruct rest; simpl; rewrite E; eauto.
  - destruct (Re.match_here re (String c (pre ++ rest)) 0 [] []); [eauto|exact IH].
Qed.

Lemma search_sound (re : Re.regex) (s : string) (groups : list string) :
  Re.search re s = Some groups ->
  exists pre rest caps,
    s = (pre ++ rest)%string /\
    Re.match_here re rest 0 [] [] = Some caps /\
    groups = map (fun '(b, e) => substring b (e - b) rest) caps.
Proof.
  induction s as [|c s IH]; simpl.
  - destruct (Re.match_here re "" 0 [] []) as [caps|] eqn:E; [|discriminate].
    intros G. inversion G; subst. exists "", "", caps. auto.
  - destruct (Re.match_here re (String c s) 0 [] []) as [caps|] eqn:E.
    + intros G. inversion G; subst. exists "", (String c s), caps. auto.
    + intros G. destruct (IH G) as [pre [rest [caps [-> [Hm Hg]]]]].
      exists (String c pre), rest, caps. auto.
Qed.

(** *** Runs of characters *)

Lemma run_split (k : nat) (s : string) :
  k <= Re.run_length Re.Dot s ->
  exists mid : string,
    s = (mid ++ Re.skip k s)%string /\ String.length mid = k /\ one_line mid = true.
Proof.
  revert s. induction k as [|k IH]; intros s Hk.
  - exists EmptyString. split; [destruct s; reflexivity|]. split; reflexivity.
  - destruct s as [|c s]; simpl in Hk; [lia|].
    destruct (Ascii.eqb c Re.newline) eqn:Hc; simpl in Hk; [lia|].
    destruct (IH s ltac:(lia)) as [mid [E [Hl Ho]]].
    exists (String c mid). split; [simpl; f_equal; exact E|]. split; [simpl; lia|].
    simpl. rewrite Hc, Ho. reflexivity.
Qed.

Lemma run_join (mid rest : string) :
  one_line mid = true ->
  String.length mid <= Re.run_length Re.Dot (mid ++ rest)%string /\
  Re.skip (String.length mid) (mid ++ rest)%string = rest.
Proof.
  induction mid as [|c mid IH]; simpl; intros Ho.
  - split; [lia|destruct rest; reflexivity].
  - apply andb_true_iff in Ho. destruct Ho as [Hc Ho]. rewrite Hc.
    destruct (IH Ho) as [H1 H2]. split; [lia|exact H2].
Qed.

Lemma one_line_app (a b : string) :
  one_line a = true -> one_line b = true -> one_line (a ++ b)%string = true.
Proof.
  induction a as [|c a IH]; simpl; intros Ha Hb; [exact Hb|].
  apply andb_true_iff in Ha. destruct Ha as [Hc Ha]. rewrite Hc, (IH Ha Hb). reflexivity.
Qed.

Lemma close_on_line (s : string) :
  no_close_on_line s = false ->
  exists p1 p2 : string, s = (p1 ++ ")" ++ p2)%string /\ one_line p1 = true.
Proof.
  induction s as [|c s IH]; simpl; [discriminate|].
  destruct (Ascii.eqb c Re.newline) eqn:Hn; [discriminate|].
  destruct (Ascii.eqb c ")") eqn:Hc.
  - intros _. apply Ascii.eqb_eq in Hc. subst. exists EmptyString, s. split; reflexivity.
  - intros H. destruct (IH H) as [p1 [p2 [-> Ho]]]. exists (String c p1), p2.
    split; [reflexivity|]. simpl. rewrite Hn, Ho. reflexivity.
Qed.

Lemma substring_middle (a g rest : string) :
  substring (String.length a) (String.length g) (a ++ g ++ rest)%string = g.
Proof.
  induction a as [|c a IH]; simpl.
  - induction g as [|d g IHg]; simpl; [destruct rest; reflexivity|].
    f_equal. exact IHg.
  - exact IH.
Qed.

Lemma substring_at (a g rest x : string) (n m : nat) :
  x = (a ++ g ++ rest)%string -> n = String.length a -> m = n + String.length g ->
  substring n (m - n) x = g.
Proof.
  intros -> -> ->. replace (String.length a + String.length g - String.length a)
    with (String.length g) by lia.
  apply substring_middle.
Qed.

Lemma length_append (a b : string) :
  String.length (a ++ b)%string = String.length a + String.length b.
Proof. induction a as [|c a IH]; simpl; [reflexivity|]. rewrite IH. reflexivity. Qed.

Lemma append_assoc (a b c : string) : ((a ++ b) ++ c = a ++ b ++ c)%string.
Proof. induction a as [|x a IH]; simpl; [reflexivity|]. f_equal. exact IH. Qed.

(** *** [GTEST_RE] *)

Lemma lit_matches (x c : ascii) : Re.atom_matches (Re.Lit x) c = true -> c = x.
Proof. simpl. intros H. apply Ascii.eqb_eq in H. congruence. Qed.

(** A match of [GTEST_RE] at the start of [rest]: the text it covers, its
    two groups, and what follows it. *)
Lemma gtest_match_shape (rest : string) (caps : list (nat * nat)) :
  Re.match_here GTEST_RE rest 0 [] [] = Some caps ->
  exists mid g1 g2 post : string,
    rest = ("TEST" ++ mid ++ "(" ++ g1 ++ "," ++ g2 ++ ")" ++ post)%string /\
    one_line mid = true /\ one_line g1 = true /\ one_line g2 = true /\
    g1 <> EmptyString /\ g2 <> EmptyString /\
    no_close_on_line post = true /\
    map (fun '(b, e) => substring b (e - b) rest) caps = [g1; g2].
Proof.
  unfold GTEST_RE. intros H.
  apply match_one in H. destruct H as [c1 [s1 [-> [H1 H]]]]. apply lit_matches in H1.
  apply match_one in H. destruct H as [c2 [s2 [-> [H2 H]]]]. apply lit_matches in H2.
  apply match_one in H. destruct H as [c3 [s3 [-> [H3 H]]]]. apply lit_matches in H3.
  apply match_one in H. destruct H as [c4 [s4 [-> [H4 H]]]]. apply lit_matches in H4.
  subst c1 c2 c3 c4.
  apply match_star in H. destruct H as [k [Hk [H _]]].
  apply match_one in H. destruct H as [c5 [s5 [E5 [H5 H]]]]. apply lit_matches in H5.
  subst c5.
  change (Re.match_here (Re.Plus Re.Dot :: Re.GroupClose :: Re.One (Re.Lit ",")
            :: Re.GroupOpen :: Re.Plus Re.Dot :: Re.GroupClose :: [Re.One (Re.Lit ")")])
            s5 (S (4 + k)) [S (4 + k)] [] = Some caps) in H.
  apply match_plus in H. destruct H as [j [Hj1 [Hj [H _]]]].
  change (Re.match_here (Re.One (Re.Lit ",")
            :: Re.GroupOpen :: Re.Plus Re.Dot :: Re.GroupClose :: [Re.One (Re.Lit ")")])
            (Re.skip j s5) (S (4 + k) + j) [] [(S (4 + k), S (4 + k) + j)] = Some caps) in H.
  apply match_one in H. destruct H as [c6 [s6 [E6 [H6 H]]]]. apply lit_matches in H6.
  subst c6.
  change (Re.match_here (Re.Plus Re.Dot :: Re.GroupClose :: [Re.One (Re.Lit ")")])
            s6 (S (S (4 + k) + j)) [S (S (4 + k) + j)] [(S (4 + k), S (4 + k) + j)]
          = Some caps) in H.
  apply match_plus in H. destruct H as [l [Hl1 [Hl [H Hmax]]]].
  change (Re.match_here [Re.One (Re.Lit ")")] (Re.skip l s6) (S (S (4 + k) + j) + l) []
            [(S (S (4 + k) + j), S (S (4 + k) + j) + l); (S (4 + k), S (4 + k) + j)]
          = Some caps) in H.
  apply match_one in H. destruct H as [c7 [s7 [E7 [H7 H]]]]. apply lit_matches in H7.
  subst c7. simpl in H. inversion H; subst caps; clear H.
  destruct (run_split k s4 Hk) as [mid [Emid [Lmid Omid]]].
  destruct (run_split j s5 Hj) as [g1 [Eg1 [Lg1 Og1]]].
  destruct (run_split l s6 Hl) as [g2 [Eg2 [Lg2 Og2]]].
  rewrite E7 in Eg2. rewrite E6 in Eg1. rewrite E5 in Emid.
  exists mid, g1, g2, s7.
  assert (E4 : s4 = (mid ++ "(" ++ g1 ++ "," ++ g2 ++ ")" ++ s7)%string).
  { rewrite Emid at 1. simpl. rewrite Eg1 at 1. simpl. rewrite Eg2 at 1. reflexivity. }
  split; [simpl; rewrite E4 at 1; reflexivity|].
  split; [exact Omid|]. split; [exact Og1|]. split; [exact Og2|].
  split; [intros ->; simpl in Lg1; lia|]. split; [intros ->; simpl in Lg2; lia|].
  split.
  - destruct (no_close_on_line s7) eqn:Hc; [reflexivity|exfalso].
    destruct (close_on_line s7 Hc) as [p1 [p2 [Ep Op]]].
    assert (Ho : one_line (g2 ++ ")" ++ p1)%string = true).
    { apply one_line_app; [exact Og2|]. simpl. exact Op. }
    destruct (run_join (g2 ++ ")" ++ p1)%string (")" ++ p2)%string Ho) as [Hle Hsk].
    assert (E6' : s6 = ((g2 ++ ")" ++ p1) ++ ")" ++ p2)%string).
    { rewrite Eg2 at 1. rewrite Ep. rewrite append_assoc. reflexivity. }
    rewrite <- E6' in Hle, Hsk. rewrite length_append in Hle, Hsk. simpl in Hle, Hsk.
    rewrite Lg2 in Hle, Hsk.
    specialize (Hmax (l + S (String.length p1)) ltac:(lia) Hle).
    rewrite Hsk in Hmax. simpl in Hmax. discriminate.
  - cbn [map]. f_equal; [|f_equal].
    + apply (substring_at ("TEST" ++ mid ++ "(") g1 ("," ++ g2 ++ ")" ++ s7)).
      * rewrite E4 at 1. simpl. rewrite append_assoc. reflexivity.
      * simpl. rewrite length_append. simpl. lia.
      * lia.
    + apply (substring_at ("TEST" ++ mid ++ "(" ++ g1 ++ ",") g2 (")" ++ s7)).
      * rewrite E4 at 1. simpl. rewrite !append_assoc. simpl. rewrite append_assoc.
        reflexivity.
      * simpl. rewrite !length_append. simpl. rewrite length_append. simpl. lia.
      * lia.
Qed.

(** A text of the shape is accepted by [GTEST_RE]. *)
Lemma gtest_shape_accepted (mid g1 g2 post : string) :
  one_line mid = true -> one_line g1 = true -> one_line g2 = true ->
  g1 <> EmptyString -> g2 <> EmptyString ->
  accepts GTEST_RE ("TEST" ++ mid ++ "(" ++ g1 ++ "," ++ g2 ++ ")" ++ post)%string.
Proof.
  intros Om O1 O2 N1 N2. unfold GTEST_RE.
  do 4 (eexists; eexists; split; [reflexivity|]; split; [reflexivity|]).
  destruct (run_join mid ("(" ++ g1 ++ "," ++ g2 ++ ")" ++ post)%string Om) as [Hle Hsk].
  exists (String.length mid). split; [exact Hle|]. rewrite Hsk.
  eexists; eexists; split; [reflexivity|]; split; [reflexivity|].
  destruct (run_join g1 ("," ++ g2 ++ ")" ++ post)%string O1) as [Hle1 Hsk1].
  exists (String.length g1). split; [destruct g1; [congruence|simpl; lia]|].
  split; [exact Hle1|]. rewrite Hsk1.
  eexists; eexists; split; [reflexivity|]; split; [reflexivity|].
  destruct (run_join g2 (")" ++ post)%string O2) as [Hle2 Hsk2].
  exists (String.length g2). split; [destruct g2; [congruence|simpl; lia]|].
  split; [exact Hle2|]. rewrite Hsk2.
  eexists; eexists; split; [reflexivity|]; split; [reflexivity|]. exact I.
Qed.

(** ** Building the source index *)

Lemma scan_lines_run (file_path : string) (lines : list string) d :
  for_each lines (GoogleTestReportParser.scan_line file_path) d =
  ([], record_hits (line_hits file_path lines) d, Done tt).
Proof.
  unfold record_hits, line_hits. revert d.
  induction lines as [|line lines IH]; intros d; simpl; [reflexivity|].
  unfold bind, GoogleTestReportParser.scan_line at 1.
  destruct (GoogleTestReportParser.line_key line) as [key|]; simpl; rewrite IH; reflexivity.
Qed.

Lemma record_hits_app hs hs' d :
  record_hits (hs ++ hs') d = record_hits hs' (record_hits hs d).
Proof. unfold record_hits. apply fold_left_app. Qed.

Lemma scan_files_run (w : world) (regexp : string -> bool) dirName fileList d :
  (forall fileName, In fileName fileList -> regexp fileName = true ->
     exists lines, read_lines w (OsPath.join dirName fileName) = Ok lines) ->
  for_each fileList (GoogleTestReportParser.scan_file w regexp dirName) d =
  (map OpenRead (map (OsPath.join dirName) (filter regexp fileList)),
   record_hits
     (flat_map (fun path => line_hits path (file_lines w path))
        (map (OsPath.join dirName) (filter regexp fileList))) d,
   Done tt).
Proof.
  revert d. induction fileList as [|f fs IH]; intros d Hr; simpl; [reflexivity|].
  unfold bind, GoogleTestReportParser.scan_file at 1.
  destruct (regexp f) eqn:Hf; simpl.
  - destruct (Hr f (or_introl eq_refl) Hf) as [lines Hl].
    unfold bind, call. rewrite Hl. simpl. rewrite scan_lines_run.
    rewrite IH by (intros y Hy; apply Hr; right; exact Hy).
    unfold file_lines at 2. rewrite Hl. rewrite record_hits_app. reflexivity.
  - rewrite IH by (intros y Hy; apply Hr; right; exact Hy). reflexivity.
Qed.

Lemma scan_walk_run (w : world) (regexp : string -> bool)
    (entries : list (string * list string * list string)) d :
  let paths :=
    flat_map (fun entry : string * list string * list string =>
                let '(dirName, _, fileList) := entry in
                map (OsPath.join dirName) (filter regexp fileList)) entries in
  (forall path, In path paths -> exists lines, read_lines w path = Ok lines) ->
  for_each entries (GoogleTestReportParser.scan_dir w regexp) d =
  (map OpenRead paths,
   record_hits (flat_map (fun path => line_hits path (file_lines w path)) paths) d,
   Done tt).
Proof.
  cbv zeta. revert d. induction entries as [|[[dirName subdirList] fileList] entries IH];
    intros d Hr; simpl; [reflexivity|].
  unfold bind, GoogleTestReportParser.scan_dir at 1.
  rewrite scan_files_run.
  - rewrite IH.
    + rewrite map_app, flat_map_app, record_hits_app. reflexivity.
    + intros path Hp. apply Hr. simpl. apply in_or_app. right. exact Hp.
  - intros f Hin Hf. apply Hr. simpl. apply in_or_app. left.
    apply in_map. apply filter_In. split; assumption.
Qed.

Lemma find_app {A : Type} (f : A -> bool) (l1 l2 : list A) :
  find f (l1 ++ l2) = match find f l1 with Some x => Some x | None => find f l2 end.
Proof.
  induction l1 as [|a l1 IH]; simpl; [reflexivity|].
  destruct (f a); [reflexivity|exact IH].
Qed.

(** Assigning in order leaves each key with the path assigned last. *)
Lemma get_record_hits hits d key :
  Dict.get (record_hits hits d) key =
  match last_hit key hits with
  | Some path => Some path
  | None => Dict.get d key
  end.
Proof.
  unfold record_hits, last_hit. revert d.
  induction hits as [|[k p] hits IH]; intros d; simpl; [reflexivity|].
  rewrite IH, find_app. simpl.
  destruct (find (fun h => String.eqb (fst h) key) (rev hits)) as [h|]; [reflexivity|].
  rewrite get_set. destruct (String.eqb_spec k key) as [->|Hne]; simpl.
  - destruct (eq_dec key key); [reflexivity|congruence].
  - destruct (eq_dec k key); [congruence|reflexivity].
Qed.

Lemma last_hit_In key hits path :
  last_hit key hits = Some path -> In (key, path) hits.
Proof.
  unfold last_hit. destruct (find _ (rev hits)) as [[k p]|] eqn:E; [|discriminate].
  simpl. intros P. inversion P; subst.
  apply find_some in E. destruct E as [Hin Hk]. simpl in Hk.
  apply String.eqb_eq in Hk. subst. apply in_rev. exact Hin.
Qed.

Lemma last_hit_some key hits path :
  In (key, path) hits -> exists path', last_hit key hits = Some path'.
Proof.
  intros Hin. unfold last_hit.
  destruct (find (fun h => String.eqb (fst h) key) (rev hits)) as [h|] eqn:E.
  - exists (snd h). reflexivity.
  - exfalso. apply in_rev in Hin.
    pose proof (find_none _ _ E _ Hin) as Hn. simpl in Hn.
    rewrite String.eqb_refl in Hn. discriminate.
Qed.

Lemma source_hits_origin (w : world) (regexp : string -> bool) folder key path :
  In (key, path) (source_hits w regexp folder) ->
  In path (matching_paths w regexp folder) /\
  exists line, In line (file_lines w path) /\
               GoogleTestReportParser.line_key line = Some key.
Proof.
  unfold source_hits, line_hits. intros Hin.
  apply in_flat_map in Hin. destruct Hin as [p [Hp Hin]].
  apply in_flat_map in Hin. destruct Hin as [line [Hline Hin]].
  destruct (GoogleTestReportParser.line_key line) as [k|] eqn:Hk; [|destruct Hin].
  destruct Hin as [E|[]]. inversion E; subst. split; [exact Hp|].
  exists line. split; assumption.
Qed.

Lemma last_hit_app key hs hs' :
  last_hit key (hs ++ hs') =
  match last_hit key hs' with
  | Some path => Some path
  | None => last_hit key hs
  end.
Proof.
  unfold last_hit. rewrite rev_app_distr, find_app.
  destruct (find _ (rev hs')); reflexivity.
Qed.

Lemma last_hit_none key hits path : last_hit key hits = None -> ~ In (key, path) hits.
Proof.
  intros Hn Hin. destruct (last_hit_some key hits path Hin) as [p E]. congruence.
Qed.

(** A line on which [GTEST_RE] finds two groups gives the key made of
    them, and a key comes from such a line only. *)
Lemma line_key_search (line key : string) :
  GoogleTestReportParser.line_key line = Some key <->
  exists g1 g2, Re.search GTEST_RE line = Some [g1; g2] /\
                key = (strip g1 ++ "." ++ strip g2)%string.
Proof.
  split; [apply line_key_groups|].
  intros [g1 [g2 [Hs ->]]]. unfold GoogleTestReportParser.line_key. rewrite Hs. reflexivity.
Qed.

Lemma line_hits_declares (w : world) (path path' key : string) :
  In (key, path') (line_hits path (file_lines w path)) <->
  path' = path /\ declares_key w path key.
Proof.
  unfold line_hits, declares_key. rewrite in_flat_map. split.
  - intros [line [Hline Hin]].
    destruct (GoogleTestReportParser.line_key line) as [k|] eqn:Hk; [|destruct Hin].
    destruct Hin as [E|[]]. inversion E; subst. split; [reflexivity|].
    apply line_key_search in Hk. destruct Hk as [g1 [g2 [Hs Hkey]]].
    exists line, g1, g2. auto.
  - intros [-> [line [g1 [g2 [Hline [Hs Hkey]]]]]]. exists line. split; [exact Hline|].
    rewrite (proj2 (line_key_search line key)) by eauto. left. reflexivity.
Qed.

Lemma source_hits_declares (w : world) (regexp : string -> bool) folder key path :
  In (key, path) (source_hits w regexp folder) <->
  In path (matching_paths w regexp folder) /\ declares_key w path key.
Proof.
  unfold source_hits. rewrite in_flat_map. split.
  - intros [p [Hp Hin]]. apply line_hits_declares in Hin. destruct Hin as [-> Hd]. auto.
  - intros [Hp Hd]. exists path. split; [exact Hp|]. apply line_hits_declares. auto.
Qed.

(** The path a key ends with is that of the last file, in scanning order,
    with a line that gives the key. *)
Lemma last_hit_last_file (w : world) (paths : list string) key path :
  last_hit key (flat_map (fun p => line_hits p (file_lines w p)) paths) = Some path ->
  exists before after,
    paths = before ++ path :: after /\ declares_key w path key /\
    forall p, In p after -> ~ declares_key w p key.
Proof.
  induction paths as [|p ps IH]; simpl; [discriminate|].
  rewrite last_hit_app.
  destruct (last_hit key (flat_map (fun p => line_hits p (file_lines w p)) ps)) as [q|] eqn:E.
  - intros Q. inversion Q; subst.
    destruct (IH eq_refl) as [before [after [-> [Hd Hafter]]]].
    exists (p :: before), after. auto.
  - intros Hp. apply last_hit_In in Hp. apply line_hits_declares in Hp.
    destruct Hp as [-> Hd]. exists [], ps. split; [reflexivity|]. split; [exact Hd|].
    intros p' Hin Hd'. apply (last_hit_none key _ p' E).
    apply in_flat_map. exists p'. split; [exact Hin|]. apply line_hits_declares. auto.
Qed.

(** A line of the shape of a declaration is one on which [GTEST_RE] finds
    two groups, and these split the line in that shape. *)
Lemma declaration_found (line pre mid g1 g2 post : string) :
  declares line pre mid g1 g2 post ->
  exists a b, Re.search GTEST_RE line = Some [a; b] /\
              exists pre' mid' post', declares line pre' mid' a b post'.
Proof.
  intros [-> [Om [O1 [O2 [N1 N2]]]]].
  destruct (search_complete GTEST_RE pre _ eq_refl
              (gtest_shape_accepted mid g1 g2 post Om O1 O2 N1 N2)) as [groups Hs].
  destruct (search_sound GTEST_RE _ groups Hs) as [pre' [rest [caps [E [Hm Hg]]]]].
  destruct (gtest_match_shape rest caps Hm)
    as [mid' [a [b [post' [-> [Om' [Oa [Ob [Na [Nb [_ Hcaps]]]]]]]]]]].
  rewrite Hcaps in Hg. subst groups. exists a, b. split; [exact Hs|].
  exists pre', mid', post'. split; [exact E|]. auto.
Qed.

(** C8. When the file pattern compiles and every matching source file can
    be read, the scan opens those files in the order of the walk and
    returns an index in which each key has the path of the last scanned
    line that produced it: a key met in several files has the path of the
    file scanned last, a key met in one file only has that file's path.
    Every key is made of the two groups of [GTEST_RE]'s match in its line,
    each without its leading and trailing whitespace, joined by a dot.
    Nothing that matches is left out: every line of a scanned file on which
    [GTEST_RE] finds its two groups has its key in the index, and so has
    every line of the shape of a declaration ([TEST], an opening
    parenthesis, two non-empty arguments around a comma, a closing
    parenthesis, on one line). *)
Theorem source_index_last_scanned_wins
    (w : world) (folder pattern : string) (regexp : string -> bool) :
  re_compile w pattern = Ok regexp ->
  (forall path, In path (matching_paths w regexp folder) ->
     exists lines, read_lines w path = Ok lines) ->
  exists index,
    run (GoogleTestReportParser.doParseSrcFolder w folder pattern)
    = (Walk folder :: map OpenRead (matching_paths w regexp folder), Done index) /\
    (forall key, Dict.get index key = last_hit key (source_hits w regexp folder)) /\
    (forall key path,
        In (key, path) (source_hits w regexp folder) ->
        (forall path', In (key, path') (source_hits w regexp folder) -> path' = path) ->
        Dict.get index key = Some path) /\
    (forall key path,
        In (key, path) (source_hits w regexp folder) ->
        exists line g1 g2,
          In line (file_lines w path) /\
          Re.search GTEST_RE line = Some [g1; g2] /\
          key = (strip g1 ++ "." ++ strip g2)%string /\
          stripped_of g1 (strip g1) /\ stripped_of g2 (strip g2)) /\
    (forall path line g1 g2,
        In path (matching_paths w regexp folder) ->
        In line (file_lines w path) ->
        Re.search GTEST_RE line = Some [g1; g2] ->
        exists path', Dict.get index (strip g1 ++ "." ++ strip g2)%string = Some path') /\
    (forall key path,
        Dict.get index key = Some path ->
        exists before after,
          matching_paths w regexp folder = before ++ path :: after /\
          declares_key w path key /\
          forall p, In p after -> ~ declares_key w p key) /\
    (forall key path,
        In path (matching_paths w regexp folder) ->
        declares_key w path key ->
        (forall path', In path' (matching_paths w regexp folder) ->
                       declares_key w path' key -> path' = path) ->
        Dict.get index key = Some path) /\
    (forall path line pre mid g1 g2 post,
        In path (matching_paths w regexp folder) ->
        In line (file_lines w path) ->
        declares line pre mid g1 g2 post ->
        exists a b path',
          Dict.get index (strip a ++ "." ++ strip b)%string = Some path' /\
          exists pre' mid' post', declares line pre' mid' a b post').
Proof.
  intros Hre Hread.
  exists (record_hits (source_hits w regexp folder) []).
  assert (Hget : forall key,
             Dict.get (record_hits (source_hits w regexp folder) []) key
             = last_hit key (source_hits w regexp folder)).
  { intros key. rewrite get_record_hits.
    destruct (last_hit key (source_hits w regexp folder)); reflexivity. }
  assert (Hrec : forall path key,
             In path (matching_paths w regexp folder) -> declares_key w path key ->
             exists path',
               Dict.get (record_hits (source_hits w regexp folder) []) key = Some path').
  { intros path key Hp Hd. rewrite Hget.
    apply (last_hit_some key _ path). apply source_hits_declares. auto. }
  assert (Hlast : forall key path,
             Dict.get (record_hits (source_hits w regexp folder) []) key = Some path ->
             exists before after,
               matching_paths w regexp folder = before ++ path :: after /\
               declares_key w path key /\
               forall p, In p after -> ~ declares_key w p key).
  { intros key path Hg. rewrite Hget in Hg. exact (last_hit_last_file w _ key path Hg). }
  split; [|split; [exact Hget|split; [|split; [|split; [|split; [exact Hlast|split]]]]]].
  - unfold run, GoogleTestReportParser.doParseSrcFolder, returning, bind, lift, emit.
    rewrite Hre. simpl completion_of. cbv iota.
    rewrite (scan_walk_run w regexp (os_walk w folder) [] Hread). reflexivity.
  - intros key path Hin Honly. rewrite Hget.
    destruct (last_hit_some key _ path Hin) as [path' E]. rewrite E.
    f_equal. apply Honly. apply last_hit_In. exact E.
  - intros key path Hin.
    destruct (source_hits_origin w regexp folder key path Hin) as [_ [line [Hline Hk]]].
    destruct (line_key_groups line key Hk) as [g1 [g2 [Hs ->]]].
    exists line, g1, g2. split; [exact Hline|]. split; [exact Hs|].
    split; [reflexivity|]. split; apply strip_spec.
  - intros path line g1 g2 Hp Hline Hs. apply (Hrec path _ Hp).
    exists line, g1, g2. auto.
  - intros key path Hp Hd Honly. destruct (Hrec path key Hp Hd) as [path' Hg].
    rewrite Hg. f_equal.
    destruct (Hlast key path' Hg) as [before [after [E [Hd' _]]]].
    apply Honly; [|exact Hd']. rewrite E. apply in_or_app. right. left. reflexivity.
  - intros path line pre mid g1 g2 post Hp Hline Hdecl.
    destruct (declaration_found line pre mid g1 g2 post Hdecl) as [a [b [Hs Hshape]]].
    destruct (Hrec path (strip a ++ "." ++ strip b)%string Hp) as [path' Hg].
    { exists line, a, b. auto. }
    exists a, b, path'. split; [exact Hg|exact Hshape].
Qed.

Lemma source_index_last_scanned_wins_witness :
  exists index,
    run (GoogleTestReportParser.doParseSrcFolder Sample.same_key_twice "src" "cpp")
    = (Walk "src" ::
       map OpenRead (matching_paths Sample.same_key_twice (Example.contains_str "cpp") "src"),
       Done index) /\
    (forall key,
        Dict.get index key
        = last_hit key (source_hits Sample.same_key_twice (Example.contains_str "cpp") "src")) /\
    (forall key path,
        In (key, path) (source_hits Sample.same_key_twice (Example.contains_str "cpp") "src") ->
        (forall path',
            In (key, path')
              (source_hits Sample.same_key_twice (Example.contains_str "cpp") "src") ->
            path' = path) ->
        Dict.get index key = Some path) /\
    (forall key path,
        In (key, path) (source_hits Sample.same_key_twice (Example.contains_str "cpp") "src") ->
        exists line g1 g2,
          In line (file_lines Sample.same_key_twice path) /\
          Re.search GTEST_RE line = Some [g1; g2] /\
          key = (strip g1 ++ "." ++ strip g2)%string /\
          stripped_of g1 (strip g1) /\ stripped_of g2 (strip g2)) /\
    (forall path line g1 g2,
        In path (matching_paths Sample.same_key_twice (Example.contains_str "cpp") "src") ->
        In line (file_lines Sample.same_key_twice path) ->
        Re.search GTEST_RE line = Some [g1; g2] ->
        exists path', Dict.get index (strip g1 ++ "." ++ strip g2)%string = Some path') /\
    (forall key path,
        Dict.get index key = Some path ->
        exists before after,
          matching_paths Sample.same_key_twice (Example.contains_str "cpp") "src"
          = before ++ path :: after /\
          declares_key Sample.same_key_twice path key /\
          forall p, In p after -> ~ declares_key Sample.same_key_twice p key) /\
    (forall key path,
        In path (matching_paths Sample.same_key_twice (Example.contains_str "cpp") "src") ->
        declares_key Sample.same_key_twice path key ->
        (forall path',
            In path' (matching_paths Sample.same_key_twice (Example.contains_str "cpp") "src") ->
            declares_key Sample.same_key_twice path' key -> path' = path) ->
        Dict.get index key = Some path) /\
    (forall path line pre mid g1 g2 post,
        In path (matching_paths Sample.same_key_twice (Example.contains_str "cpp") "src") ->
        In line (file_lines Sample.same_key_twice path) ->
        declares line pre mid g1 g2 post ->
        exists a b path',
          Dict.get index (strip a ++ "." ++ strip b)%string = Some path' /\
          exists pre' mid' post', declares line pre' mid' a b post').
Proof.
  apply (source_index_last_scanned_wins Sample.same_key_twice "src" "cpp"
           (Example.contains_str "cpp")).
  - reflexivity.
  - intros path [<-|[<-|[]]]; eexists; reflexivity.
Defined.

(** In that tree [Foo.t1] is declared in [a.cpp] and in [b.cpp], which is
    scanned last; [Foo.only_a] in [a.cpp] alone. *)
Example source_index_of_same_key_twice :
  run (GoogleTestReportParser.doParseSrcFolder Sample.same_key_twice "src" "cpp")
  = ([Walk "src"; OpenRead "src/a.cpp"; OpenRead "src/b.cpp"],
     Done [("Foo.t1", "src/b.cpp"); ("Foo.only_a", "src/a.cpp")]).
Proof. vm_compute. reflexivity. Qed.

(* ===================================================================== *)
(** * Further properties of the script *)
(* ===================================================================== *)

(** ** The tag tables *)

(** X1. [test_msg_type_map] and [test_msg_tag_map] are inverse to each
    other: the tag of a kind maps back to the kind, and a tag that maps to
    a kind is the tag of that kind.  No other tag maps to a kind. *)
Theorem tag_tables_inverse :
  (forall type, test_msg_tag_map (test_msg_type_map type) = Some type) /\
  (forall tag type, test_msg_tag_map tag = Some type -> test_msg_type_map type = tag).
Proof.
  split.
  - intros []; reflexivity.
  - intros tag type. unfold test_msg_tag_map.
    destruct (String.eqb_spec tag "skipped") as [->|_];
      [intros E; inversion E; reflexivity|].
    destruct (String.eqb_spec tag "failure") as [->|_];
      [intros E; inversion E; reflexivity|].
    destruct (String.eqb_spec tag "error") as [->|_];
      [intros E; inversion E; reflexivity|discriminate].
Qed.

Lemma tag_tables_inverse_witness :
  test_msg_type_map error = "error".
Proof.
  apply (proj2 tag_tables_inverse "error" error). reflexivity.
Defined.

(** X2. When the first child of a test case is a failure, error or skipped
    element, the message element written for the test case has the tag of
    that child, the child's text as its text (the empty string when the
    child has none) and the name of the kind as its [message] attribute. *)
Theorem message_element_keeps_tag_and_text
    (test_case_node child : Etree.node) (rest : list Etree.node)
    (tag : string) (type : TestMsgType) :
  Etree.children test_case_node = child :: rest ->
  Etree.tag child = Some tag ->
  test_msg_tag_map tag = Some type ->
  option_map SonarTestExcutionsXmlSerializer.msg_tag
    (JUnitTestReportParser.doParseMsg test_case_node)
  = Some (Etree.Element tag [("message", TestMsgType_str type)]
            (Some match Etree.text child with Some y => y | None => "" end) []).
Proof.
  intros Hc Ht Hm. rewrite (doParseMsg_head _ child rest Hc).
  unfold status_message. rewrite Ht, Hm. simpl.
  unfold SonarTestExcutionsXmlSerializer.msg_tag. simpl.
  assert (E : test_msg_type_map type = tag).
  { revert Hm. unfold test_msg_tag_map.
    destruct (String.eqb_spec tag "skipped") as [->|_];
      [intros E; inversion E; reflexivity|].
    destruct (String.eqb_spec tag "failure") as [->|_];
      [intros E; inversion E; reflexivity|].
    destruct (String.eqb_spec tag "error") as [->|_];
      [intros E; inversion E; reflexivity|discriminate]. }
  rewrite E. reflexivity.
Qed.

Lemma message_element_keeps_tag_and_text_witness :
  option_map SonarTestExcutionsXmlSerializer.msg_tag
    (JUnitTestReportParser.doParseMsg
       (Sample.gtest_case "t1" "0.1" [Etree.Element "skipped" [] None []]))
  = Some (Etree.Element "skipped" [("message", "TestMsgType.skipped")] (Some "") []).
Proof.
  apply (message_element_keeps_tag_and_text
           (Sample.gtest_case "t1" "0.1" [Etree.Element "skipped" [] None []])
           (Etree.Element "skipped" [] None []) [] "skipped" skipped);
    reflexivity.
Defined.

(** ** The serializer *)

Lemma file_tag_outcome (g : SonarTestExcution.t) :
  SonarTestExcutionsXmlSerializer.file_tag g =
  match SonarTestExcution.file_path g with
  | None => Raise none_refused
  | Some _ => if accepted g then Ok (file_element g) else Raise xml_refused
  end.
Proof.
  unfold SonarTestExcutionsXmlSerializer.file_tag, accepted, file_element.
  destruct (SonarTestExcution.file_path g); reflexivity.
Qed.

Lemma serialize_accepted groups :
  (forall g, In g groups -> accepted g = true) ->
  SonarTestExcutionsXmlSerializer.serialize groups = Ok (document groups).
Proof.
  intros Ha. unfold SonarTestExcutionsXmlSerializer.serialize, document.
  assert (E : SonarTestExcutionsXmlSerializer.file_tags groups = Ok (map file_element groups)).
  { induction groups as [|g groups IH]; simpl; [reflexivity|].
    rewrite (file_tag_accepted g) by (apply Ha; left; reflexivity).
    rewrite IH by (intros g' Hg'; apply Ha; right; exact Hg'). reflexivity. }
  rewrite E. reflexivity.
Qed.

(** The first group that is refused decides how the call ends. *)
Lemma serialize_first_refused before g after e :
  (forall g0, In g0 before -> accepted g0 = true) ->
  SonarTestExcutionsXmlSerializer.file_tag g = Raise e ->
  SonarTestExcutionsXmlSerializer.serialize (before ++ g :: after) = Raise e.
Proof.
  intros Hb Hg. unfold SonarTestExcutionsXmlSerializer.serialize.
  assert (E : SonarTestExcutionsXmlSerializer.file_tags (before ++ g :: after) = Raise e).
  { induction before as [|g0 before IH]; simpl.
    - rewrite Hg. reflexivity.
    - rewrite (file_tag_accepted g0) by (apply Hb; left; reflexivity).
      rewrite IH by (intros g' Hg'; apply Hb; right; exact Hg'). reflexivity. }
  rewrite E. reflexivity.
Qed.

Lemma serialize_ok_accepted groups doc :
  SonarTestExcutionsXmlSerializer.serialize groups = Ok doc ->
  forall g, In g groups -> accepted g = true.
Proof.
  unfold SonarTestExcutionsXmlSerializer.serialize.
  destruct (SonarTestExcutionsXmlSerializer.file_tags groups) as [fs|e] eqn:E; [|discriminate].
  intros _. revert fs E. induction groups as [|g0 groups IH]; intros fs E g Hin; [destruct Hin|].
  simpl in E. rewrite file_tag_outcome in E.
  destruct (SonarTestExcution.file_path g0) eqn:Hp; [|discriminate].
  destruct (accepted g0) eqn:Ha; [|discriminate].
  destruct (SonarTestExcutionsXmlSerializer.file_tags groups) as [fs'|e]; [|discriminate].
  destruct Hin as [<-|Hin]; [exact Ha|exact (IH fs' eq_refl g Hin)].
Qed.

(** A group without a path among groups that are otherwise accepted. *)
Lemma serialize_none_path groups g :
  In g groups -> SonarTestExcution.file_path g = None ->
  (forall g0, In g0 groups ->
     SonarTestExcution.file_path g0 = None \/ accepted g0 = true) ->
  SonarTestExcutionsXmlSerializer.serialize groups = Raise none_refused.
Proof.
  intros Hin Hnone Hall. unfold SonarTestExcutionsXmlSerializer.serialize.
  assert (E : SonarTestExcutionsXmlSerializer.file_tags groups = Raise none_refused).
  { induction groups as [|g0 groups IH]; [destruct Hin|]. simpl.
    rewrite file_tag_outcome.
    destruct (SonarTestExcution.file_path g0) as [path|] eqn:Hp; [|reflexivity].
    destruct (Hall g0 (or_introl eq_refl)) as [H|H]; [congruence|]. rewrite H.
    destruct Hin as [->|Hin]; [congruence|].
    rewrite (IH Hin) by (intros g' Hg'; apply Hall; right; exact Hg'). reflexivity. }
  rewrite E. reflexivity.
Qed.

Lemma msg_tag_well_formed (m : TestMsg.t) :
  Etree.well_formed (SonarTestExcutionsXmlSerializer.msg_tag m)
  = Etree.xml_compatible (TestMsg.long_msg m).
Proof.
  unfold SonarTestExcutionsXmlSerializer.msg_tag, TestMsg.short_msg, TestMsg.msg_type.
  destruct (TestMsg._msg_type m); simpl; rewrite andb_true_r; reflexivity.
Qed.

Lemma accepted_case_strings (e : TestCase.t) :
  accepted_case e = true <->
  Etree.xml_compatible (TestCase.name e) = true /\
  Etree.xml_compatible (TestCase.duration e) = true /\
  (forall m, TestCase.msg e = Some m -> Etree.xml_compatible (TestMsg.long_msg m) = true).
Proof.
  unfold accepted_case, SonarTestExcutionsXmlSerializer.test_case_tag.
  destruct (TestCase.msg e) as [m|].
  - cbn [Etree.well_formed forallb fst snd Etree.xml_compatible_opt].
    rewrite msg_tag_well_formed. change (Etree.xml_compatible "testCase") with true.
    change (Etree.xml_compatible "name") with true.
    change (Etree.xml_compatible "duration") with true.
    rewrite !andb_true_r. cbn [andb]. rewrite !andb_true_iff. split.
    + intros [[Hn Hd] Hm]. split; [exact Hn|]. split; [exact Hd|].
      intros m' E. inversion E; subst. exact Hm.
    + intros [Hn [Hd Hm]]. split; [split; assumption|]. apply Hm. reflexivity.
  - cbn [Etree.well_formed forallb fst snd Etree.xml_compatible_opt].
    change (Etree.xml_compatible "testCase") with true.
    change (Etree.xml_compatible "name") with true.
    change (Etree.xml_compatible "duration") with true.
    rewrite !andb_true_r. cbn [andb]. rewrite !andb_true_iff. split.
    + intros [Hn Hd]. split; [exact Hn|]. split; [exact Hd|]. discriminate.
    + intros [Hn [Hd _]]. split; assumption.
Qed.

Lemma accepted_strings (g : SonarTestExcution.t) :
  accepted g = true <->
  (exists path, SonarTestExcution.file_path g = Some path /\
                Etree.xml_compatible path = true) /\
  (forall e, In e (SonarTestExcution.test_cases g) -> accepted_case e = true).
Proof.
  split.
  - unfold accepted, file_element.
    destruct (SonarTestExcution.file_path g) as [path|] eqn:Hp; [|discriminate].
    cbn [Etree.well_formed forallb fst snd Etree.xml_compatible_opt].
    change (Etree.xml_compatible "file") with true.
    change (Etree.xml_compatible "path") with true.
    rewrite !andb_true_r. cbn [andb]. rewrite andb_true_iff. intros [Hc Hf].
    split; [exists path; split; [reflexivity|exact Hc]|].
    intros e He. rewrite forallb_forall in Hf. apply Hf. apply in_map. exact He.
  - intros [[path [Hp Hc]] He]. exact (accepted_group g path Hp Hc He).
Qed.

(** X3. The serializer goes through the groups in order and lxml checks
    every string it is given.  A group is accepted when its path is a
    string and neither the path nor the name, the duration or the message
    text of one of its test cases holds a character that XML does not
    allow.  When every group is accepted the result is a [testExecutions]
    root with version 1 and one [file] element per group, in the order of
    the groups, each with the group's path and one [testCase] element per
    test case in order; and the call succeeds in no other case.  Otherwise
    the first group that is not accepted ends the call: with [TypeError]
    when its path is [None], with [ValueError] when it holds a refused
    character. *)
Theorem serialize_first_refusal_decides (groups : list SonarTestExcution.t) :
  ((forall g, In g groups -> accepted g = true) ->
   SonarTestExcutionsXmlSerializer.serialize groups = Ok (document groups)) /\
  (forall doc,
      SonarTestExcutionsXmlSerializer.serialize groups = Ok doc ->
      doc = document groups /\ forall g, In g groups -> accepted g = true) /\
  (forall before g after,
      groups = before ++ g :: after ->
      (forall g0, In g0 before -> accepted g0 = true) ->
      accepted g = false ->
      SonarTestExcutionsXmlSerializer.serialize groups
      = Raise match SonarTestExcution.file_path g with
              | None => none_refused
              | Some _ => xml_refused
              end) /\
  (forall g,
      accepted g = true <->
      (exists path, SonarTestExcution.file_path g = Some path /\
                    Etree.xml_compatible path = true) /\
      (forall e, In e (SonarTestExcution.test_cases g) ->
         Etree.xml_compatible (TestCase.name e) = true /\
         Etree.xml_compatible (TestCase.duration e) = true /\
         (forall m, TestCase.msg e = Some m ->
                    Etree.xml_compatible (TestMsg.long_msg m) = true))).
Proof.
  split; [apply serialize_accepted|]. split; [|split].
  - intros doc Hs. pose proof (serialize_ok_accepted groups doc Hs) as Ha.
    split; [|exact Ha]. rewrite (serialize_accepted groups Ha) in Hs. congruence.
  - intros before g after -> Hb Hg. apply serialize_first_refused; [exact Hb|].
    rewrite file_tag_outcome, Hg. destruct (SonarTestExcution.file_path g); reflexivity.
  - intros g. rewrite accepted_strings. split.
    + intros [Hp He]. split; [exact Hp|].
      intros e Hin. apply accepted_case_strings. exact (He e Hin).
    + intros [Hp He]. split; [exact Hp|].
      intros e Hin. apply accepted_case_strings. exact (He e Hin).
Qed.

Lemma serialize_first_refusal_decides_witness :
  SonarTestExcutionsXmlSerializer.serialize
    [ {| SonarTestExcution._file_path := Some "a.cpp";
         SonarTestExcution._test_cases := [TestCase.init "Foo.t1" "2" None] |};
      SonarTestExcution.init (Some "b.cpp") ]
  = Ok (Etree.Element "testExecutions" [("version", "1")] None
          [Etree.Element "file" [("path", "a.cpp")] None
             [Etree.Element "testCase" [("name", "Foo.t1"); ("duration", "2")] None []];
           Etree.Element "file" [("path", "b.cpp")] None []]) /\
  SonarTestExcutionsXmlSerializer.serialize
    [ SonarTestExcution.init (Some "a.cpp"); SonarTestExcution.init None;
      SonarTestExcution.init (Some Sample.bell_cpp) ]
  = Raise none_refused /\
  SonarTestExcutionsXmlSerializer.serialize
    [ SonarTestExcution.init (Some "a.cpp"); SonarTestExcution.init (Some Sample.bell_cpp);
      SonarTestExcution.init None ]
  = Raise xml_refused.
Proof.
  split; [|split].
  - apply (proj1 (serialize_first_refusal_decides
                    [ {| SonarTestExcution._file_path := Some "a.cpp";
                         SonarTestExcution._test_cases := [TestCase.init "Foo.t1" "2" None] |};
                      SonarTestExcution.init (Some "b.cpp") ])).
    intros g [<-|[<-|[]]]; reflexivity.
  - apply (proj1 (proj2 (proj2 (serialize_first_refusal_decides
                    [ SonarTestExcution.init (Some "a.cpp"); SonarTestExcution.init None;
                      SonarTestExcution.init (Some Sample.bell_cpp) ])))
             [SonarTestExcution.init (Some "a.cpp")] (SonarTestExcution.init None)
             [SonarTestExcution.init (Some Sample.bell_cpp)]).
    + reflexivity.
    + intros g [<-|[]]. reflexivity.
    + reflexivity.
  - apply (proj1 (proj2 (proj2 (serialize_first_refusal_decides
                    [ SonarTestExcution.init (Some "a.cpp");
                      SonarTestExcution.init (Some Sample.bell_cpp);
                      SonarTestExcution.init None ])))
             [SonarTestExcution.init (Some "a.cpp")]
             (SonarTestExcution.init (Some Sample.bell_cpp))
             [SonarTestExcution.init None]).
    + reflexivity.
    + intros g [<-|[]]. reflexivity.
    + reflexivity.
Defined.

(** ** Durations *)

Lemma float_of_str_raises s e : float_of_str s = Raise e -> exists m, e = ValueError m.
Proof.
  unfold float_of_str.
  destruct (drop_underscores zero _) as [t|]; [|intros E; inversion E; eauto].
  destruct (read_sign t) as [neg body].
  destruct (String.eqb (lower_str body) "inf" || String.eqb (lower_str body) "infinity");
    [discriminate|].
  destruct (String.eqb (lower_str body) "nan"); [discriminate|].
  destruct (parse_number body) as [[m e10]|]; [discriminate|].
  intros E; inversion E; eauto.
Qed.

(** X4. The duration of a test case is computed exactly when its [time]
    attribute converts to a float whose product with 1000 is finite; it is
    then that product rounded toward zero, in decimal.  Otherwise the
    computation raises: [TypeError] when, and only when, the attribute is
    missing; else [ValueError] or [OverflowError]. *)
Theorem duration_of_outcomes (testCase : Etree.node) :
  (forall text, duration_of testCase = Ok text <->
                millis_text (Etree.get testCase "time") text) /\
  (Etree.get testCase "time" = None <->
   exists m, duration_of testCase = Raise (TypeError m)) /\
  (forall e, duration_of testCase = Raise e ->
             exists m, e = TypeError m \/ e = ValueError m \/ e = OverflowError m).
Proof.
  split; [|split].
  - intros text. split; [apply duration_of_millis|].
    intros [x [Hx [Hfin ->]]]. unfold duration_of. rewrite Hx.
    rewrite (int_of_float_trunc _ Hfin). reflexivity.
  - unfold duration_of. destruct (Etree.get testCase "time") as [s|]; simpl.
    + split; [discriminate|]. intros [m E].
      destruct (float_of_str s) as [x|e] eqn:Hs.
      * destruct (float_mul_int x 1000); simpl in E; discriminate.
      * destruct (float_of_str_raises s e Hs) as [m' ->]. discriminate.
    + split; [eauto|reflexivity].
  - intros e. unfold duration_of. destruct (Etree.get testCase "time") as [s|]; simpl.
    + destruct (float_of_str s) as [x|e'] eqn:Hs.
      * destruct (float_mul_int x 1000); simpl; intros E; inversion E; eauto.
      * intros E. inversion E; subst.
        destruct (float_of_str_raises s e Hs) as [m ->]. eauto.
    + intros E. inversion E. eauto.
Qed.

Lemma duration_of_outcomes_witness :
  duration_of (Sample.gtest_case "t1" "0.002" []) = Ok "2" /\
  exists m, duration_of (Etree.Element "testcase" [("name", "t1")] None [])
            = Raise (TypeError m).
Proof.
  split.
  - apply (proj1 (duration_of_outcomes (Sample.gtest_case "t1" "0.002" []))).
    exists (S754_finite false 4611686018427388 (-61)).
    split; [vm_compute; reflexivity|]. split; vm_compute; reflexivity.
  - apply (proj1 (proj2 (duration_of_outcomes
                           (Etree.Element "testcase" [("name", "t1")] None [])))).
    reflexivity.
Defined.

(** ** What [doParse] returns for any report *)

Lemma keys_extend key tcs d :
  Dict.keys (extend key tcs d) =
  if Dict.contains d key then Dict.keys d else Dict.keys d ++ [key].
Proof. unfold extend. rewrite keys_update. apply keys_ensure. Qed.

Lemma junit_step_grouped testCase d :
  NoDup (Dict.keys d) /\ keyed d ->
  let d' := snd (fst (JUnitTestReportParser.doParse_step testCase d)) in
  NoDup (Dict.keys d') /\ keyed d'.
Proof.
  intros [Hn Hk]. rewrite junit_step_run.
  destruct (duration_of testCase); simpl.
  - split; [apply NoDup_keys_extend|apply keyed_extend]; assumption.
  - split; [apply NoDup_keys_ensure|apply keyed_ensure]; assumption.
Qed.

Lemma indexed_paths_ensure index file name d :
  Dict.get index name = Some file ->
  indexed_paths index d -> indexed_paths index (ensure (Some file) d).
Proof.
  intros Hf Hd key Hin. rewrite keys_ensure in Hin.
  destruct (Dict.contains d (Some file)); [exact (Hd key Hin)|].
  apply in_app_or in Hin. destruct Hin as [Hin|[<-|[]]]; [exact (Hd key Hin)|eauto].
Qed.

Lemma indexed_paths_step index test_suite_name testCase d :
  indexed_paths index d ->
  indexed_paths index
    (snd (fst (GoogleTestReportParser.doParse_step index test_suite_name testCase d))).
Proof.
  intros Hd. rewrite gtest_step_run. cbv zeta.
  destruct (Dict.get index _) as [f|] eqn:Hf; [|exact Hd].
  destruct (duration_of testCase); simpl.
  - unfold extend. intros key Hin. rewrite keys_update in Hin.
    exact (indexed_paths_ensure index f _ d Hf Hd key Hin).
  - exact (indexed_paths_ensure index f _ d Hf Hd).
Qed.

Lemma indexed_paths_suite index testSuite d :
  indexed_paths index d ->
  indexed_paths index (snd (fst (GoogleTestReportParser.doParse_suite index testSuite d))).
Proof.
  intros Hd. unfold GoogleTestReportParser.doParse_suite.
  apply (for_each_invariant (indexed_paths index)); [|exact Hd].
  intros tc s _ Hs. apply indexed_paths_step. exact Hs.
Qed.

Lemma gtest_parsed_paths w index path : indexed_paths index (gtest_parsed w index path).
Proof.
  unfold gtest_parsed, run. rewrite gtest_doParse_run.
  destruct (etree_parse w path) as [tree|e]; [|intros key []].
  pose proof (for_each_invariant (indexed_paths index) (suites tree)
                (GoogleTestReportParser.doParse_suite index)
                (fun x s _ Hs => indexed_paths_suite index x s Hs) []
                (fun key H => match H with end)) as Hinv.
  destruct (for_each (suites tree) (GoogleTestReportParser.doParse_suite index) [])
    as [[ev d] [[]|e|code]]; simpl in *; try exact Hinv.
  intros key [].
Qed.

(** X5. Whatever a report file holds, and whether or not it parses,
    [doParse] ends normally and returns a dictionary; on the way it only
    parses and prints.  The keys of the dictionary are pairwise distinct and
    every group carries its key as file path.  For a Google Test report
    every key is moreover a path that the source index gives for some test
    name. *)
Theorem doParse_always_returns_groups
    (w : world) (path : string) (index : dict string string) :
  (exists ev d,
      run (JUnitTestReportParser.doParse w path) = (ev, Done d) /\
      Forall quiet ev /\ NoDup (Dict.keys d) /\ keyed d) /\
  (exists ev d,
      run (GoogleTestReportParser.doParse w path index) = (ev, Done d) /\
      Forall quiet ev /\ NoDup (Dict.keys d) /\ keyed d /\ indexed_paths index d).
Proof.
  split.
  - destruct (junit_doParse_total w path tt) as [ev [d [E Hq]]].
    exists ev, d. split; [unfold run; rewrite E; reflexivity|]. split; [exact Hq|].
    revert E. unfold JUnitTestReportParser.doParse, returning, try_except, bind, call.
    destruct (etree_parse w path) as [tree|e]; simpl.
    + pose proof (for_each_invariant
                    (fun d : executions => NoDup (Dict.keys d) /\ keyed d)
                    (Etree.xpath_root "testsuite" "testcase" tree)
                    JUnitTestReportParser.doParse_step
                    (fun x s _ Hs => junit_step_grouped x s Hs) []
                    (conj (NoDup_nil _) keyed_nil)) as Hinv.
      destruct (for_each (Etree.xpath_root "testsuite" "testcase" tree)
                  JUnitTestReportParser.doParse_step [])
        as [[ev1 d1] [[]|e|code]]; simpl in *; intros E; inversion E; subst; exact Hinv.
    + intros E. inversion E; subst. split; [constructor|exact keyed_nil].
  - destruct (gtest_doParse_total w path index tt) as [ev [d [E [Hq [_ [Hn Hk]]]]]].
    exists ev, d. split; [unfold run; rewrite E; reflexivity|].
    split; [exact Hq|]. split; [exact Hn|]. split; [exact Hk|].
    pose proof (gtest_parsed_paths w index path) as Hp.
    unfold gtest_parsed, run in Hp. rewrite E in Hp. exact Hp.
Qed.

(** ** The order of the groups *)

Lemma filter_filter {A : Type} (p q : A -> bool) (l : list A) :
  filter p (filter q l) = filter (fun a => q a && p a) l.
Proof.
  induction l as [|a l IH]; simpl; [reflexivity|].
  destruct (q a); simpl; [destruct (p a); rewrite IH; reflexivity|exact IH].
Qed.

Lemma keys_fold_extend {X : Type} (key : X -> optstr) (ents : X -> list TestCase.t)
    (xs : list X) (d : executions) :
  Dict.keys (fold_extend key ents xs d) =
  Dict.keys d ++ filter (absent (Dict.keys d)) (distinct (map key xs)).
Proof.
  unfold fold_extend. revert d. induction xs as [|x xs IH]; intros d; simpl.
  - rewrite app_nil_r. reflexivity.
  - rewrite IH, keys_extend. unfold Dict.contains.
    destruct (Dict.get d (key x)) as [g|] eqn:Hg.
    + assert (Hin : In (key x) (Dict.keys d)).
      { apply get_In in Hg. apply (in_map fst) in Hg. exact Hg. }
      unfold absent at 2. destruct (in_dec eq_dec (key x) (Dict.keys d)); [|contradiction].
      f_equal. rewrite filter_filter. apply filter_ext. intros k.
      destruct (eq_dec k (key x)) as [->|Hne]; simpl; [|reflexivity].
      unfold absent. destruct (in_dec eq_dec (key x) (Dict.keys d)); [reflexivity|contradiction].
    + apply get_None_keys in Hg.
      unfold absent at 2. destruct (in_dec eq_dec (key x) (Dict.keys d)); [contradiction|].
      rewrite <- app_assoc. simpl. f_equal. f_equal.
      rewrite filter_filter. apply filter_ext. intros k. unfold absent.
      destruct (in_dec eq_dec k (Dict.keys d ++ [key x])) as [Hin|Hnin];
        destruct (eq_dec k (key x)) as [Heq|Hne];
        destruct (in_dec eq_dec k (Dict.keys d)) as [Hin'|Hnin'];
        simpl; try reflexivity; exfalso.
      * apply in_app_or in Hin. destruct Hin as [Hin|[E|[]]]; [contradiction|congruence].
      * apply Hnin. apply in_or_app. right. left. congruence.
      * apply Hnin. apply in_or_app. right. left. congruence.
      * apply Hnin. apply in_or_app. left. exact Hin'.
Qed.

Lemma filter_all {A : Type} (p : A -> bool) (l : list A) :
  (forall a, p a = true) -> filter p l = l.
Proof.
  intros Hp. induction l as [|a l IH]; simpl; [reflexivity|]. rewrite Hp, IH. reflexivity.
Qed.

Lemma keys_fold_extend_nil {X : Type} (key : X -> optstr) (ents : X -> list TestCase.t)
    (xs : list X) :
  Dict.keys (fold_extend key ents xs []) = distinct (map key xs).
Proof.
  rewrite keys_fold_extend. simpl. apply filter_all. intros k. reflexivity.
Qed.

(** X6. For a JUnit report whose root is [testsuite] and whose test cases
    all have a [time] that converts, the groups that [doParse] returns
    come in the order in which their [file] values first occur in the
    report, one group per distinct value; a test case without the
    attribute goes to a group whose path is [None].  The serializer refuses
    such a result: a valid test case that lacks [file] makes it raise
    [TypeError]. *)
Theorem junit_groups_follow_first_occurrence
    (w : world) (report_file_path : string)
    (attrs : list (string * string)) (txt : option string) (children : list Etree.node) :
  etree_parse w report_file_path = Ok (Etree.Element "testsuite" attrs txt children) ->
  (forall testCase, In testCase children -> Etree.has_tag "testcase" testCase = true ->
     exists duration, duration_of testCase = Ok duration) ->
  exists d,
    run (JUnitTestReportParser.doParse w report_file_path)
    = ([ParseXml report_file_path], Done d) /\
    map SonarTestExcution.file_path (Dict.values d)
    = distinct (map (fun tc => Etree.get tc "file")
                  (filter (Etree.has_tag "testcase") children)) /\
    ((exists testCase, In testCase children /\ Etree.has_tag "testcase" testCase = true /\
                       Etree.get testCase "file" = None) ->
     SonarTestExcutionsXmlSerializer.serialize (Dict.values d) = Raise none_refused).
Proof.
  intros Hp Hv.
  set (testCases := filter (Etree.has_tag "testcase") children).
  assert (Hv' : forall tc, In tc testCases -> exists duration, duration_of tc = Ok duration).
  { intros tc Hin. apply filter_In in Hin. destruct Hin as [Hin Ht]. exact (Hv tc Hin Ht). }
  set (d := fold_extend (fun tc => Etree.get tc "file") (fun tc => [junit_entry tc])
              testCases []).
  assert (Hk : keyed d) by (apply keyed_fold_extend, keyed_nil).
  assert (Hkeys : map SonarTestExcution.file_path (Dict.values d)
                  = distinct (map (fun tc => Etree.get tc "file") testCases)).
  { rewrite (values_paths d Hk). apply keys_fold_extend_nil. }
  assert (Hrun : run (JUnitTestReportParser.doParse w report_file_path)
                 = ([ParseXml report_file_path], Done d)).
  { unfold run, JUnitTestReportParser.doParse, returning, try_except, bind, call.
    rewrite Hp. simpl completion_of. cbv iota.
    change (Etree.xpath_root "testsuite" "testcase"
              (Etree.Element "testsuite" attrs txt children)) with testCases.
    rewrite (junit_loop_valid testCases [] Hv'). reflexivity. }
  exists d. split; [exact Hrun|split].
  - exact Hkeys.
  - intros [tc [Hin [Ht Hnone]]].
    assert (Hmem : In None (map SonarTestExcution.file_path (Dict.values d))).
    { rewrite (values_paths d Hk).
      assert (Hget : cases_at d None <> []).
      { unfold d. rewrite cases_at_fold_extend. simpl.
        assert (Hf : In tc (filter (fun x => if eq_dec (Etree.get x "file") None
                                             then true else false) testCases)).
        { apply filter_In. split; [apply filter_In; split; assumption|].
          rewrite Hnone. destruct (eq_dec (@None string) None); [reflexivity|congruence]. }
        destruct (filter _ testCases) as [|y ys]; [destruct Hf|]. simpl. discriminate. }
      unfold cases_at in Hget. destruct (Dict.get d None) as [g|] eqn:Hg; [|congruence].
      apply get_In in Hg. apply (in_map fst) in Hg. exact Hg. }
    apply in_map_iff in Hmem. destruct Hmem as [g [Hg Hgin]].
    apply (serialize_none_path (Dict.values d) g Hgin Hg).
    intros g0 Hg0. apply in_map_iff in Hg0. destruct Hg0 as [[key g1] [E Hin0]].
    simpl in E. subst g1. pose proof (Hk key g0 Hin0) as Hpath.
    destruct key as [file|]; [right|left; exact Hpath].
    exact (junit_group_accepted w report_file_path _ d file g0 Hrun Hin0 Hpath).
Qed.

Lemma junit_groups_follow_first_occurrence_witness :
  exists d,
    run (JUnitTestReportParser.doParse Sample.junit_files_in_turn "reports/r.xml")
    = ([ParseXml "reports/r.xml"], Done d) /\
    map SonarTestExcution.file_path (Dict.values d)
    = distinct (map (fun tc => Etree.get tc "file")
                  (filter (Etree.has_tag "testcase") Sample.cases_in_turn)) /\
    ((exists testCase, In testCase Sample.cases_in_turn /\
                       Etree.has_tag "testcase" testCase = true /\
                       Etree.get testCase "file" = None) ->
     SonarTestExcutionsXmlSerializer.serialize (Dict.values d) = Raise none_refused).
Proof.
  apply (junit_groups_follow_first_occurrence Sample.junit_files_in_turn "reports/r.xml"
           [("name", "suite")] None Sample.cases_in_turn).
  - reflexivity.
  - intros testCase [<-|[<-|[<-|[<-|[]]]]] _; eexists; vm_compute; reflexivity.
Defined.

(** ** Valid Google Test reports *)

Lemma gtest_suite_state index testSuite d :
  (forall tc, In tc (Etree.xpath_children "testcase" testSuite) ->
     indexed index (Etree.get testSuite "name") tc = true ->
     exists duration, duration_of tc = Ok duration) ->
  snd (fst (GoogleTestReportParser.doParse_suite index testSuite d))
  = fold_extend (gtest_file index) (fun c => [gtest_entry c])
      (filter (gtest_known index)
         (map (pair (Etree.get testSuite "name"))
            (Etree.xpath_children "testcase" testSuite))) d.
Proof.
  unfold GoogleTestReportParser.doParse_suite, fold_extend.
  generalize (Etree.get testSuite "name"). intros nm. revert d.
  induction (Etree.xpath_children "testcase" testSuite) as [|tc tcs IH]; intros d Hv; simpl.
  - reflexivity.
  - unfold bind. rewrite gtest_step_run. cbv zeta.
    pose proof (Hv tc (or_introl eq_refl)) as Htc.
    unfold gtest_known, indexed, Dict.contains in *. simpl fst. simpl snd.
    destruct (Dict.get index (GoogleTestReportParser.test_name nm tc)) as [f|] eqn:Hf.
    + destruct (Htc eq_refl) as [dur Hd]. rewrite Hd. simpl.
      specialize (IH (extend (Some f)
                        [TestCase.init (GoogleTestReportParser.test_name nm tc) dur
                           (JUnitTestReportParser.doParseMsg tc)] d)
                     (fun y Hy => Hv y (or_intror Hy))).
      destruct (for_each tcs _ _) as [[ev1 d1] c1]. simpl in *. rewrite IH.
      unfold gtest_file, gtest_entry. simpl. rewrite Hf, Hd. reflexivity.
    + specialize (IH d (fun y Hy => Hv y (or_intror Hy))).
      destruct (for_each tcs _ _) as [[ev1 d1] c1]. simpl in *. exact IH.
Qed.

Lemma gtest_loop_state index root :
  times_convert index root ->
  snd (fst (for_each (suites root) (GoogleTestReportParser.doParse_suite index) []))
  = fold_extend (gtest_file index) (fun c => [gtest_entry c])
      (filter (gtest_known index) (gtest_cases root)) [].
Proof.
  unfold times_convert, gtest_cases.
  generalize (@nil (optstr * SonarTestExcution.t)).
  induction (suites root) as [|x xs IH]; intros s Hv; simpl; [reflexivity|].
  unfold bind.
  pose proof (gtest_suite_state index x s (fun tc Htc => Hv x tc (or_introl eq_refl) Htc))
    as Hx.
  destruct (gtest_suite_valid index x s (fun tc Htc => Hv x tc (or_introl eq_refl) Htc))
    as [s' E].
  rewrite E in Hx. simpl in Hx. rewrite E.
  specialize (IH s' (fun y tc Hy => Hv y tc (or_intror Hy))).
  destruct (for_each xs _ s') as [[ev1 d1] c1]. simpl in *. rewrite IH, Hx.
  rewrite filter_app. unfold fold_extend. rewrite fold_left_app. reflexivity.
Qed.

Lemma gtest_entry_spec index c :
  (gtest_known index c = true -> exists duration, duration_of (snd c) = Ok duration) ->
  gtest_known index c = true -> gtest_entry_of c (gtest_entry c).
Proof.
  intros Hv Hk. destruct (Hv Hk) as [dur Hd].
  unfold gtest_entry_of, gtest_entry. rewrite Hd.
  split; [reflexivity|]. split; [apply duration_of_millis; exact Hd|reflexivity].
Qed.

(** X7. Take a Google Test report that parses and in which the [time] of
    every test case known to the index converts.  In the dictionary that
    [doParse] returns, the group of a source file holds, in document order
    across the suites, exactly one entry per test case that the index maps
    to that file: named [suite.case], with the binary64 product of
    [float(time)] and 1000 rounded toward zero as duration, and the message
    of its first child.  The groups come in the order in which their files
    first occur among the known test cases. *)
Theorem gtest_valid_report_entries
    (w : world) (path : string) (index : dict string string) (root : Etree.node) :
  etree_parse w path = Ok root ->
  times_convert index root ->
  exists ev d,
    run (GoogleTestReportParser.doParse w path index) = (ev, Done d) /\
    (forall file,
        Forall2 gtest_entry_of
          (filter (has_path index file) (gtest_cases root))
          (cases_at d (Some file))) /\
    map SonarTestExcution.file_path (Dict.values d)
    = distinct (map (gtest_file index) (filter (gtest_known index) (gtest_cases root))).
Proof.
  intros Hp Hv.
  destruct (gtest_loop_valid index root Hv) as [d E].
  pose proof (gtest_loop_state index root Hv) as Hd. rewrite E in Hd. simpl in Hd.
  exists (ParseXml path ::
          map (fun n => Print (GoogleTestReportParser.not_in_source n))
            (unindexed_names index root)), d.
  split; [|split].
  - unfold run. rewrite gtest_doParse_run, Hp, E. reflexivity.
  - intros file. rewrite Hd, cases_at_fold_extend.
    change (cases_at [] (Some file)) with (@nil TestCase.t). rewrite app_nil_l.
    rewrite flat_map_singleton, filter_filter.
    assert (Hf : filter (fun a => gtest_known index a &&
                                  (if eq_dec (gtest_file index a) (Some file)
                                   then true else false)) (gtest_cases root)
                 = filter (has_path index file) (gtest_cases root)).
    { apply filter_ext. intros c. unfold has_path, gtest_known, indexed, Dict.contains,
        gtest_file.
      match goal with
      | |- context [@eq_dec ?K ?H ?a ?b] => destruct (@eq_dec K H a b) as [Heq|Hne]
      end; [rewrite Heq; reflexivity|apply andb_false_r]. }
    rewrite Hf. apply Forall2_map_r. intros c Hin. apply filter_In in Hin.
    destruct Hin as [Hin Hpath].
    assert (Hk : gtest_known index c = true).
    { unfold has_path, gtest_file in Hpath. unfold gtest_known, indexed, Dict.contains.
      match type of Hpath with
      | context [@eq_dec ?K ?H ?a ?b] => destruct (@eq_dec K H a b) as [Heq|]
      end; [rewrite Heq; reflexivity|discriminate]. }
    apply (gtest_entry_spec index c); [|exact Hk].
    intros _. unfold gtest_cases in Hin. apply in_flat_map in Hin.
    destruct Hin as [suite [Hs Hin]]. apply in_map_iff in Hin.
    destruct Hin as [tc [<- Htc]]. exact (Hv suite tc Hs Htc Hk).
  - assert (Hk : keyed d) by (rewrite Hd; apply keyed_fold_extend, keyed_nil).
    rewrite (values_paths d Hk), Hd. apply keys_fold_extend_nil.
Qed.

Lemma gtest_valid_report_entries_witness :
  exists ev d,
    run (GoogleTestReportParser.doParse Sample.unknown_test_case "reports/r.xml"
           Sample.a_cpp_index) = (ev, Done d) /\
    (forall file,
        Forall2 gtest_entry_of
          (filter (has_path Sample.a_cpp_index file) (gtest_cases Sample.report_with_unknown))
          (cases_at d (Some file))) /\
    map SonarTestExcution.file_path (Dict.values d)
    = distinct (map (gtest_file Sample.a_cpp_index)
                  (filter (gtest_known Sample.a_cpp_index)
                     (gtest_cases Sample.report_with_unknown))).
Proof.
  apply (gtest_valid_report_entries Sample.unknown_test_case "reports/r.xml"
           Sample.a_cpp_index Sample.report_with_unknown).
  - reflexivity.
  - intros testSuite testCase [<-|[]] [<-|[<-|[<-|[]]]] _;
      eexists; vm_compute; reflexivity.
Defined.

(** ** Runs that complete *)





(** *** The Google Test run *)

Lemma doParseSrcFolder_run (w : world) folder pattern (regexp : string -> bool) :
  re_compile w pattern = Ok regexp ->
  (forall path, In path (matching_paths w regexp folder) ->
     exists lines, read_lines w path = Ok lines) ->
  run (GoogleTestReportParser.doParseSrcFolder w folder pattern)
  = (Walk folder :: map OpenRead (matching_paths w regexp folder),
     Done (record_hits (source_hits w regexp folder) [])).
Proof.
  intros Hre Hread.
  unfold run, GoogleTestReportParser.doParseSrcFolder, returning, bind, lift, emit.
  rewrite Hre. simpl completion_of. cbv iota.
  rewrite (scan_walk_run w regexp (os_walk w folder) [] Hread). reflexivity.
Qed.















(** A source file whose name holds a control character: the report is
    read, the output is opened, and the run stops there with nothing
    written.  With an ordinary name the same run completes. *)
Example gtest_run_with_control_character :
  run (main Sample.source_with_bell Sample.gtest_args)
  = ([Walk "src"; OpenRead "src/a.cpp"; OpenRead (String.append "src/" Sample.bell_cpp);
      Walk "reports"; ParseXml "reports/r.xml"; OpenWrite "out.xml"],
     Raised xml_refused) /\
  snd (run (main Sample.two_reports_one_source Sample.gtest_args)) = Done tt.
Proof. split; vm_compute; reflexivity. Qed.

(** ** Runs that stop *)

Lemma scan_file_eq (w : world) (regexp : string -> bool) dirName fileName d :
  GoogleTestReportParser.scan_file w regexp dirName fileName d
  = if regexp fileName then scan_path w (OsPath.join dirName fileName) d
    else ([], d, Done tt).
Proof.
  unfold GoogleTestReportParser.scan_file, scan_path.
  destruct (regexp fileName); reflexivity.
Qed.

Lemma scan_files_flat (w : world) (regexp : string -> bool) dirName fileList d :
  for_each fileList (GoogleTestReportParser.scan_file w regexp dirName) d
  = for_each (map (OsPath.join dirName) (filter regexp fileList)) (scan_path w) d.
Proof.
  revert d. induction fileList as [|f fs IH]; intros d; simpl; [reflexivity|].
  destruct (regexp f) eqn:Hf; simpl; unfold bind; rewrite scan_file_eq, Hf.
  - destruct (scan_path w (OsPath.join dirName f) d) as [[ev s'] [[]|e|code]];
      try reflexivity.
    rewrite IH. reflexivity.
  - rewrite IH.
    destruct (for_each _ (scan_path w) d) as [[ev s'] c]. reflexivity.
Qed.

Lemma scan_walk_flat (w : world) (regexp : string -> bool)
    (entries : list (string * list string * list string)) d :
  for_each entries (GoogleTestReportParser.scan_dir w regexp) d
  = for_each
      (flat_map (fun entry : string * list string * list string =>
                   let '(dirName, _, fileList) := entry in
                   map (OsPath.join dirName) (filter regexp fileList)) entries)
      (scan_path w) d.
Proof.
  revert d. induction entries as [|[[dirName subdirList] fileList] entries IH];
    intros d; simpl; [reflexivity|].
  rewrite for_each_app. unfold bind, GoogleTestReportParser.scan_dir at 1.
  rewrite scan_files_flat.
  destruct (for_each (map (OsPath.join dirName) (filter regexp fileList)) (scan_path w) d)
    as [[ev s'] [[]|e|code]]; try reflexivity.
  rewrite IH. reflexivity.
Qed.

Lemma scan_paths_ok (w : world) (paths : list string) d :
  (forall p, In p paths -> exists lines, read_lines w p = Ok lines) ->
  exists d', for_each paths (scan_path w) d = (map OpenRead paths, d', Done tt).
Proof.
  revert d. induction paths as [|p ps IH]; intros d Hr; simpl.
  - exists d. reflexivity.
  - destruct (Hr p (or_introl eq_refl)) as [lines Hl].
    unfold bind at 1. unfold scan_path at 1. unfold bind, call. rewrite Hl. simpl.
    rewrite scan_lines_run.
    destruct (IH (record_hits (line_hits p lines) d) (fun q Hq => Hr q (or_intror Hq)))
      as [d' E].
    rewrite E. exists d'. reflexivity.
Qed.

(** X10. The scan of the source tree has no [except] clause: the first
    matching source file that cannot be read ends the whole Google Test
    run with the exception of the read.  The files before it have been
    opened, no report is looked at, the output file is not opened, and the
    exit status is 1. *)
Theorem unreadable_source_file_stops_run
    (w : world) (args : Namespace) (src_folder src_pattern : string)
    (src_regexp : string -> bool) (before after : list string) (path : string) (e : exn) :
  report_type args = gtest ->
  gtest_src_folder args = Some src_folder ->
  gtest_src_pattern args = Some src_pattern ->
  re_compile w src_pattern = Ok src_regexp ->
  matching_paths w src_regexp src_folder = before ++ path :: after ->
  (forall p, In p before -> exists lines, read_lines w p = Ok lines) ->
  read_lines w path = Raise e ->
  run (main w args) = (Walk src_folder :: map OpenRead (before ++ [path]), Raised e) /\
  exit_status (snd (run (main w args))) = 1%Z.
Proof.
  intros Ht Hsf Hsp Hsre Hpaths Hbefore Hpath.
  assert (Hrun : run (main w args)
                 = (Walk src_folder :: map OpenRead (before ++ [path]), Raised e)).
  { unfold run, main. rewrite Ht, Hsf, Hsp.
    unfold GoogleTestReportParser.parse, bind at 1 2.
    unfold GoogleTestReportParser.doParseSrcFolder, returning, bind, lift, emit.
    rewrite Hsre. simpl completion_of. cbv iota.
    rewrite scan_walk_flat.
    change (flat_map _ (os_walk w src_folder)) with (matching_paths w src_regexp src_folder).
    rewrite Hpaths, for_each_app.
    destruct (scan_paths_ok w before [] Hbefore) as [d' E]. rewrite E.
    simpl. unfold bind at 1. unfold scan_path at 1. unfold bind, call. rewrite Hpath.
    simpl. rewrite map_app. reflexivity. }
  split; [exact Hrun|]. rewrite Hrun. reflexivity.
Qed.

Lemma unreadable_source_file_stops_run_witness :
  run (main Sample.unreadable_source Sample.gtest_args)
  = ([Walk "src"; OpenRead "src/a.cpp"; OpenRead "src/b.cpp"],
     Raised (OSError "No such file or directory")) /\
  exit_status (snd (run (main Sample.unreadable_source Sample.gtest_args))) = 1%Z.
Proof.
  apply (unreadable_source_file_stops_run Sample.unreadable_source Sample.gtest_args
           "src" "cpp" (Example.contains_str "cpp")
           ["src/a.cpp"] ["src/c.cpp"] "src/b.cpp" (OSError "No such file or directory"));
    try reflexivity.
  intros p [<-|[]]. eexists. reflexivity.
Defined.

(** X11. The patterns are compiled outside any [try]: a report pattern
    that does not compile ends a JUnit run with the error of the compiler
    before the search folder is walked; a source pattern that does not
    compile ends a Google Test run before anything is walked; and a report
    pattern that does not compile ends a Google Test run after the scan of
    the source tree and before the search folder is walked.  In each case
    nothing is parsed and the output file is not opened. *)
Theorem pattern_that_does_not_compile_stops_run
    (w : world) (args : Namespace) (e : exn) :
  (report_type args = junit ->
   re_compile w (report_pattern args) = Raise e ->
   run (main w args) = ([], Raised e)) /\
  (forall src_folder src_pattern,
      report_type args = gtest ->
      gtest_src_folder args = Some src_folder ->
      gtest_src_pattern args = Some src_pattern ->
      re_compile w src_pattern = Raise e ->
      run (main w args) = ([], Raised e)) /\
  (forall src_folder src_pattern src_regexp,
      report_type args = gtest ->
      gtest_src_folder args = Some src_folder ->
      gtest_src_pattern args = Some src_pattern ->
      re_compile w src_pattern = Ok src_regexp ->
      (forall path, In path (matching_paths w src_regexp src_folder) ->
         exists lines, read_lines w path = Ok lines) ->
      re_compile w (report_pattern args) = Raise e ->
      run (main w args)
      = (Walk src_folder :: map OpenRead (matching_paths w src_regexp src_folder),
         Raised e)).
Proof.
  split; [|split].
  - intros Ht Hre. unfold run, main. rewrite Ht.
    unfold JUnitTestReportParser.parse, bind, returning, lift.
    rewrite Hre. reflexivity.
  - intros src_folder src_pattern Ht Hsf Hsp Hre. unfold run, main. rewrite Ht, Hsf, Hsp.
    unfold GoogleTestReportParser.parse, bind at 1 2.
    unfold GoogleTestReportParser.doParseSrcFolder, returning, bind, lift.
    rewrite Hre. reflexivity.
  - intros src_folder src_pattern src_regexp Ht Hsf Hsp Hsre Hread Hre.
    pose proof (doParseSrcFolder_run w src_folder src_pattern src_regexp Hsre Hread) as Hidx.
    unfold run in *. unfold main. rewrite Ht, Hsf, Hsp.
    unfold GoogleTestReportParser.parse, bind at 1 2.
    destruct (GoogleTestReportParser.doParseSrcFolder w src_folder src_pattern tt)
      as [[ev1 []] c1].
    inversion Hidx; subst.
    unfold returning, bind, lift. rewrite Hre. simpl. rewrite app_nil_r. reflexivity.
Qed.

Lemma pattern_that_does_not_compile_stops_run_witness :
  run (main Sample.pattern_refused Sample.junit_args)
  = ([], Raised (ReError "missing ), unterminated subpattern")).
Proof.
  apply (proj1 (pattern_that_does_not_compile_stops_run
                  Sample.pattern_refused
                  Sample.junit_args (ReError "missing ), unterminated subpattern")));
    reflexivity.
Defined.

(** ** The output file *)








(** ** Which lines declare a test *)

(** X13.  A source line that contributes a key to the index has the shape
    of a test declaration: it holds [TEST], then an opening parenthesis, a
    non-empty first argument, a comma, a non-empty second argument and a
    closing parenthesis, with no newline from [TEST] to that parenthesis.
    The key is the two arguments, each stripped, joined by a dot, and the
    second argument runs to the last closing parenthesis of the line. *)
Theorem indexed_line_is_a_declaration (line key : string) :
  GoogleTestReportParser.line_key line = Some key ->
  exists pre mid g1 g2 post : string,
    declares line pre mid g1 g2 post /\
    no_close_on_line post = true /\
    key = (strip g1 ++ "." ++ strip g2)%string.
Proof.
  intros Hk. destruct (line_key_groups line key Hk) as [g1 [g2 [Hs ->]]].
  destruct (search_sound GTEST_RE line [g1; g2] Hs) as [pre [rest [caps [-> [Hm Hg]]]]].
  destruct (gtest_match_shape rest caps Hm)
    as [mid [a [b [post [-> [Om [Oa [Ob [Na [Nb [Hc Hcaps]]]]]]]]]]].
  rewrite Hcaps in Hg. inversion Hg; subst a b.
  exists pre, mid, g1, g2, post. split; [|split; [exact Hc|reflexivity]].
  repeat (split; [assumption || reflexivity|]). assumption.
Qed.

Lemma indexed_line_is_a_declaration_witness :
  exists pre mid g1 g2 post : string,
    declares "  TEST_F(FooTest, t1) {" pre mid g1 g2 post /\
    no_close_on_line post = true /\
    "FooTest.t1" = (strip g1 ++ "." ++ strip g2)%string.
Proof.
  apply (indexed_line_is_a_declaration "  TEST_F(FooTest, t1) {" "FooTest.t1").
  vm_compute. reflexivity.
Defined.

(** X14.  Conversely, every line of that shape contributes a key to the
    index, wherever in the line the declaration stands and whatever comes
    before and after it.  (The key is read off the match that the pattern
    finds, which X13 describes; a line with several parentheses or commas
    can be split in more than one way.) *)
Theorem declaration_line_is_indexed (line pre mid g1 g2 post : string) :
  declares line pre mid g1 g2 post ->
  exists key, GoogleTestReportParser.line_key line = Some key.
Proof.
  intros [-> [Om [O1 [O2 [N1 N2]]]]].
  destruct (search_complete GTEST_RE pre _ eq_refl
              (gtest_shape_accepted mid g1 g2 post Om O1 O2 N1 N2)) as [groups Hs].
  unfold GoogleTestReportParser.line_key. rewrite Hs. eauto.
Qed.

Lemma declaration_line_is_indexed_witness :
  exists key, GoogleTestReportParser.line_key "  TEST_F(FooTest, t1) {" = Some key.
Proof.
  apply (declaration_line_is_indexed "  TEST_F(FooTest, t1) {" "  " "_F" "FooTest" " t1" " {").
  repeat split; discriminate.
Defined.
